(** * StatTrackerBackend: batting statistics, CSV team detection and the entity store

    A shallow embedding of the core of the StatTracker backend
    ([app/utils/stat_calculators.py], [app/storage/memory_store.py],
    [app/services/stats_service.py], [app/services/ingest_service.py] and the
    upload route of [app/api/routes/games.py]) together with the properties
    that the specification states about it.

    Python [int] is [Z].  Python [float] is IEEE binary64, which is modelled
    exactly by dyadic rationals (module [PyFloat]).  Python [str] is a
    [string] of Latin-1 code points.  Exceptions are explicit ([Exc]). *)

From stdpp Require Import gmap strings list pretty.
From Stdlib Require Import ZArith Lia Ascii String.

Local Open Scope Z_scope.
#[local] Set Warnings "-clear-no-such-hyp".

(** ** Exceptions *)

Inductive exn : Type :=
| ZeroDivisionError (msg : string)
| OverflowError (msg : string)
| ValueError (msg : string)
| HTTPException (status : Z) (detail : string)
| OtherError (msg : string).

Inductive Exc (A : Type) : Type :=
| Ok (a : A)
| Raise (e : exn).
Arguments Ok {A} a.
Arguments Raise {A} e.

#[global] Instance exc_ret : MRet Exc := fun A a => Ok a.
#[global] Instance exc_bind : MBind Exc := fun A B f x =>
  match x with
  | Ok a => f a
  | Raise e => Raise e
  end.

(** ** Python floats (IEEE 754 binary64) *)

Module PyFloat.

(** Every finite double is an integer multiple of the smallest subnormal,
    [2^-1074]; a finite double is represented by that integer, so that
    numeric equality of finite values is Leibniz equality.  The two zeros are
    identified, as Python's [==] identifies them. *)
Inductive float : Type :=
| Fin (x : Z)
| Inf (negative : bool)
| NaN.

(** The unit: [Fin x] stands for [x / 2^1074]. *)
Definition unit_exp : Z := 1074.
Definition scale : Z := 2 ^ unit_exp.

(** The first integer that is too large: [2^1024], in units. *)
Definition overflow_threshold : Z := 2 ^ (1024 + unit_exp).

(** The largest finite double, [(2^53 - 1) * 2^971], in units. *)
Definition max_finite : Z := (2 ^ 53 - 1) * 2 ^ (971 + unit_exp).

(** [rhe n d]: the integer nearest to [n / d], ties to even ([0 < d]). *)
Definition rhe (n d : Z) : Z :=
  let q := n / d in
  let r := n mod d in
  if 2 * r <? d then q
  else if d <? 2 * r then q + 1
  else if Z.even q then q else q + 1.

(** [ilog2 a q]: [floor (log2 (a / q))] when that is not negative ([0 < a],
    [0 < q]); some negative number otherwise. *)
Definition ilog2 (a q : Z) : Z :=
  let k := Z.log2 a - Z.log2 q in
  if (0 <=? k) && (q * 2 ^ k <=? a) then k else k - 1.

(** The exponent, in units, of the last place of the doubles around
    [a / q] units: 53 significant bits, and never below the unit. *)
Definition ulp_exp (a q : Z) : Z := Z.max 0 (ilog2 a q - 52).

(** [rnd p q]: the double nearest to [p / q] ([0 < q]), ties to even;
    [None] when the rounded value is beyond the largest finite double. *)
Definition rnd (p q : Z) : option float :=
  if p =? 0 then Some (Fin 0)
  else
    let a := Z.abs p * scale in
    let E := ulp_exp a q in
    let M := rhe a (q * 2 ^ E) in
    let x := M * 2 ^ E in
    if overflow_threshold <=? x then None
    else Some (Fin (Z.sgn p * x)).

Definition zero : float := Fin 0.

(** [int / int]: true division of two Python ints, correctly rounded. *)
Definition truediv (a b : Z) : Exc float :=
  if b =? 0 then Raise (ZeroDivisionError "division by zero")
  else
    match (if b <? 0 then rnd (- a) (- b) else rnd a b) with
    | Some x => Ok x
    | None => Raise (OverflowError "integer division result too large for a float")
    end.

(** [float(n)] for a Python int. *)
Definition of_int (n : Z) : Exc float :=
  match rnd n 1 with
  | Some x => Ok x
  | None => Raise (OverflowError "int too large to convert to float")
  end.

(** [int(x)]: truncation towards zero. *)
Definition to_int (x : float) : Exc Z :=
  match x with
  | Fin x => Ok (Z.quot x scale)
  | Inf _ => Raise (OverflowError "cannot convert float infinity to integer")
  | NaN => Raise (ValueError "cannot convert float NaN to integer")
  end.

(** [x + y] on floats; overflow gives an infinity, never an exception. *)
Definition add (x y : float) : float :=
  match x, y with
  | NaN, _ | _, NaN => NaN
  | Inf s, Inf t => if Bool.eqb s t then Inf s else NaN
  | Inf s, _ | _, Inf s => Inf s
  | Fin x, Fin y => default (Inf (x + y <? 0)) (rnd (x + y) scale)
  end.

(** [1000 * x] rounded to an integer, ties to even, for finite [x]. *)
Definition thousandths (x : Z) : Z := rhe (1000 * x) scale.

(** The double nearest to the decimal [n / 1000]. *)
Definition of_thousandths (n : Z) : option float := rnd n 1000.

(** [round(x, 3)]: the exact binary value of [x] is rounded to three decimal
    places (ties to even) and the decimal is converted back to the nearest
    double; infinities and NaN round to themselves. *)
Definition round3 (x : float) : Exc float :=
  match x with
  | Fin x =>
      match of_thousandths (thousandths x) with
      | Some y => Ok y
      | None => Raise (OverflowError "rounded value too large to represent")
      end
  | _ => Ok x
  end.

End PyFloat.

(** ** The numeric stat calculator ([app/utils/stat_calculators.py]) *)

Record derived_stats : Type := mk_derived {
  d_singles : Z;
  d_PA : Z;
  d_TB : Z;
  d_AVG : PyFloat.float;
  d_OBP : PyFloat.float;
  d_SLG : PyFloat.float;
  d_OPS : PyFloat.float
}.

(** [round(a / b, 3) if b > 0 else 0.0] *)
Definition guarded_rate (a b : Z) : Exc PyFloat.float :=
  if 0 <? b then
    x ← PyFloat.truediv a b; PyFloat.round3 x
  else Ok PyFloat.zero.

Definition compute_derived_stats_from_raw
    (ab h double triple hr bb hbp sf sh : Z) : Exc derived_stats :=
  let singles := h - double - triple - hr in
  let pa := ab + bb + hbp + sf + sh in
  let tb := singles + 2 * double + 3 * triple + 4 * hr in
  avg ← guarded_rate h ab;
  let obp_denom := ab + bb + hbp + sf in
  obp ← guarded_rate (h + bb + hbp) obp_denom;
  slg ← guarded_rate tb ab;
  ops ← PyFloat.round3 (PyFloat.add obp slg);
  Ok (mk_derived singles pa tb avg obp slg ops).

(** ** Python strings

    A [str] is modelled by a [string] whose characters are the code points
    U+0000 to U+00FF (the route decodes the upload as UTF-8 and falls back to
    Latin-1).  The character classes below are Python's, restricted to that
    range. *)

Module PyStr.

Definition code (c : ascii) : Z := Z.of_N (Ascii.N_of_ascii c).

Definition chr (n : Z) : ascii := Ascii.ascii_of_N (Z.to_N n).

(** [c.isspace()] *)
Definition isspace (c : ascii) : bool :=
  let n := code c in
  ((9 <=? n) && (n <=? 13)) || ((28 <=? n) && (n <=? 32))
  || (n =? 133) || (n =? 160).

(** [c.isdigit()]: the ASCII digits and the superscripts 1, 2, 3. *)
Definition isdigit (c : ascii) : bool :=
  let n := code c in
  ((48 <=? n) && (n <=? 57)) || (n =? 178) || (n =? 179) || (n =? 185).

(** A decimal digit, as [\d] and [float()] understand it. *)
Definition isdecimal (c : ascii) : bool :=
  let n := code c in (48 <=? n) && (n <=? 57).

Definition lower_char (c : ascii) : ascii :=
  let n := code c in
  if ((65 <=? n) && (n <=? 90))
     || ((192 <=? n) && (n <=? 222) && negb (n =? 215))
  then chr (n + 32) else c.

(** [s.lower()] *)
Fixpoint lower (s : string) : string :=
  match s with
  | EmptyString => EmptyString
  | String c s' => String (lower_char c) (lower s')
  end.

Fixpoint lstrip_by (P : ascii -> bool) (s : string) : string :=
  match s with
  | EmptyString => EmptyString
  | String c s' => if P c then lstrip_by P s' else s
  end.

Fixpoint rstrip_by (P : ascii -> bool) (s : string) : string :=
  match s with
  | EmptyString => EmptyString
  | String c s' =>
      match rstrip_by P s' with
      | EmptyString => if P c then EmptyString else String c EmptyString
      | r => String c r
      end
  end.

Definition strip_by (P : ascii -> bool) (s : string) : string :=
  rstrip_by P (lstrip_by P s).

(** [s.strip()] *)
Definition strip (s : string) : string := strip_by isspace s.

(** [s.strip(c)] for a one-character argument. *)
Definition strip_char (c : ascii) (s : string) : string :=
  strip_by (fun x => bool_decide (x = c)) s.

(** [needle in s] *)
Fixpoint contains (needle s : string) : bool :=
  String.prefix needle s
  || match s with
     | EmptyString => false
     | String _ s' => contains needle s'
     end.

(** [any(P(c) for c in s)] *)
Fixpoint any_char (P : ascii -> bool) (s : string) : bool :=
  match s with
  | EmptyString => false
  | String c s' => P c || any_char P s'
  end.

(** [s.split(sep)] for a one-character separator: never empty. *)
Fixpoint split (sep : ascii) (s : string) : list string :=
  match s with
  | EmptyString => [EmptyString]
  | String c s' =>
      if bool_decide (c = sep) then EmptyString :: split sep s'
      else match split sep s' with
           | [] => [String c EmptyString]
           | w :: ws => String c w :: ws
           end
  end.

(** [s.replace(c, empty)]: every occurrence of [c] removed. *)
Fixpoint remove_char (c : ascii) (s : string) : string :=
  match s with
  | EmptyString => EmptyString
  | String x s' =>
      if bool_decide (x = c) then remove_char c s' else String x (remove_char c s')
  end.

(** [s.isdigit()]: non-empty and every character a digit. *)
Definition str_isdigit (s : string) : bool :=
  negb (bool_decide (s = EmptyString)) && negb (any_char (fun c => negb (isdigit c)) s).

(** A line boundary of [str.splitlines]: LF, VT, FF, CR, FS, GS, RS, NEL. *)
Definition islinebreak (c : ascii) : bool :=
  let n := code c in
  ((10 <=? n) && (n <=? 13)) || ((28 <=? n) && (n <=? 30)) || (n =? 133).

(** [splitlines_aux after_cr cur s]: the lines of [s], where [cur] holds
    (reversed) the characters of the line being read and [after_cr] tells
    that the previous character was a CR, so that CR LF is one boundary.  A
    boundary at the very end opens no empty last line. *)
Fixpoint splitlines_aux (after_cr : bool) (cur : string) (s : string)
    : list string :=
  match s with
  | EmptyString =>
      match cur with
      | EmptyString => []
      | _ => [String.rev cur]
      end
  | String c s' =>
      if after_cr && (code c =? 10) then splitlines_aux false cur s'
      else if islinebreak c then
        String.rev cur :: splitlines_aux (code c =? 13) EmptyString s'
      else splitlines_aux false (String c cur) s'
  end.

(** [s.splitlines()] *)
Definition splitlines (s : string) : list string :=
  splitlines_aux false EmptyString s.

End PyStr.

(** ** Reading numbers out of strings *)

Module PyParse.
Import PyStr.

Definition digit_value (c : ascii) : Z := code c - 48.

(** The rest of a [digitpart] after a digit: digits, each optionally
    preceded by one underscore.  [acc] is the number read so far and [n] the
    count of its digits. *)
Fixpoint digits_tail (acc n : Z) (s : string) : Z * Z * string :=
  match s with
  | String c s' =>
      if isdecimal c then digits_tail (10 * acc + digit_value c) (n + 1) s'
      else if bool_decide (c = "_"%char) then
        match s' with
        | String c' s'' =>
            if isdecimal c' then
              digits_tail (10 * acc + digit_value c') (n + 1) s''
            else (acc, n, s)
        | EmptyString => (acc, n, s)
        end
      else (acc, n, s)
  | EmptyString => (acc, n, s)
  end.

(** A [digitpart] continuing the number [acc]. *)
Definition digitpart (acc : Z) (s : string) : option (Z * Z * string) :=
  match s with
  | String c s' =>
      if isdecimal c then Some (digits_tail (10 * acc + digit_value c) 1 s')
      else None
  | EmptyString => None
  end.

Definition read_sign (s : string) : bool * string :=
  match s with
  | String c s' =>
      if bool_decide (c = "-"%char) then (true, s')
      else if bool_decide (c = "+"%char) then (false, s')
      else (false, s)
  | EmptyString => (false, s)
  end.

(** [number]: the digits of the integer and fraction parts as one integer,
    and the number of fraction digits. *)
Definition read_number (s : string) : option (Z * Z * string) :=
  match s with
  | String c s' =>
      if bool_decide (c = "."%char) then digitpart 0 s'
      else
        '(i, _, r) ← digitpart 0 s;
        match r with
        | String c1 r1 =>
            if bool_decide (c1 = "."%char) then
              match digitpart i r1 with
              | Some x => Some x
              | None => Some (i, 0, r1)
              end
            else Some (i, 0, r)
        | EmptyString => Some (i, 0, r)
        end
  | EmptyString => None
  end.

Definition read_exponent (s : string) : option (Z * string) :=
  match s with
  | String c s' =>
      if bool_decide (c = "e"%char) || bool_decide (c = "E"%char) then
        let '(neg, s1) := read_sign s' in
        '(x, _, r) ← digitpart 0 s1;
        Some (if neg : bool then - x else x, r)
      else Some (0, s)
  | EmptyString => Some (0, s)
  end.

(** [float(s)] for a string: [None] is a [ValueError].  A value too large
    for a double is an infinity. *)
Definition float_of_string (s : string) : option PyFloat.float :=
  let '(neg, s1) := read_sign (strip s) in
  let l := lower s1 in
  if bool_decide (l = "inf") || bool_decide (l = "infinity") then
    Some (PyFloat.Inf neg)
  else if bool_decide (l = "nan") then Some PyFloat.NaN
  else
    '(digits, nfrac, r) ← read_number s1;
    '(x, r') ← read_exponent r;
    if bool_decide (r' = EmptyString) then
      let n := if neg then - digits else digits in
      let e := x - nfrac in
      Some (default (PyFloat.Inf neg)
              (if 0 <=? e then PyFloat.rnd (n * 10 ^ e) 1
               else PyFloat.rnd n (10 ^ (- e))))
    else None.

(** [int(float(s))] *)
Definition int_of_float_string (s : string) : Exc Z :=
  match float_of_string s with
  | Some x => PyFloat.to_int x
  | None => Raise (ValueError "could not convert string to float")
  end.

Fixpoint span (P : ascii -> bool) (s : string) : string * string :=
  match s with
  | String c s' =>
      if P c then let '(a, b) := span P s' in (String c a, b)
      else (EmptyString, s)
  | EmptyString => (EmptyString, EmptyString)
  end.

(** A match of [-?\d+\.?\d*] at the start of [s]. *)
Definition number_prefix (s : string) : option string :=
  let '(sign, s1) :=
    match s with
    | String c s' => if bool_decide (c = "-"%char) then ("-", s') else ("", s)
    | EmptyString => ("", s)
    end in
  let '(ds, s2) := span isdecimal s1 in
  if bool_decide (ds = EmptyString) then None
  else
    match s2 with
    | String c s3 =>
        if bool_decide (c = "."%char) then
          Some (sign +:+ ds +:+ "." +:+ (span isdecimal s3).1)
        else Some (sign +:+ ds)
    | EmptyString => Some (sign +:+ ds)
    end.

(** [re.findall(r'-?\d+\.?\d*', s)[0]] when there is a match. *)
Fixpoint first_number (s : string) : option string :=
  match number_prefix s with
  | Some m => Some m
  | None =>
      match s with
      | String _ s' => first_number s'
      | EmptyString => None
      end
  end.

End PyParse.

(** ** [repr] and [str] of the values that go into messages *)

Module PyRepr.
Import PyStr.

(** [c.isprintable()] *)
Definition isprintable (c : ascii) : bool :=
  let n := code c in
  negb ((n <? 32) || ((127 <=? n) && (n <=? 160)) || (n =? 173)).

Definition hex_digit (n : Z) : ascii :=
  if n <? 10 then chr (48 + n) else chr (87 + n).

Definition repr_char (quote : ascii) (c : ascii) : string :=
  let n := code c in
  if bool_decide (c = "\"%char) then "\\"
  else if bool_decide (c = quote) then String "\"%char (String quote EmptyString)
  else if n =? 9 then "\t"
  else if n =? 10 then "\n"
  else if n =? 13 then "\r"
  else if isprintable c then String c EmptyString
  else String "\"%char (String "x"%char
         (String (hex_digit (n / 16)) (String (hex_digit (n mod 16)) EmptyString))).

Fixpoint repr_body (quote : ascii) (s : string) : string :=
  match s with
  | EmptyString => EmptyString
  | String c s' => repr_char quote c +:+ repr_body quote s'
  end.

(** [repr(s)]: single quotes, unless the string has a single quote and no
    double quote. *)
Definition repr_str (s : string) : string :=
  let quote :=
    if contains "'" s && negb (contains (String (chr 34) EmptyString) s)
    then chr 34 else "'"%char in
  String quote (repr_body quote s) +:+ String quote EmptyString.

(** [sep.join(l)] *)
Fixpoint join (sep : string) (l : list string) : string :=
  match l with
  | [] => EmptyString
  | [x] => x
  | x :: l' => x +:+ sep +:+ join sep l'
  end.

(** [repr(l)] for a list of strings. *)
Definition repr_list (l : list string) : string :=
  "[" +:+ join ", " (repr_str <$> l) +:+ "]".

(** [str(n)] for an int. *)
Definition str_int (n : Z) : string := pretty n.

Definition str_len {A : Type} (l : list A) : string :=
  str_int (Z.of_nat (List.length l)).

Definition pad2 (n : Z) : string :=
  if n <? 10 then "0" +:+ str_int n else str_int n.

Definition pad4 (n : Z) : string :=
  if n <? 10 then "000" +:+ str_int n
  else if n <? 100 then "00" +:+ str_int n
  else if n <? 1000 then "0" +:+ str_int n
  else str_int n.

Definition newline : string := String (chr 10) EmptyString.

End PyRepr.

(** ** Insertion-ordered dictionaries

    A Python [dict] keeps its keys in insertion order and assigning to an
    existing key replaces the value in place.  The entity collections of the
    store are iterated, so they are modelled by association lists with
    exactly that behaviour. *)

Module odict.
Section odict.
Context {K V : Type} `{EqDecision K}.

(** [d.get(k)] *)
Fixpoint get (k : K) (d : list (K * V)) : option V :=
  match d with
  | [] => None
  | (k', v) :: d' => if decide (k = k') then Some v else get k d'
  end.

(** [d[k] = v] *)
Fixpoint set (k : K) (v : V) (d : list (K * V)) : list (K * V) :=
  match d with
  | [] => [(k, v)]
  | (k', v') :: d' =>
      if decide (k = k') then (k, v) :: d' else (k', v') :: set k v d'
  end.

(** [k in d] *)
Definition mem (k : K) (d : list (K * V)) : bool :=
  match get k d with Some _ => true | None => false end.

Definition keys (d : list (K * V)) : list K := d.*1.
Definition values (d : list (K * V)) : list V := d.*2.
End odict.
End odict.

(** ** State with exceptions

    A computation on the store either returns or raises, and in both cases
    leaves a store behind: nothing is rolled back when an exception
    propagates. *)

Definition SE (S A : Type) : Type := S -> Exc A * S.

#[global] Instance se_ret {S : Type} : MRet (SE S) := fun A a s => (Ok a, s).
#[global] Instance se_bind {S : Type} : MBind (SE S) := fun A B f m s =>
  match m s with
  | (Ok a, s') => f a s'
  | (Raise e, s') => (Raise e, s')
  end.

Definition se_raise {S A : Type} (e : exn) : SE S A := fun s => (Raise e, s).
Definition se_lift {S A : Type} (x : Exc A) : SE S A := fun s => (x, s).
Definition se_get {S : Type} : SE S S := fun s => (Ok s, s).

(** [for x in l: f(x)] *)
Fixpoint se_for {S A : Type} (l : list A) (f : A -> SE S unit) : SE S unit :=
  match l with
  | [] => mret tt
  | x :: l' => _ ← f x; se_for l' f
  end.

(** ** Entities ([app/models]) *)

Record date : Type := mk_date { year : Z; month : Z; day : Z }.

#[global] Instance date_eq_dec : EqDecision date.
Proof. solve_decision. Defined.

(** The fourteen raw counting fields shared by [PlateAppearance] and
    [HitterTotal]. *)
Record counting : Type := mk_counting {
  c_AB : Z; c_H : Z; c_double : Z; c_triple : Z; c_HR : Z;
  c_BB : Z; c_HBP : Z; c_SF : Z; c_SH : Z; c_K : Z;
  c_R : Z; c_RBI : Z; c_SB : Z; c_CS : Z
}.

#[global] Instance counting_eq_dec : EqDecision counting.
Proof. solve_decision. Defined.

Definition counting_zero : counting :=
  mk_counting 0 0 0 0 0 0 0 0 0 0 0 0 0 0.

Definition counting_add (a b : counting) : counting :=
  mk_counting
    (c_AB a + c_AB b) (c_H a + c_H b) (c_double a + c_double b)
    (c_triple a + c_triple b) (c_HR a + c_HR b) (c_BB a + c_BB b)
    (c_HBP a + c_HBP b) (c_SF a + c_SF b) (c_SH a + c_SH b)
    (c_K a + c_K b) (c_R a + c_R b) (c_RBI a + c_RBI b)
    (c_SB a + c_SB b) (c_CS a + c_CS b).

(** A stored object is a pair of its [id], which is also its key in the
    store's dictionary, and its other fields; [created_at] and [raw_json]
    carry no behaviour and are left out. *)
Record Player : Type := mk_Player {
  p_name : string;
  p_team : string;
  p_league : option string
}.

Record Game : Type := mk_Game {
  g_league : string;
  g_season : string;
  g_date : date;
  g_home_team : string;
  g_away_team : string;
  g_home_score : Z;
  g_away_score : Z;
  g_winner : option string
}.

Record PlateAppearance : Type := mk_PA {
  pa_game_id : Z;
  pa_player_id : Z;
  pa_team : string;
  pa_stats : counting
}.

Record HitterTotal : Type := mk_HT {
  ht_player_id : Z;
  ht_league : string;
  ht_season : string;
  ht_games : Z;
  ht_stats : counting;
  ht_singles : Z;
  ht_PA : Z;
  ht_TB : Z;
  ht_AVG : PyFloat.float;
  ht_OBP : PyFloat.float;
  ht_SLG : PyFloat.float;
  ht_OPS : PyFloat.float
}.

(** [HitterTotal(player_id=.., league=.., season=..)]: every other field at
    its default. *)
Definition new_HitterTotal (player_id : Z) (league season : string)
    : HitterTotal :=
  mk_HT player_id league season 0 counting_zero 0 0 0
        PyFloat.zero PyFloat.zero PyFloat.zero PyFloat.zero.

(** [compute_derived_stats(hitter_total)] assigns the derived fields one
    after the other on the object it is given; when a division overflows the
    assignments made so far stay. *)
Definition compute_derived_stats (ht : HitterTotal)
    : HitterTotal * Exc unit :=
  let '(mk_HT pid lg se gm c _ _ _ avg0 obp0 slg0 ops0) := ht in
  let singles := c_H c - c_double c - c_triple c - c_HR c in
  let pa := c_AB c + c_BB c + c_HBP c + c_SF c + c_SH c in
  let tb := singles + 2 * c_double c + 3 * c_triple c + 4 * c_HR c in
  match guarded_rate (c_H c) (c_AB c) with
  | Raise e => (mk_HT pid lg se gm c singles pa tb avg0 obp0 slg0 ops0, Raise e)
  | Ok avg =>
  let obp_denom := c_AB c + c_BB c + c_HBP c + c_SF c in
  match guarded_rate (c_H c + c_BB c + c_HBP c) obp_denom with
  | Raise e => (mk_HT pid lg se gm c singles pa tb avg obp0 slg0 ops0, Raise e)
  | Ok obp =>
  match guarded_rate tb (c_AB c) with
  | Raise e => (mk_HT pid lg se gm c singles pa tb avg obp slg0 ops0, Raise e)
  | Ok slg =>
  match PyFloat.round3 (PyFloat.add obp slg) with
  | Raise e => (mk_HT pid lg se gm c singles pa tb avg obp slg ops0, Raise e)
  | Ok ops => (mk_HT pid lg se gm c singles pa tb avg obp slg ops, Ok tt)
  end end end end.

(** ** The entity store ([app/storage/memory_store.py]) *)

Record MemoryStore : Type := mk_store {
  _players : list (Z * Player);
  _games : list (Z * Game);
  _plate_appearances : list (Z * PlateAppearance);
  _hitter_totals : list (Z * HitterTotal);
  _player_id_counter : Z;
  _game_id_counter : Z;
  _plate_appearance_id_counter : Z;
  _hitter_total_id_counter : Z;
  _player_index : gmap (string * string) Z;
  _hitter_total_index : gmap (Z * string * string) Z
}.

(** [MemoryStore()] right after construction, and after [clear_all()]. *)
Definition empty_store : MemoryStore :=
  mk_store [] [] [] [] 0 0 0 0 ∅ ∅.

(** The key of the player index: [(name.lower().strip(), team.lower().strip())] *)
Definition player_key (name team : string) : string * string :=
  (PyStr.strip (PyStr.lower name), PyStr.strip (PyStr.lower team)).

Definition create_player (player : Player) : SE MemoryStore (Z * Player) :=
  fun s =>
    let id := _player_id_counter s + 1 in
    let key := player_key (p_name player) (p_team player) in
    (Ok (id, player),
     mk_store (odict.set id player (_players s)) (_games s)
       (_plate_appearances s) (_hitter_totals s)
       id (_game_id_counter s) (_plate_appearance_id_counter s)
       (_hitter_total_id_counter s)
       (<[key := id]> (_player_index s)) (_hitter_total_index s)).

Definition get_player (player_id : Z) (s : MemoryStore) : option Player :=
  odict.get player_id (_players s).

(** [if player_id:] holds for an id other than [0]. *)
Definition get_player_by_name_team (name team : string) (s : MemoryStore)
    : option (Z * Player) :=
  match _player_index s !! player_key name team with
  | Some player_id =>
      if player_id =? 0 then None
      else match odict.get player_id (_players s) with
           | Some p => Some (player_id, p)
           | None => None
           end
  | None => None
  end.

Definition get_all_players (s : MemoryStore) : list (Z * Player) := _players s.

Definition create_game (game : Game) : SE MemoryStore (Z * Game) :=
  fun s =>
    let id := _game_id_counter s + 1 in
    (Ok (id, game),
     mk_store (_players s) (odict.set id game (_games s))
       (_plate_appearances s) (_hitter_totals s)
       (_player_id_counter s) id (_plate_appearance_id_counter s)
       (_hitter_total_id_counter s)
       (_player_index s) (_hitter_total_index s)).

Definition get_game (game_id : Z) (s : MemoryStore) : option Game :=
  odict.get game_id (_games s).

(** [name.strip().lower()] when [name] is not empty, else the empty string. *)
Definition normalize_team (name : string) : string :=
  if bool_decide (name = EmptyString) then EmptyString
  else PyStr.lower (PyStr.strip name).

(** The test made on each stored game by [check_duplicate_game]. *)
Definition is_duplicate_of (d : date) (league season home_team away_team : string)
    (game : Game) : bool :=
  let home_normalized := normalize_team home_team in
  let away_normalized := normalize_team away_team in
  bool_decide (g_date game = d) && bool_decide (g_league game = league)
  && bool_decide (g_season game = season)
  && (let game_home := normalize_team (g_home_team game) in
      let game_away := normalize_team (g_away_team game) in
      (bool_decide (game_home = home_normalized)
       && bool_decide (game_away = away_normalized))
      || (bool_decide (game_home = away_normalized)
          && bool_decide (game_away = home_normalized))).

(** The first stored game, in insertion order, that passes the test. *)
Definition check_duplicate_game (d : date) (league season home_team away_team : string)
    (s : MemoryStore) : option (Z * Game) :=
  List.find (fun g => is_duplicate_of d league season home_team away_team g.2)
            (_games s).

Definition create_plate_appearance (plate_app : PlateAppearance)
    : SE MemoryStore (Z * PlateAppearance) :=
  fun s =>
    let id := _plate_appearance_id_counter s + 1 in
    (Ok (id, plate_app),
     mk_store (_players s) (_games s)
       (odict.set id plate_app (_plate_appearances s)) (_hitter_totals s)
       (_player_id_counter s) (_game_id_counter s) id
       (_hitter_total_id_counter s)
       (_player_index s) (_hitter_total_index s)).

Definition get_all_plate_appearances (s : MemoryStore)
    : list (Z * PlateAppearance) := _plate_appearances s.

Definition ht_key (ht : HitterTotal) : Z * string * string :=
  (ht_player_id ht, ht_league ht, ht_season ht).

Definition set_hitter_totals (hts : list (Z * HitterTotal)) (s : MemoryStore)
    : MemoryStore :=
  mk_store (_players s) (_games s) (_plate_appearances s) hts
    (_player_id_counter s) (_game_id_counter s)
    (_plate_appearance_id_counter s) (_hitter_total_id_counter s)
    (_player_index s) (_hitter_total_index s).

(** [existing_id and existing_id in self._hitter_totals]: the id the index
    gives for the key, when it is not [0] and the row is there. *)
Definition existing_hitter_total_id (key : Z * string * string)
    (s : MemoryStore) : option Z :=
  match _hitter_total_index s !! key with
  | Some id =>
      if negb (id =? 0) && odict.mem id (_hitter_totals s) then Some id
      else None
  | None => None
  end.

(** [create_or_update_hitter_total]: every field but the id is copied onto
    the existing row; without one, the object gets the next id and is stored
    and indexed. *)
Definition create_or_update_hitter_total (hitter_total : HitterTotal)
    : SE MemoryStore (Z * HitterTotal) :=
  fun s =>
    let key := ht_key hitter_total in
    match existing_hitter_total_id key s with
    | Some id =>
        (Ok (id, hitter_total),
         set_hitter_totals (odict.set id hitter_total (_hitter_totals s)) s)
    | None =>
        let id := _hitter_total_id_counter s + 1 in
        (Ok (id, hitter_total),
         mk_store (_players s) (_games s) (_plate_appearances s)
           (odict.set id hitter_total (_hitter_totals s))
           (_player_id_counter s) (_game_id_counter s)
           (_plate_appearance_id_counter s) id
           (_player_index s) (<[key := id]> (_hitter_total_index s)))
    end.

Definition get_hitter_total (player_id : Z) (league season : string)
    (s : MemoryStore) : option (Z * HitterTotal) :=
  match _hitter_total_index s !! (player_id, league, season) with
  | Some id =>
      if id =? 0 then None
      else match odict.get id (_hitter_totals s) with
           | Some ht => Some (id, ht)
           | None => None
           end
  | None => None
  end.


(** ** Recomputing hitter totals ([app/services/stats_service.py]) *)

(** The accumulator kept per player: the summed counting fields and the set
    of game ids seen. *)
Record accum : Type := mk_accum {
  acc_stats : counting;
  acc_games : gset Z
}.

Definition accum_zero : accum := mk_accum counting_zero ∅.

(** [pa.game_id in games and games[pa.game_id].league == league and
    games[pa.game_id].season == season] *)
Definition is_relevant (games : list (Z * Game)) (league season : string)
    (pa : PlateAppearance) : bool :=
  match odict.get (pa_game_id pa) games with
  | Some g => bool_decide (g_league g = league) && bool_decide (g_season g = season)
  | None => false
  end.

(** One turn of the grouping loop: the player's entry is created at zero on
    first sight, then the row is added to it and its game id recorded. *)
Definition accumulate (player_stats : list (Z * accum)) (pa : PlateAppearance)
    : list (Z * accum) :=
  let stats := default accum_zero (odict.get (pa_player_id pa) player_stats) in
  odict.set (pa_player_id pa)
    (mk_accum (counting_add (acc_stats stats) (pa_stats pa))
              ({[pa_game_id pa]} ∪ acc_games stats))
    player_stats.

(** [games] is [{g.id: g for g in store.get_games(limit=10000)}]: no filter
    is given and a limit of 10000 turns pagination off, so every stored game
    is in it under its id; the order [get_games] sorts them in is not
    observed. *)
Definition relevant_pas (league season : string) (s : MemoryStore)
    : list PlateAppearance :=
  List.filter (is_relevant (_games s) league season)
              (odict.values (get_all_plate_appearances s)).

Definition group_by_player (pas : list PlateAppearance) : list (Z * accum) :=
  fold_left accumulate pas [].

(** The assignments [hitter_total.games = len(stats['games'])] and
    [hitter_total.AB = stats['AB']] ... on the object. *)
Definition assign_stats (stats : accum) (ht : HitterTotal) : HitterTotal :=
  mk_HT (ht_player_id ht) (ht_league ht) (ht_season ht)
    (Z.of_nat (size (acc_games stats))) (acc_stats stats)
    (ht_singles ht) (ht_PA ht) (ht_TB ht)
    (ht_AVG ht) (ht_OBP ht) (ht_SLG ht) (ht_OPS ht).

(** The object held in [hitter_total] is either the stored row itself
    ([Some id]: assignments to it are assignments to the row) or a new
    object that is not in the store yet ([None]). *)
Definition write_back (loc : option Z) (ht : HitterTotal) (s : MemoryStore)
    : MemoryStore :=
  match loc with
  | Some id => set_hitter_totals (odict.set id ht (_hitter_totals s)) s
  | None => s
  end.

(** The body of the loop over [player_stats.items()]. *)
Definition recompute_player (league season : string) (entry : Z * accum)
    : SE MemoryStore unit :=
  fun s =>
    let '(player_id, stats) := entry in
    let '(loc, ht0) :=
      match get_hitter_total player_id league season s with
      | Some (id, ht) => (Some id, ht)
      | None => (None, new_HitterTotal player_id league season)
      end in
    let ht1 := assign_stats stats ht0 in
    let '(ht2, r) := compute_derived_stats ht1 in
    let s2 := write_back loc ht2 s in
    match r with
    | Raise e => (Raise e, s2)
    | Ok _ =>
        match create_or_update_hitter_total ht2 s2 with
        | (Ok _, s3) => (Ok tt, s3)
        | (Raise e, s3) => (Raise e, s3)
        end
    end.

Definition recompute_hitter_totals (league season : string)
    : SE MemoryStore unit :=
  fun s =>
    let player_stats := group_by_player (relevant_pas league season s) in
    se_for player_stats (recompute_player league season) s.

(** *** What a recompute is expected to store *)

Definition derived_of (c : counting) : Exc derived_stats :=
  compute_derived_stats_from_raw (c_AB c) (c_H c) (c_double c) (c_triple c)
    (c_HR c) (c_BB c) (c_HBP c) (c_SF c) (c_SH c).

(** A row with its derived fields replaced. *)
Definition with_derived (ht : HitterTotal) (d : derived_stats) : HitterTotal :=
  mk_HT (ht_player_id ht) (ht_league ht) (ht_season ht) (ht_games ht)
    (ht_stats ht) (d_singles d) (d_PA d) (d_TB d)
    (d_AVG d) (d_OBP d) (d_SLG d) (d_OPS d).

(** The row of a player whose accumulator is [a]. *)
Definition fresh_total (player_id : Z) (league season : string) (a : accum)
    : Exc HitterTotal :=
  d ← derived_of (acc_stats a);
  Ok (mk_HT player_id league season (Z.of_nat (size (acc_games a)))
        (acc_stats a) (d_singles d) (d_PA d) (d_TB d)
        (d_AVG d) (d_OBP d) (d_SLG d) (d_OPS d)).

(** The plate appearances of one player among [pas], in order. *)
Definition player_rows (player_id : Z) (pas : list PlateAppearance)
    : list PlateAppearance :=
  List.filter (fun pa => bool_decide (pa_player_id pa = player_id)) pas.

Definition accum_add (a : accum) (pa : PlateAppearance) : accum :=
  mk_accum (counting_add (acc_stats a) (pa_stats pa))
           ({[pa_game_id pa]} ∪ acc_games a).

(** The fold of one player's plate appearances. *)
Definition fold_player (player_id : Z) (pas : list PlateAppearance) : accum :=
  fold_left accum_add (player_rows player_id pas) accum_zero.

(** Consistency of the hitter-total index with the rows: ids are positive
    and at most the counter, an index entry leads to a row with that key,
    and every row is indexed under its key.  It holds in the empty store and
    every operation keeps it; under it no row is ever reachable under two
    ids, so that modelling rows by value loses nothing. *)
Definition ht_wf (s : MemoryStore) : Prop :=
  0 <= _hitter_total_id_counter s
  /\ (forall key id, _hitter_total_index s !! key = Some id ->
        0 < id /\ exists ht, odict.get id (_hitter_totals s) = Some ht
                             /\ ht_key ht = key)
  /\ (forall id ht, odict.get id (_hitter_totals s) = Some ht ->
        id <= _hitter_total_id_counter s
        /\ _hitter_total_index s !! ht_key ht = Some id).

(** Everything but the hitter totals. *)
Definition same_entities (s s' : MemoryStore) : Prop :=
  _players s' = _players s /\ _games s' = _games s
  /\ _plate_appearances s' = _plate_appearances s
  /\ _player_id_counter s' = _player_id_counter s
  /\ _game_id_counter s' = _game_id_counter s
  /\ _plate_appearance_id_counter s' = _plate_appearance_id_counter s
  /\ _player_index s' = _player_index s.

(** *** Example stores *)

Definition demo_date : date := mk_date 2024 1 15.

(** Two games of league "L", season "2024"; player 7 bats once in each,
    player 8 has two rows in the second game. *)
Definition demo_store : MemoryStore :=
  snd ((_ ← create_game (mk_Game "L" "2024" demo_date "Hawks" "Owls" 3 2 (Some "Hawks"));
   _ ← create_game (mk_Game "L" "2024" (mk_date 2024 1 22) "Owls" "Hawks" 1 1 None);
   _ ← create_plate_appearance
         (mk_PA 1 7 "Hawks" (mk_counting 4 2 1 0 0 1 0 0 0 1 1 2 0 0));
   _ ← create_plate_appearance
         (mk_PA 2 7 "Hawks" (mk_counting 3 1 0 0 1 0 0 0 0 1 1 1 0 0));
   _ ← create_plate_appearance
         (mk_PA 2 8 "Owls" (mk_counting 2 1 0 0 0 0 0 0 0 0 0 0 0 0));
   create_plate_appearance
         (mk_PA 2 8 "Owls" (mk_counting 2 0 0 0 0 1 0 0 0 1 1 0 0 0)))
    empty_store).

(** A store whose only content is a hitter total of player 7 for league "L",
    season "2024", put there through [create_or_update_hitter_total]; no
    plate appearance backs it. *)
Definition stale_row : HitterTotal :=
  mk_HT 7 "L" "2024" 3 (mk_counting 10 4 1 0 0 1 0 0 0 2 2 3 0 0)
        3 11 5 PyFloat.zero PyFloat.zero PyFloat.zero PyFloat.zero.

Definition stale_store : MemoryStore :=
  (create_or_update_hitter_total stale_row empty_store).2.

(** ** CSV ingestion ([app/services/ingest_service.py]) *)

(** *** Lenient integer coercion *)

(** [_safe_int(value)] for a string.  [ValueError] from the direct
    conversion leads to the search for a first number; [OverflowError]
    (an infinite value) is caught nowhere and propagates. *)
Definition safe_int_str (value : string) : Exc Z :=
  let str_value :=
    PyStr.strip_char "'" (PyStr.strip_char (PyStr.chr 34) (PyStr.strip value)) in
  if bool_decide (str_value = EmptyString)
     || bool_decide (PyStr.lower str_value = "nan")
  then Ok 0
  else
    match PyParse.int_of_float_string str_value with
    | Ok n => Ok n
    | Raise (ValueError _) =>
        match PyParse.first_number str_value with
        | Some number =>
            match PyParse.int_of_float_string number with
            | Ok n => Ok n
            | Raise (ValueError _) => Ok 0
            | Raise e => Raise e
            end
        | None => Ok 0
        end
    | Raise e => Raise e
    end.

(** [self._safe_int(values[i] if len(values) > i else 0)]: the literal [0]
    of a missing field is returned as it is. *)
Definition safe_int_field (values : list string) (i : nat) : Exc Z :=
  match values !! i with
  | Some v => safe_int_str v
  | None => Ok 0
  end.

(** *** The sectioned (HitTrax) layout *)

(** A parsed player row: the dictionary with keys [player_name], [team],
    [ab], [r], [h], [doubles], [triples], [hr], [rbi], [so], [bb], [hbp],
    [sf], [sh], [sb], [cs]; the numbers are kept in a [counting] record
    ([so] is [c_K], [doubles] is [c_double], [triples] is [c_triple]). *)
Record player_stats : Type := mk_player_stats {
  ps_player_name : string;
  ps_team : string;
  ps_stats : counting
}.

(** ['Batting Order' in line or 'batting order' in line.lower()] *)
Definition has_batting_order (line : string) : bool :=
  PyStr.contains "Batting Order" line
  || PyStr.contains "batting order" (PyStr.lower line).

(** A field with white space stripped, then double quotes, then single
    quotes. *)
Definition clean_value (v : string) : string :=
  PyStr.strip_char "'" (PyStr.strip_char (PyStr.chr 34) (PyStr.strip v)).

(** A line with one of the label words and no digit. *)
Definition looks_like_labels (line : string) : bool :=
  let lower_line := PyStr.lower line in
  existsb (fun header => PyStr.contains header lower_line)
          ["player"; "name"; "ab"; "avg"; "slg"]
  && negb (PyStr.any_char PyStr.isdigit line).

(** The dictionary built in the [try] block of the section parser. *)
Definition hittrax_row (values : list string) (team_name : string)
    : Exc player_stats :=
  ab ← safe_int_field values 2;
  r ← safe_int_field values 3;
  h ← safe_int_field values 4;
  doubles ← safe_int_field values 6;
  triples ← safe_int_field values 7;
  hr ← safe_int_field values 8;
  rbi ← safe_int_field values 9;
  so ← safe_int_field values 11;
  bb ← safe_int_field values 13;
  Ok (mk_player_stats (PyStr.strip (default EmptyString (values !! 0%nat)))
        team_name
        (mk_counting ab h doubles triples hr bb 0 0 0 so r rbi 0 0)).

(** [player_name and player_name != 'Unknown' and (ab > 0 or h > 0 or r > 0)] *)
Definition row_is_kept (p : player_stats) : bool :=
  negb (bool_decide (ps_player_name p = EmptyString))
  && negb (bool_decide (ps_player_name p = "Unknown"))
  && ((0 <? c_AB (ps_stats p)) || (0 <? c_H (ps_stats p))
      || (0 <? c_R (ps_stats p))).

(** What one line of a section contributes: nothing when it is skipped, a
    row when it is kept. *)
Definition parse_hittrax_line (team_name : string) (line : string)
    : Exc (option player_stats) :=
  if bool_decide (PyStr.strip line = EmptyString) then Ok None
  else if has_batting_order line then Ok None
  else if looks_like_labels line then Ok None
  else
    let values := clean_value <$> PyStr.split "," line in
    if (List.length values <? 10)%nat then Ok None
    else
      let first := default EmptyString (values !! 0%nat) in
      if bool_decide (first = EmptyString)
         || bool_decide (PyStr.lower first ∈ ["player"; "name"; "team"; "batting order"])
      then Ok None
      else
        match hittrax_row values team_name with
        | Ok p => Ok (if row_is_kept p then Some p else None)
        | Raise (ValueError _) => Ok None
        | Raise e => Raise e
        end.

(** [_parse_hittrax_team_section(lines, team_name)] *)
Fixpoint _parse_hittrax_team_section (lines : list string) (team_name : string)
    : Exc (list player_stats) :=
  match lines with
  | [] => Ok []
  | line :: lines' =>
      o ← parse_hittrax_line team_name line;
      players ← _parse_hittrax_team_section lines' team_name;
      Ok (match o with Some p => p :: players | None => players end)
  end.

(** The first field of a header line: stripped of white space, of double
    quotes, of single quotes and of white space again. *)
Definition header_team_name (line : string) : string :=
  PyStr.strip
    (PyStr.strip_char "'"
       (PyStr.strip_char (PyStr.chr 34)
          (PyStr.strip (default EmptyString (PyStr.split "," line !! 0%nat))))).

(** The team headers of the file: each line with the marker whose first
    field is a name, with its index. *)
Fixpoint find_headers (i : nat) (lines : list string) : list (string * nat) :=
  match lines with
  | [] => []
  | line :: lines' =>
      let rest := find_headers (S i) lines' in
      if has_batting_order line then
        let team_name := header_team_name line in
        if negb (bool_decide (team_name = EmptyString))
           && negb (bool_decide (PyStr.lower team_name = "batting order"))
        then (team_name, i) :: rest else rest
      else rest
  end.

(** The alternative method: a line among the first fifty whose first field
    looks like a name and whose next line has a comma and a digit. *)
Definition potential_team (teams : list string) (lines : list string)
    (i : nat) (line : string) : option (nat * string) :=
  if negb (bool_decide (PyStr.strip line = EmptyString))
     && PyStr.contains "," line then
    let first_col :=
      PyStr.strip_char "'"
        (PyStr.strip_char (PyStr.chr 34)
           (PyStr.strip (default EmptyString (PyStr.split "," line !! 0%nat)))) in
    if negb (bool_decide (first_col = EmptyString))
       && (2 <? String.length first_col)%nat
       && (String.length first_col <? 50)%nat
       && negb (PyStr.str_isdigit (PyStr.remove_char " " first_col))
       && negb (bool_decide (PyStr.lower first_col
                             ∈ ["player"; "name"; "batting order"; "team"]))
    then
      match lines !! S i with
      | Some next_line =>
          if PyStr.contains "," next_line
             && PyStr.any_char PyStr.isdigit next_line
             && negb (bool_decide (first_col ∈ teams))
          then Some (i, first_col) else None
      | None => None
      end
    else None
  else None.

Definition potential_teams (teams : list string) (lines : list string)
    : list (nat * string) :=
  omap (fun '(i, line) => potential_team teams lines i line)
       (imap (fun i line => (i, line)) (take 50 lines)).

(** [lines[start:stop]] for indices that are not negative. *)
Definition slice {A : Type} (start stop : nat) (l : list A) : list A :=
  take (stop - start) (drop start l).

Record team_data : Type := mk_team_data {
  team1_name : string;
  team2_name : string;
  team1_players : list player_stats;
  team2_players : list player_stats;
  team1_runs : Z;
  team2_runs : Z;
  winner : option string
}.

(** [sum(player['r'] for player in players)] *)
Definition sum_runs (players : list player_stats) : Z :=
  foldr (fun p acc => c_R (ps_stats p) + acc) 0 players.

Definition decide_winner (name1 name2 : string) (runs1 runs2 : Z)
    : option string :=
  if runs2 <? runs1 then Some name1
  else if runs1 <? runs2 then Some name2
  else None.

(** The teams and header indices that the two methods settle on. *)
Definition settle_teams (lines : list string) : list (string * nat) :=
  let headers := find_headers 0 lines in
  if (List.length headers <? 2)%nat then
    let potential := potential_teams headers.*1 lines in
    if (2 <=? List.length potential)%nat then
      (fun '(i, t) => (t, i)) <$> take 2 potential
    else
      match potential, headers with
      | [(i, t)], [_] => headers ++ [(t, i)]
      | _, _ => headers
      end
  else headers.

Definition too_few_teams_message (teams : list string) (lines : list string)
    : string :=
  "CSV must contain exactly 2 teams in HitTrax format. "
  +:+ "Found " +:+ PyRepr.str_len teams +:+ " team(s): "
  +:+ PyRepr.repr_list teams +:+ PyRepr.newline
  +:+ "Please ensure your CSV has two team header rows containing 'Batting Order'."
  +:+ PyRepr.newline
  +:+ "First 10 lines of CSV:" +:+ PyRepr.newline
  +:+ PyRepr.join PyRepr.newline (take 10 lines).

Definition no_players_message (name1 name2 : string)
    (players1 players2 : list player_stats) : string :=
  "Failed to parse player data. "
  +:+ "Team 1 (" +:+ name1 +:+ "): " +:+ PyRepr.str_len players1 +:+ " players, "
  +:+ "Team 2 (" +:+ name2 +:+ "): " +:+ PyRepr.str_len players2 +:+ " players. "
  +:+ "Make sure your CSV has player rows with stats after each team header.".

(** [_detect_teams_from_hittrax_format(text)] *)
Definition _detect_teams_from_hittrax_format (text : string) : Exc team_data :=
  let lines := PyStr.splitlines text in
  match settle_teams lines with
  | (name1, section1) :: (name2, section2) :: _ =>
      let team1_lines := slice (S section1) section2 lines in
      players1 ← _parse_hittrax_team_section team1_lines name1;
      let team2_lines := drop (S section2) lines in
      players2 ← _parse_hittrax_team_section team2_lines name2;
      if (List.length players1 =? 0)%nat || (List.length players2 =? 0)%nat then
        Raise (ValueError (no_players_message name1 name2 players1 players2))
      else
        let runs1 := sum_runs players1 in
        let runs2 := sum_runs players2 in
        Ok (mk_team_data name1 name2 players1 players2 runs1 runs2
              (decide_winner name1 name2 runs1 runs2))
  | teams => Raise (ValueError (too_few_teams_message teams.*1 lines))
  end.

(** *** Tables read by pandas

    [pd.read_csv] and the arithmetic of pandas columns belong to a library
    and are not modelled: they are parameters of the development.  A table is
    the list of its column names and the list of its rows; a cell is the
    Python object that a row of a table with text columns holds.  Column
    names are taken to be distinct. *)

Inductive cell : Type :=
| CNaN
| CStr (s : string)
| CInt (n : Z)
| CFloat (x : PyFloat.float).

Record DataFrame : Type := mk_df {
  df_columns : list string;
  df_rows : list (list cell)
}.

(** [pd.DataFrame()] *)
Definition empty_df : DataFrame := mk_df [] [].

Fixpoint index_of (name : string) (columns : list string) : option nat :=
  match columns with
  | [] => None
  | c :: columns' =>
      if bool_decide (c = name) then Some 0%nat
      else S <$> index_of name columns'
  end.

(** [name in df.columns] *)
Definition has_column (name : string) (df : DataFrame) : bool :=
  bool_decide (name ∈ df_columns df).

(** [row.get(name)] *)
Definition row_get (df : DataFrame) (row : list cell) (name : string)
    : option cell :=
  i ← index_of name (df_columns df); row !! i.

(** [df[name]] as the list of its cells. *)
Definition column (name : string) (df : DataFrame) : list cell :=
  (fun row => default CNaN (row_get df row name)) <$> df_rows df.

(** [_normalize_column_name(col)] *)
Definition _normalize_column_name (col : string) : string :=
  let col_lower := PyStr.strip (PyStr.lower col) in
  if bool_decide (col_lower ∈ ["player"; "name"; "player name"; "player_name";
                               "batter"; "hitter"]) then "player"
  else if bool_decide (col_lower ∈ ["team"; "team name"; "team_name"]) then "team"
  else if bool_decide (col_lower ∈ ["ab"; "at bats"; "at-bats"; "at_bats"]) then "ab"
  else if bool_decide (col_lower ∈ ["h"; "hits"; "hit"]) then "h"
  else if bool_decide (col_lower ∈ ["2b"; "double"; "doubles"; "2 b"]) then "doubles"
  else if bool_decide (col_lower ∈ ["3b"; "triple"; "triples"; "3 b"]) then "triples"
  else if bool_decide (col_lower ∈ ["hr"; "home runs"; "homeruns"; "home_run";
                                    "homer"]) then "hr"
  else if bool_decide (col_lower ∈ ["rbi"; "runs batted in"; "runs_batted_in"])
  then "rbi"
  else if bool_decide (col_lower ∈ ["bb"; "walks"; "walk"; "base on balls"])
  then "bb"
  else if bool_decide (col_lower ∈ ["so"; "k"; "strikeouts"; "strikeout";
                                    "strike outs"]) then "so"
  else if bool_decide (col_lower ∈ ["r"; "runs"; "run"]) then "r"
  else if bool_decide (col_lower ∈ ["hbp"; "hit by pitch"; "hit_by_pitch"])
  then "hbp"
  else if bool_decide (col_lower ∈ ["sf"; "sacrifice fly"; "sac_fly"]) then "sf"
  else if bool_decide (col_lower ∈ ["sh"; "sacrifice hit"; "sacrifice bunt";
                                    "sac_bunt"]) then "sh"
  else if bool_decide (col_lower ∈ ["sb"; "stolen bases"; "stolen_base"]) then "sb"
  else if bool_decide (col_lower ∈ ["cs"; "caught stealing"; "caught_stealing"])
  then "cs"
  else col_lower.

(** The column names stripped, then renamed by [_normalize_column_name]. *)
Definition normalize_columns (df : DataFrame) : DataFrame :=
  mk_df ((fun col => _normalize_column_name (PyStr.strip col)) <$> df_columns df)
        (df_rows df).

(** The values of a list in the order of their first occurrence:
    [Series.unique()]. *)
Fixpoint unique (l : list string) : list string :=
  match l with
  | [] => []
  | x :: l' => x :: List.filter (fun y => negb (bool_decide (y = x))) (unique l')
  end.

(** [_safe_int(value)] for the object of a cell. *)
Definition safe_int_cell (value : cell) : Exc Z :=
  match value with
  | CNaN => Ok 0
  | CInt n => Ok n
  | CFloat x =>
      match PyFloat.to_int x with
      | Ok n => Ok n
      | Raise _ => Ok 0
      end
  | CStr s => safe_int_str s
  end.

Section Pandas.

(** [pd.read_csv(io.StringIO(text))] *)
Variable read_csv : string -> Exc DataFrame.
(** [str(x)] for a float. *)
Variable float_str : PyFloat.float -> string.
(** [int(col.fillna(0).astype(float).sum())] *)
Variable column_total : list cell -> Exc Z.

(** [str(value)], which is also what [astype(str)] puts in a column. *)
Definition cell_str (c : cell) : string :=
  match c with
  | CNaN => "nan"
  | CStr s => s
  | CInt n => PyRepr.str_int n
  | CFloat x => float_str x
  end.

(** [df['team'].astype(str).str.strip()] for one row. *)
Definition team_of_row (df : DataFrame) (row : list cell) : string :=
  PyStr.strip (cell_str (default CNaN (row_get df row "team"))).

(** [df['team'].dropna().astype(str).str.strip().unique().tolist()] *)
Definition team_values (df : DataFrame) : list string :=
  unique ((fun c => PyStr.strip (cell_str c))
            <$> List.filter (fun c => match c with CNaN => false | _ => true end)
                            (column "team" df)).

(** [df[df['team'].astype(str).str.strip() == name]] *)
Definition rows_of_team (name : string) (df : DataFrame) : DataFrame :=
  mk_df (df_columns df)
        (List.filter (fun row => bool_decide (team_of_row df row = name))
                     (df_rows df)).

(** [int(df['r'].fillna(0).astype(float).sum()) if 'r' in df.columns else 0] *)
Definition runs_of (df : DataFrame) : Exc Z :=
  if has_column "r" df then column_total (column "r" df) else Ok 0.

Record csv_team_data : Type := mk_csv_team_data {
  csv_team1_name : string;
  csv_team2_name : string;
  csv_team1_df : DataFrame;
  csv_team2_df : DataFrame;
  csv_team1_runs : Z;
  csv_team2_runs : Z;
  csv_winner : option string
}.

Definition no_team_column_message : string :=
  "CSV must contain a 'Team' column for automatic team detection, "
  +:+ "or be in HitTrax format with team names as header rows containing 'Batting Order'.".

Definition fewer_than_two_message (unique_teams : list string) : string :=
  "CSV must contain exactly 2 teams. Found " +:+ PyRepr.str_len unique_teams
  +:+ " team(s): " +:+ PyRepr.repr_list unique_teams +:+ ". "
  +:+ "Please ensure the CSV has a 'Team' column with exactly 2 different team names.".

Definition more_than_two_message (unique_teams : list string) : string :=
  "CSV must contain exactly 2 teams. Found " +:+ PyRepr.str_len unique_teams
  +:+ " teams: " +:+ PyRepr.repr_list unique_teams +:+ ". "
  +:+ "Please split the CSV or ensure only 2 teams are present.".

(** The distinct team values that count: not empty and not "nan". *)
Definition distinct_teams (df : DataFrame) : list string :=
  List.filter (fun t => negb (bool_decide (t = EmptyString))
                        && negb (bool_decide (PyStr.lower t = "nan")))
              (team_values df).

(** [_detect_teams_from_csv(df)] *)
Definition _detect_teams_from_csv (df : DataFrame) : Exc csv_team_data :=
  if negb (has_column "team" df) then Raise (ValueError no_team_column_message)
  else
    let unique_teams := distinct_teams df in
    match unique_teams with
    | [] | [_] => Raise (ValueError (fewer_than_two_message unique_teams))
    | [t1; t2] =>
        let team1_name := PyStr.strip t1 in
        let team2_name := PyStr.strip t2 in
        let team1_df := rows_of_team team1_name df in
        let team2_df := rows_of_team team2_name df in
        team1_runs ← runs_of team1_df;
        team2_runs ← runs_of team2_df;
        Ok (mk_csv_team_data team1_name team2_name team1_df team2_df
              team1_runs team2_runs
              (decide_winner team1_name team2_name team1_runs team2_runs))
    | _ => Raise (ValueError (more_than_two_message unique_teams))
    end.

(** [_parse_player_row(row, team)] *)
Definition _parse_player_row (df : DataFrame) (row : list cell) (team : string)
    : Exc player_stats :=
  let get name := default (CInt 0) (row_get df row name) in
  let player_name :=
    PyStr.strip (cell_str (default (CStr "Unknown") (row_get df row "player"))) in
  ab ← safe_int_cell (get "ab");
  h ← safe_int_cell (get "h");
  doubles ← safe_int_cell (get "doubles");
  triples ← safe_int_cell (get "triples");
  hr ← safe_int_cell (get "hr");
  rbi ← safe_int_cell (get "rbi");
  bb ← safe_int_cell (get "bb");
  so ← safe_int_cell (get "so");
  r ← safe_int_cell (get "r");
  hbp ← safe_int_cell (get "hbp");
  sf ← safe_int_cell (get "sf");
  sh ← safe_int_cell (get "sh");
  sb ← safe_int_cell (get "sb");
  cs ← safe_int_cell (get "cs");
  Ok (mk_player_stats player_name team
        (mk_counting ab h doubles triples hr bb hbp sf sh so r rbi sb cs)).

(** *** The orchestrator *)

(** A team's players as the orchestrator holds them: already parsed (the
    sectioned layout) or still the rows of a table (the flat layout). *)
Inductive roster : Type :=
| Parsed (players : list player_stats)
| Frame (df : DataFrame).

(** [len(team_df)] *)
Definition roster_count (r : roster) : Z :=
  match r with
  | Parsed players => Z.of_nat (List.length players)
  | Frame df => Z.of_nat (List.length (df_rows df))
  end.

(** [if x:] for an optional string. *)
Definition truthy (x : option string) : bool :=
  match x with
  | Some s => negb (bool_decide (s = EmptyString))
  | None => false
  end.

(** One turn of a roster loop for a parsed row: skip a row without a name,
    find or create the player, create the plate appearance.  The result
    tells whether a row was ingested. *)
Definition ingest_player (game_id : Z) (team league : string)
    (p : player_stats) : SE MemoryStore Z :=
  if bool_decide (ps_player_name p = EmptyString)
     || bool_decide (ps_player_name p = "Unknown")
  then mret 0
  else
    s ← se_get;
    player_id ←
      match get_player_by_name_team (ps_player_name p) team s with
      | Some (id, _) => mret id
      | None =>
          created ← create_player (mk_Player (ps_player_name p) team (Some league));
          mret created.1
      end;
    _ ← create_plate_appearance (mk_PA game_id player_id team (ps_stats p));
    mret 1.

Fixpoint ingest_players (game_id : Z) (team league : string)
    (players : list player_stats) : SE MemoryStore Z :=
  match players with
  | [] => mret 0
  | p :: players' =>
      n ← ingest_player game_id team league p;
      m ← ingest_players game_id team league players';
      mret (n + m)
  end.

Fixpoint ingest_rows (game_id : Z) (team league : string) (df : DataFrame)
    (rows : list (list cell)) : SE MemoryStore Z :=
  match rows with
  | [] => mret 0
  | row :: rows' =>
      p ← se_lift (_parse_player_row df row team);
      n ← ingest_player game_id team league p;
      m ← ingest_rows game_id team league df rows';
      mret (n + m)
  end.

Definition ingest_roster (game_id : Z) (team league : string) (r : roster)
    : SE MemoryStore Z :=
  match r with
  | Parsed players => ingest_players game_id team league players
  | Frame df => ingest_rows game_id team league df (df_rows df)
  end.

(** What the first half of [ingest_game_csv] settles. *)
Record lineup : Type := mk_lineup {
  l_home_team : string;
  l_away_team : string;
  l_team1 : roster;
  l_team2 : roster;
  l_home_score : Z;
  l_away_score : Z;
  l_winner : option string
}.

(** The branch taken when both team names are supplied: no detection;
    without a team column, or for a home team that is no value of it, the
    whole table is the home roster. *)
Definition manual_lineup (text home_team away_team : string) : Exc lineup :=
  df ← read_csv text;
  let df := normalize_columns df in
  let '(team1_df, team2_df) :=
    if has_column "team" df then
      let unique_teams := team_values df in
      (if bool_decide (home_team ∈ unique_teams)
       then rows_of_team home_team df else df,
       if bool_decide (away_team ∈ unique_teams)
       then rows_of_team away_team df else empty_df)
    else (df, empty_df) in
  home_score ← runs_of team1_df;
  away_score ← runs_of team2_df;
  Ok (mk_lineup home_team away_team (Frame team1_df) (Frame team2_df)
        home_score away_score
        (decide_winner home_team away_team home_score away_score)).

(** The branch taken when a team name is missing: detection by layout. *)
Definition detected_lineup (text : string) : Exc lineup :=
  if PyStr.contains "Batting Order" text then
    team_data ← _detect_teams_from_hittrax_format text;
    Ok (mk_lineup (team1_name team_data) (team2_name team_data)
          (Parsed (team1_players team_data)) (Parsed (team2_players team_data))
          (team1_runs team_data) (team2_runs team_data) (winner team_data))
  else
    df ← read_csv text;
    team_data ← _detect_teams_from_csv (normalize_columns df);
    Ok (mk_lineup (csv_team1_name team_data) (csv_team2_name team_data)
          (Frame (csv_team1_df team_data)) (Frame (csv_team2_df team_data))
          (csv_team1_runs team_data) (csv_team2_runs team_data)
          (csv_winner team_data)).

Definition settle_lineup (text : string) (home_team away_team : option string)
    : Exc lineup :=
  match home_team, away_team with
  | Some h, Some a =>
      if truthy home_team && truthy away_team then manual_lineup text h a
      else detected_lineup text
  | _, _ => detected_lineup text
  end.

Record game_info : Type := mk_game_info {
  gi_home_team : string;
  gi_away_team : string;
  gi_home_score : Z;
  gi_away_score : Z;
  gi_winner : option string;
  gi_team1_player_count : Z;
  gi_team2_player_count : Z
}.

(** [ingest_game_csv(file, league, season, game_date, home_team, away_team)],
    on the decoded text of the file; it returns
    [(rows_ingested, game.id, game_info)]. *)
Definition ingest_game_csv (text league season : string) (game_date : date)
    (home_team away_team : option string)
    : SE MemoryStore (Z * Z * game_info) :=
  l ← se_lift (settle_lineup text home_team away_team);
  game ← create_game (mk_Game league season game_date
                        (l_home_team l) (l_away_team l)
                        (l_home_score l) (l_away_score l) (l_winner l));
  n1 ← ingest_roster game.1 (l_home_team l) league (l_team1 l);
  n2 ← ingest_roster game.1 (l_away_team l) league (l_team2 l);
  mret (n1 + n2, game.1,
        mk_game_info (l_home_team l) (l_away_team l)
          (l_home_score l) (l_away_score l) (l_winner l)
          (roster_count (l_team1 l)) (roster_count (l_team2 l))).

(** *** The upload route ([app/api/routes/games.py])

    The model starts after the date string has been parsed. *)

Definition str_date (d : date) : string :=
  PyRepr.pad4 (year d) +:+ "-" +:+ PyRepr.pad2 (month d) +:+ "-"
  +:+ PyRepr.pad2 (day d).

(** [str(e)] *)
Definition str_exn (e : exn) : string :=
  match e with
  | ZeroDivisionError m | OverflowError m | ValueError m | OtherError m => m
  | HTTPException status detail => PyRepr.str_int status +:+ ": " +:+ detail
  end.

Definition duplicate_msg (existing_game : Game) : string :=
  "This game already exists in the system!" +:+ PyRepr.newline
  +:+ "Game: " +:+ g_home_team existing_game +:+ " vs "
  +:+ g_away_team existing_game +:+ PyRepr.newline
  +:+ "Date: " +:+ str_date (g_date existing_game) +:+ PyRepr.newline
  +:+ "League: " +:+ g_league existing_game +:+ ", Season: "
  +:+ g_season existing_game +:+ PyRepr.newline
  +:+ "Please upload a different game or check your files.".

(** The teams the duplicate check is made with. *)
Definition teams_for_duplicate_check (text : string)
    (home_team away_team : option string) : Exc (string * string) :=
  match home_team, away_team with
  | Some h, Some a =>
      if truthy home_team && truthy away_team then Ok (h, a)
      else l ← detected_lineup text; Ok (l_home_team l, l_away_team l)
  | _, _ => l ← detected_lineup text; Ok (l_home_team l, l_away_team l)
  end.

Record UploadCsvResponse : Type := mk_response {
  resp_game_id : Z;
  resp_rows_ingested : Z;
  resp_message : string
}.

Definition upload_message (info : game_info) : string :=
  "Game uploaded: " +:+ gi_home_team info +:+ " vs " +:+ gi_away_team info
  +:+ ", Score: " +:+ PyRepr.str_int (gi_home_score info) +:+ "-"
  +:+ PyRepr.str_int (gi_away_score info)
  +:+ match gi_winner info with
      | Some w => if bool_decide (w = EmptyString) then ", Tie"
                  else ", Winner: " +:+ w
      | None => ", Tie"
      end.

(** The body of the [try] block. *)
Definition upload_csv_body (text league season : string) (game_date : date)
    (home_team away_team : option string)
    : SE MemoryStore UploadCsvResponse :=
  detected ← se_lift (teams_for_duplicate_check text home_team away_team);
  s ← se_get;
  match check_duplicate_game game_date league season detected.1 detected.2 s with
  | Some existing_game =>
      se_raise (HTTPException 409 (duplicate_msg existing_game.2))
  | None =>
      ingested ← ingest_game_csv text league season game_date
                   (if truthy home_team then home_team else None)
                   (if truthy away_team then away_team else None);
      _ ← recompute_hitter_totals league season;
      mret (mk_response ingested.1.2 ingested.1.1 (upload_message ingested.2))
  end.

(** [upload_csv]: a [ValueError] becomes a 400, any other exception,
    the 409 raised inside the [try] block included, becomes a 500 whose
    detail carries the text of the exception. *)
Definition upload_csv (text league season : string) (game_date : date)
    (home_team away_team : option string)
    : SE MemoryStore UploadCsvResponse :=
  fun s =>
    match upload_csv_body text league season game_date home_team away_team s with
    | (Ok r, s') => (Ok r, s')
    | (Raise (ValueError m), s') => (Raise (HTTPException 400 m), s')
    | (Raise e, s') =>
        (Raise (HTTPException 500 ("Error ingesting CSV: " +:+ str_exn e)), s')
    end.

(** The stores that uploads, bare ingestions and recomputes lead to. *)
Inductive reachable : MemoryStore -> Prop :=
| reachable_empty : reachable empty_store
| reachable_upload s text league season game_date home_team away_team :
    reachable s ->
    reachable (upload_csv text league season game_date home_team away_team s).2
| reachable_ingest s text league season game_date home_team away_team :
    reachable s ->
    reachable (ingest_game_csv text league season game_date home_team away_team s).2
| reachable_recompute s league season :
    reachable s ->
    reachable (recompute_hitter_totals league season s).2.

End Pandas.

(** *** Invariants of the player collection *)

Definition player_key_of (p : Player) : string * string :=
  player_key (p_name p) (p_team p).

(** Every stored player has a positive id that is at most the counter and is
    what the index gives for the player's normalized name and team; and no
    two stored players have the same normalized name and team. *)
Definition player_wf (s : MemoryStore) : Prop :=
  0 <= _player_id_counter s
  /\ (forall id p, (id, p) ∈ _players s ->
        0 < id <= _player_id_counter s
        /\ _player_index s !! player_key_of p = Some id)
  /\ NoDup (player_key_of <$> odict.values (_players s)).

(** The part of the store that holds players. *)
Definition same_players (s s' : MemoryStore) : Prop :=
  _players s' = _players s
  /\ _player_id_counter s' = _player_id_counter s
  /\ _player_index s' = _player_index s.

(** [preserves I m]: whatever [m] does, returning or raising, it leaves a
    store in which [I] holds when started in one. *)
Definition preserves {A : Type} (I : MemoryStore -> Prop)
    (m : SE MemoryStore A) : Prop :=
  forall s, I s -> I (m s).2.

(** A string that does not start with a character of the class [P]. *)
Definition head_kept (P : ascii -> bool) (s : string) : Prop :=
  match s with
  | EmptyString => True
  | String c _ => P c = false
  end.

#[global] Instance float_eq_dec : EqDecision PyFloat.float.
Proof. solve_decision. Defined.

#[global] Instance cell_eq_dec : EqDecision cell.
Proof. solve_decision. Defined.

(** *** Example uploads

    Stand-ins for the pandas parameters, for examples only: a reader that
    knows one file, a float printer that is never called on the examples,
    and the total of a column of ints. *)

Definition demo_float_str (x : PyFloat.float) : string := "0.0".

Definition demo_column_total (col : list cell) : Exc Z :=
  Ok (foldr (fun c acc => match c with CInt n => n + acc | _ => acc end) 0 col).

(** A flat table of three rows; the third row has no team. *)
Definition demo_flat_df : DataFrame :=
  mk_df ["Player"; "Team"; "R"; "AB"; "H"]
        [[CStr "Ann"; CStr "Hawks"; CInt 1; CInt 4; CInt 2];
         [CStr "Bob"; CStr "Owls "; CInt 2; CInt 3; CInt 1];
         [CStr "Cy"; CNaN; CInt 3; CInt 4; CInt 3]].

Definition demo_read_csv (text : string) : Exc DataFrame :=
  if bool_decide (text = "flat") then Ok demo_flat_df
  else Raise (ValueError "No columns to parse from file").

(** A sectioned file of two teams. *)
Definition demo_hittrax_text : string :=
  "Hawks,Batting Order,AB,R,H,EBH,2B,3B,HR,RBI,#P,SO,DP,BB" +:+ PyRepr.newline
  +:+ "Ann,1,4,1,2,1,1,0,0,2,15,1,0,1" +:+ PyRepr.newline
  +:+ "Bob,2,3,0,0,0,0,0,0,0,9,2,0,0" +:+ PyRepr.newline
  +:+ ",,,,,,,,,,,,," +:+ PyRepr.newline
  +:+ "Owls,Batting Order,AB,R,H,EBH,2B,3B,HR,RBI,#P,SO,DP,BB" +:+ PyRepr.newline
  +:+ "Cy,1,4,2,3,1,0,0,1,3,15,0,0,0" +:+ PyRepr.newline
  +:+ "Unknown,2,4,2,3,1,0,0,1,3,15,0,0,0" +:+ PyRepr.newline
  +:+ "Dee,2,0,0,0,0,0,0,0,0,0,0,0,2" +:+ PyRepr.newline.

(** The same teams a week later, with the names written differently. *)
Definition demo_hittrax_text2 : string :=
  "Hawks,Batting Order,AB,R,H,EBH,2B,3B,HR,RBI,#P,SO,DP,BB" +:+ PyRepr.newline
  +:+ " ANN ,1,3,0,1,0,0,0,0,0,12,1,0,0" +:+ PyRepr.newline
  +:+ "Owls,Batting Order,AB,R,H,EBH,2B,3B,HR,RBI,#P,SO,DP,BB" +:+ PyRepr.newline
  +:+ "cy,1,4,1,1,0,0,0,0,1,15,0,0,0" +:+ PyRepr.newline.

Definition demo_upload (text : string) (game_date : date)
    (home_team away_team : option string)
    : SE MemoryStore UploadCsvResponse :=
  upload_csv demo_read_csv demo_float_str demo_column_total
    text "L" "2024" game_date home_team away_team.

(** The store after the first file is uploaded. *)
Definition demo_uploaded : MemoryStore :=
  (demo_upload demo_hittrax_text demo_date None None empty_store).2.

(** The store after both files are uploaded. *)
Definition demo_uploaded_twice : MemoryStore :=
  (demo_upload demo_hittrax_text2 (mk_date 2024 1 22) None None demo_uploaded).2.


(** [row_of_line line team p]: [p] is the record that the fields of [line]
    give by position, and it passes the test for being kept. *)
Definition row_of_line (line team : string) (p : player_stats) : Prop :=
  let values := clean_value <$> PyStr.split "," line in
  (10 <= List.length values)%nat
  /\ ps_player_name p = PyStr.strip (default EmptyString (values !! 0%nat))
  /\ ps_team p = team
  /\ ps_player_name p <> EmptyString
  /\ ps_player_name p <> "Unknown"
  /\ (0 < c_AB (ps_stats p) \/ 0 < c_H (ps_stats p) \/ 0 < c_R (ps_stats p))
  /\ safe_int_field values 2 = Ok (c_AB (ps_stats p))
  /\ safe_int_field values 3 = Ok (c_R (ps_stats p))
  /\ safe_int_field values 4 = Ok (c_H (ps_stats p))
  /\ safe_int_field values 6 = Ok (c_double (ps_stats p))
  /\ safe_int_field values 7 = Ok (c_triple (ps_stats p))
  /\ safe_int_field values 8 = Ok (c_HR (ps_stats p))
  /\ safe_int_field values 9 = Ok (c_RBI (ps_stats p))
  /\ safe_int_field values 11 = Ok (c_K (ps_stats p))
  /\ safe_int_field values 13 = Ok (c_BB (ps_stats p))
  /\ c_HBP (ps_stats p) = 0 /\ c_SF (ps_stats p) = 0 /\ c_SH (ps_stats p) = 0
  /\ c_SB (ps_stats p) = 0 /\ c_CS (ps_stats p) = 0.

(** The result of the sectioned detection once the two rosters are
    parsed. *)
Definition hittrax_result (name1 name2 : string)
    (players1 players2 : list player_stats) : Exc team_data :=
  if (List.length players1 =? 0)%nat || (List.length players2 =? 0)%nat then
    Raise (ValueError (no_players_message name1 name2 players1 players2))
  else
    Ok (mk_team_data name1 name2 players1 players2
          (sum_runs players1) (sum_runs players2)
          (decide_winner name1 name2 (sum_runs players1) (sum_runs players2))).

(** [is_rate a b v]: [v] is [round(a / b, 3) if b > 0 else 0.0]. *)
Definition is_rate (a b : Z) (v : PyFloat.float) : Prop :=
  (0 < b -> exists x, PyFloat.truediv a b = Ok x /\ PyFloat.round3 x = Ok v)
  /\ (b <= 0 -> v = PyFloat.zero).

(** The message of the [OverflowError] of int true division. *)
Definition division_overflow : exn :=
  OverflowError "integer division result too large for a float".

(** [is_decimal n v]: [v] is the double nearest to the three-decimal number
    [n / 1000]. *)
Definition is_decimal (n : Z) (v : PyFloat.float) : Prop :=
  PyFloat.of_thousandths n = Some v.

(** A counting stat of magnitude at most [2^31]. *)
Definition small_stat (v : Z) : Prop := Z.abs v <= 2 ^ 31.

(** * Further parts of the code *)

(** ** The per-game average ([app/utils/stat_calculators.py]) *)

(** [get_game_avg(h, ab)]; [StatsService.get_game_avg] is the same call. *)
Definition get_game_avg (h ab : Z) : Exc PyFloat.float :=
  if 0 <? ab then
    x ← PyFloat.truediv h ab; PyFloat.round3 x
  else Ok PyFloat.zero.

(** A batting line whose counts are consistent: no negative count, the
    extra-base hits are among the hits and the hits among the at-bats. *)
Definition valid_line (ab h double triple hr bb hbp sf : Z) : Prop :=
  0 <= double /\ 0 <= triple /\ 0 <= hr /\ double + triple + hr <= h
  /\ h <= ab /\ 0 <= bb /\ 0 <= hbp /\ 0 <= sf.

(** A string of decimal digits. *)
Definition all_decimal (s : string) : Prop :=
  PyStr.any_char (fun c => negb (PyStr.isdecimal c)) s = false.

(** ** Sorting

    [list.sort] and [sorted] are stable: among elements that compare equal
    the original order is kept, and with [reverse=True] as well.  For keys
    that are totally ordered this determines the result, which an insertion
    sort gives.  [lt x y] stands for [key(x) < key(y)]. *)

Section sorting.
Context {A : Type} (lt : A -> A -> bool).

(** [x], which was before every element of [l], goes before the first
    element that is not greater. *)
Fixpoint insert_desc (x : A) (l : list A) : list A :=
  match l with
  | [] => [x]
  | y :: l' => if lt x y then y :: insert_desc x l' else x :: l
  end.

(** [l.sort(key=..., reverse=True)] *)
Definition sort_desc (l : list A) : list A := foldr insert_desc [] l.

Fixpoint insert_asc (x : A) (l : list A) : list A :=
  match l with
  | [] => [x]
  | y :: l' => if lt y x then y :: insert_asc x l' else x :: l
  end.

(** [sorted(l)] *)
Definition sort_asc (l : list A) : list A := foldr insert_asc [] l.
End sorting.

(** [l[start:stop]] for two ints: a negative index counts from the end,
    and both are clamped to the list. *)
Definition py_slice {A : Type} (start stop : Z) (l : list A) : list A :=
  let n := Z.of_nat (List.length l) in
  let clamp i := if i <? 0 then Z.max (i + n) 0 else Z.min i n in
  take (Z.to_nat (clamp stop - clamp start)) (drop (Z.to_nat (clamp start)) l).

(** ** More of the entity store ([app/storage/memory_store.py]) *)

(** [get_plate_appearances_by_game(game_id)]: [-1] stands for every game. *)
Definition get_plate_appearances_by_game (game_id : Z) (s : MemoryStore)
    : list (Z * PlateAppearance) :=
  if game_id =? -1 then _plate_appearances s
  else List.filter (fun pa => bool_decide (pa_game_id pa.2 = game_id))
                   (_plate_appearances s).

Definition get_plate_appearances_by_player (player_id : Z) (s : MemoryStore)
    : list (Z * PlateAppearance) :=
  List.filter (fun pa => bool_decide (pa_player_id pa.2 = player_id))
              (_plate_appearances s).

(** The first stored row of the player in the game; [-1] is no wildcard
    here. *)
Definition get_plate_appearances_by_game_and_player (game_id player_id : Z)
    (s : MemoryStore) : option (Z * PlateAppearance) :=
  List.find (fun pa => bool_decide (pa_game_id pa.2 = game_id)
                       && bool_decide (pa_player_id pa.2 = player_id))
            (_plate_appearances s).

Definition get_hitter_totals_by_player (player_id : Z) (s : MemoryStore)
    : list (Z * HitterTotal) :=
  List.filter (fun ht => bool_decide (ht_player_id ht.2 = player_id))
              (_hitter_totals s).

(** [date1 < date2] *)
Definition date_lt (d1 d2 : date) : bool :=
  (year d1 <? year d2)
  || ((year d1 =? year d2)
      && ((month d1 <? month d2)
          || ((month d1 =? month d2) && (day d1 <? day d2)))).

(** [if league: games = [g for g in games if g.league == league]] *)
Definition filter_league (league : option string) (games : list (Z * Game))
    : list (Z * Game) :=
  if truthy league
  then List.filter (fun g => bool_decide (Some (g_league g.2) = league)) games
  else games.

Definition filter_season (season : option string) (games : list (Z * Game))
    : list (Z * Game) :=
  if truthy season
  then List.filter (fun g => bool_decide (Some (g_season g.2) = season)) games
  else games.

(** [pa.team and pa.team.strip().lower() == team_name_normalized] *)
Definition team_matches (team_name_normalized : string) (pa : PlateAppearance)
    : bool :=
  negb (bool_decide (pa_team pa = EmptyString))
  && bool_decide (PyStr.lower (PyStr.strip (pa_team pa)) = team_name_normalized).

Section Clock.

(** [created_at] of the game stored under an id: what [datetime.utcnow()]
    returned when [create_game] stored it.  Every stored game has one. *)
Variable created_at : Z -> Z.

(** [(g1.date, g1.created_at) < (g2.date, g2.created_at)] *)
Definition game_key_lt (g1 g2 : Z * Game) : bool :=
  if bool_decide (g_date g1.2 = g_date g2.2)
  then created_at g1.1 <? created_at g2.1
  else date_lt (g_date g1.2) (g_date g2.2).

(** [get_games(limit, offset, league, season)]: the filters, the sort by
    date then creation time, latest first, and the page; a limit of 10000
    or more returns everything, whatever the offset. *)
Definition get_games (limit offset : Z) (league season : option string)
    (s : MemoryStore) : list (Z * Game) :=
  let games := filter_season season (filter_league league (_games s)) in
  let games := sort_desc game_key_lt games in
  if 10000 <=? limit then games
  else py_slice offset (offset + limit) games.

(** [get_plate_appearances_by_team(team_name, league, season)] *)
Definition get_plate_appearances_by_team (team_name : string)
    (league season : option string) (s : MemoryStore)
    : list (Z * PlateAppearance) :=
  let team_name_normalized := normalize_team team_name in
  if truthy league || truthy season then
    let games := get_games 10000 0 league season s in
    let game_ids := games.*1 in
    List.filter (fun pa => team_matches team_name_normalized pa.2
                           && bool_decide (pa_game_id pa.2 ∈ game_ids))
                (_plate_appearances s)
  else
    List.filter (fun pa => team_matches team_name_normalized pa.2)
                (_plate_appearances s).

End Clock.

(** What one plate appearance adds to the set of [get_unique_teams]. *)
Definition unique_team_of (league : option string) (s : MemoryStore)
    (pa : PlateAppearance) : option string :=
  match odict.get (pa_game_id pa) (_games s) with
  | Some game =>
      if truthy league && negb (bool_decide (Some (g_league game) = league))
      then None
      else if bool_decide (pa_team pa = EmptyString) then None
      else Some (PyStr.strip (pa_team pa))
  | None => None
  end.

(** [get_unique_teams(league)]: the set, sorted. *)
Definition get_unique_teams (league : option string) (s : MemoryStore)
    : list string :=
  sort_asc String.ltb
    (remove_dups (omap (fun pa => unique_team_of league s pa.2)
                       (_plate_appearances s))).

(** *** Invariants of the games and plate appearances *)

(** Ids are positive, at most the counter and not repeated; a plate
    appearance refers to a stored game and a stored player. *)
Definition refs_wf (s : MemoryStore) : Prop :=
  0 <= _game_id_counter s
  /\ (forall id g, (id, g) ∈ _games s -> 0 < id <= _game_id_counter s)
  /\ NoDup (odict.keys (_games s))
  /\ 0 <= _plate_appearance_id_counter s
  /\ (forall id pa, (id, pa) ∈ _plate_appearances s ->
        0 < id <= _plate_appearance_id_counter s
        /\ is_Some (get_game (pa_game_id pa) s)
        /\ is_Some (get_player (pa_player_id pa) s))
  /\ NoDup (odict.keys (_plate_appearances s)).

(** The hitter totals and their index. *)
Definition same_totals (s s' : MemoryStore) : Prop :=
  _hitter_totals s' = _hitter_totals s
  /\ _hitter_total_id_counter s' = _hitter_total_id_counter s
  /\ _hitter_total_index s' = _hitter_total_index s.

(** The hitter totals are consistent with their index and no id is
    repeated. *)
Definition totals_wf (s : MemoryStore) : Prop :=
  ht_wf s /\ NoDup (odict.keys (_hitter_totals s)).

(** The state of the store while the rows of game [game_id] are ingested. *)
Definition ingesting (game_id : Z) (s : MemoryStore) : Prop :=
  refs_wf s /\ is_Some (get_game game_id s).

(** The flat example table, ingested with both team names supplied, and the
    totals recomputed. *)
Definition demo_flat_ingested : MemoryStore :=
  (ingest_game_csv demo_read_csv demo_float_str demo_column_total
     "flat" "L" "2024" demo_date (Some "Hawks") (Some "Owls") empty_store).2.

Definition demo_flat_recomputed : MemoryStore :=
  (recompute_hitter_totals "L" "2024" demo_flat_ingested).2.

(** [ordered R l]: every element of [l] is related by [R] to every later
    one. *)
Fixpoint ordered {A : Type} (R : A -> A -> Prop) (l : list A) : Prop :=
  match l with
  | [] => True
  | x :: l' => Forall (R x) l' /\ ordered R l'
  end.

(** ** Rounding to the nearest integer *)

Module PyFloatFacts.
Import PyFloat.

(** Powers of two with a large literal exponent are kept abstract in
    arithmetic goals. *)
Ltac hide_pow k :=
  lazymatch eval cbv in (64 <? Zpos k) with
  | true => let P := fresh "P" in set (P := 2 ^ Zpos k) in *; clearbody P
  end.

Ltac hide_pows :=
  repeat match goal with
    | |- context [2 ^ Zpos ?k] => hide_pow k
    | _ : context [2 ^ Zpos ?k] |- _ => hide_pow k
    end.

Ltac hlia := hide_pows; lia.
Ltac hnia := hide_pows; nia.

Lemma rhe_cases n d :
  0 < d ->
  exists r, 0 <= r < d /\ n = d * (n / d) + r
    /\ ((rhe n d = n / d /\ 2 * r <= d) \/ (rhe n d = n / d + 1 /\ d <= 2 * r)).
Proof.
  intros Hd. exists (n mod d).
  pose proof (Z.mod_pos_bound n d Hd) as Hr.
  pose proof (Z.div_mod n d ltac:(lia)) as Hdm.
  split; [done|]. split; [done|]. unfold rhe.
  destruct (Z.ltb_spec (2 * (n mod d)) d); [left; lia|].
  destruct (Z.ltb_spec d (2 * (n mod d))); [right; lia|].
  destruct (Z.even (n / d)); [left|right]; lia.
Qed.

(** The result is within half a unit. *)
Lemma rhe_error n d : 0 < d -> Z.abs (2 * (rhe n d * d) - 2 * n) <= d.
Proof.
  intros Hd. destruct (rhe_cases n d Hd) as (r & Hr & Hn & [[-> H2]|[-> H2]]); nia.
Qed.

Lemma rhe_le n d K : 0 < d -> n <= K * d -> rhe n d <= K.
Proof.
  intros Hd Hn. destruct (rhe_cases n d Hd) as (r & Hr & Hdm & [[-> H2]|[-> H2]]); nia.
Qed.

Lemma rhe_ge n d K : 0 < d -> K * d <= n -> K <= rhe n d.
Proof.
  intros Hd Hn. destruct (rhe_cases n d Hd) as (r & Hr & Hdm & [[-> H2]|[-> H2]]); nia.
Qed.

(** An integer that is nearer than half a unit is the result. *)
Lemma rhe_unique n d K : 0 < d -> Z.abs (2 * (K * d) - 2 * n) < d -> rhe n d = K.
Proof.
  intros Hd Hn. destruct (rhe_cases n d Hd) as (r & Hr & Hdm & [[-> H2]|[-> H2]]); nia.
Qed.

(** ** The exponent of the last place *)

Lemma pow2_pos k : 0 <= k -> 0 < 2 ^ k.
Proof. intros. by apply Z.pow_pos_nonneg. Qed.

Lemma pow2_mono j k : j <= k -> 2 ^ j <= 2 ^ k.
Proof. intros. apply Z.pow_le_mono_r; lia. Qed.

Lemma pow2_add j k : 0 <= j -> 0 <= k -> 2 ^ (j + k) = 2 ^ j * 2 ^ k.
Proof. intros. by apply Z.pow_add_r. Qed.

Lemma ilog2_upper a q :
  0 < a -> 0 < q -> a < q * 2 ^ Z.max 0 (ilog2 a q + 1).
Proof.
  intros Ha Hq. unfold ilog2.
  destruct (Z.log2_spec a Ha) as [Hla1 Hla2].
  destruct (Z.log2_spec q Hq) as [Hlq1 Hlq2].
  pose proof (Z.log2_nonneg a) as Hla0. pose proof (Z.log2_nonneg q) as Hlq0.
  set (la := Z.log2 a) in *. set (lq := Z.log2 q) in *.
  destruct (Z.leb_spec 0 (la - lq)) as [Hk|Hk]; simpl.
  - destruct (Z.leb_spec (q * 2 ^ (la - lq)) a) as [Ht|Ht].
    + rewrite Z.max_r by lia.
      replace (Z.succ la) with (lq + (la - lq + 1)) in Hla2 by lia.
      rewrite pow2_add in Hla2 by lia.
      pose proof (pow2_pos (la - lq + 1) ltac:(lia)). nia.
    + rewrite Z.max_r by lia. by replace (la - lq - 1 + 1) with (la - lq) by lia.
  - pose proof (pow2_mono (Z.succ la) lq ltac:(lia)).
    pose proof (pow2_pos (Z.max 0 (la - lq - 1 + 1)) ltac:(lia)). nia.
Qed.

Lemma ilog2_lower a q :
  0 < a -> 0 < q -> 0 <= ilog2 a q -> q * 2 ^ ilog2 a q <= a.
Proof.
  intros Ha Hq. unfold ilog2.
  destruct (Z.log2_spec a Ha) as [Hla1 Hla2].
  destruct (Z.log2_spec q Hq) as [Hlq1 Hlq2].
  pose proof (Z.log2_nonneg a) as Hla0. pose proof (Z.log2_nonneg q) as Hlq0.
  set (la := Z.log2 a) in *. set (lq := Z.log2 q) in *.
  destruct (Z.leb_spec 0 (la - lq)) as [Hk|Hk]; simpl.
  - destruct (Z.leb_spec (q * 2 ^ (la - lq)) a) as [Ht|Ht]; [done|].
    intros Hf.
    replace la with (lq + 1 + (la - lq - 1)) in Hla1 at 1 by lia.
    rewrite pow2_add in Hla1 by lia. replace (Z.succ lq) with (lq + 1) in Hlq2 by lia.
    pose proof (pow2_pos (la - lq - 1) ltac:(lia)). nia.
  - lia.
Qed.

Lemma ulp_exp_nonneg a q : 0 <= ulp_exp a q.
Proof. unfold ulp_exp. lia. Qed.

(** The significand has at most 53 bits. *)
Lemma ulp_exp_upper a q :
  0 < a -> 0 < q -> a < q * 2 ^ (ulp_exp a q + 53).
Proof.
  intros Ha Hq. pose proof (ilog2_upper a q Ha Hq) as Hu.
  pose proof (pow2_mono (Z.max 0 (ilog2 a q + 1)) (ulp_exp a q + 53)
                ltac:(unfold ulp_exp; lia)).
  nia.
Qed.

(** Above the unit, the significand has its 53 bits. *)
Lemma ulp_exp_lower a q :
  0 < a -> 0 < q -> 0 < ulp_exp a q -> q * 2 ^ (ulp_exp a q + 52) <= a.
Proof.
  intros Ha Hq HE. unfold ulp_exp in *.
  replace (Z.max 0 (ilog2 a q - 52) + 52) with (ilog2 a q) by lia.
  apply ilog2_lower; lia.
Qed.

(** A bound on the value bounds the exponent. *)
Lemma ulp_exp_le a q B :
  0 < a -> 0 < q -> 0 <= B -> a < q * 2 ^ (B + 52) -> ulp_exp a q <= B.
Proof.
  intros Ha Hq HB Hlt.
  destruct (Z.le_gt_cases (ulp_exp a q) B) as [|Hgt]; [done|].
  pose proof (ulp_exp_lower a q Ha Hq ltac:(lia)) as Hl.
  pose proof (pow2_mono (B + 52) (ulp_exp a q + 52) ltac:(lia)). nia.
Qed.

(** ** Rounding to a double *)

Lemma scale_pos : 0 < scale.
Proof. apply pow2_pos. unfold unit_exp. hlia. Qed.

Lemma rhe_nonneg n d : 0 < d -> 0 <= n -> 0 <= rhe n d.
Proof. intros Hd Hn. apply rhe_ge; hlia. Qed.

Lemma rnd_inv p q y :
  rnd p q = Some y ->
  (p = 0 /\ y = Fin 0)
  \/ (p <> 0
      /\ y = Fin (Z.sgn p
                  * (rhe (Z.abs p * scale)
                         (q * 2 ^ ulp_exp (Z.abs p * scale) q)
                     * 2 ^ ulp_exp (Z.abs p * scale) q))
      /\ rhe (Z.abs p * scale) (q * 2 ^ ulp_exp (Z.abs p * scale) q)
         * 2 ^ ulp_exp (Z.abs p * scale) q < overflow_threshold).
Proof.
  unfold rnd. destruct (Z.eqb_spec p 0) as [->|Hp].
  - intros [= <-]. by left.
  - cbv zeta. destruct (Z.leb_spec overflow_threshold
      (rhe (Z.abs p * scale) (q * 2 ^ ulp_exp (Z.abs p * scale) q)
       * 2 ^ ulp_exp (Z.abs p * scale) q)); [done|].
    intros [= <-]. right. done.
Qed.

Lemma rnd_finite p q y : rnd p q = Some y -> exists x, y = Fin x.
Proof. intros [[_ ->]|(_ & -> & _)]%rnd_inv; by eexists. Qed.

(** The error of a rounding is at most half a unit in the last place. *)
Lemma rnd_error p q x B :
  0 < q -> rnd p q = Some (Fin x) -> 0 <= B ->
  Z.abs p * scale < q * 2 ^ (B + 52) ->
  Z.abs (2 * (x * q) - 2 * (p * scale)) <= q * 2 ^ B.
Proof.
  intros Hq Hr HB Hlt.
  pose proof scale_pos as Hs. pose proof (pow2_pos B HB) as HpB.
  apply rnd_inv in Hr as [[-> [= ->]]|(Hp & [= ->] & _)]; [hnia|].
  set (a := Z.abs p * scale) in *. assert (Ha : 0 < a) by hnia.
  pose proof (ulp_exp_nonneg a q) as HE0.
  pose proof (ulp_exp_le a q B Ha Hq HB Hlt) as HEB.
  set (E := ulp_exp a q) in *.
  pose proof (pow2_pos E HE0) as HpE. pose proof (pow2_mono E B HEB) as Hmono.
  pose proof (rhe_error a (q * 2 ^ E) ltac:(hnia)) as Herr.
  set (M := rhe a (q * 2 ^ E)) in *.
  assert (Hpa : p * scale = Z.sgn p * a) by (unfold a; hnia).
  rewrite Hpa.
  assert (Hsg : Z.sgn p = 1 \/ Z.sgn p = -1) by hlia.
  destruct Hsg as [-> | ->]; hnia.
Qed.

Lemma overflow_threshold_eq : overflow_threshold = 2 ^ 53 * 2 ^ 2045.
Proof. unfold overflow_threshold, unit_exp. by rewrite <- pow2_add. Qed.

Lemma max_finite_eq : max_finite = (2 ^ 53 - 1) * 2 ^ 2045.
Proof. reflexivity. Qed.

(** A rounding that does not overflow is at most the largest double. *)
Lemma rnd_in_range p q x :
  0 < q -> rnd p q = Some (Fin x) -> Z.abs x <= max_finite.
Proof.
  intros Hq Hr. rewrite max_finite_eq.
  pose proof scale_pos as Hs.
  pose proof (pow2_mono 1 53 ltac:(hlia)) as H53. change (2 ^ 1) with 2 in H53.
  pose proof (pow2_pos 2045 ltac:(hlia)) as HT.
  apply rnd_inv in Hr as [[-> [= ->]]|(Hp & [= ->] & Hov)]; [change (Z.abs 0) with 0; hnia|].
  rewrite overflow_threshold_eq in Hov.
  set (a := Z.abs p * scale) in *. assert (Ha : 0 < a) by hnia.
  pose proof (ulp_exp_nonneg a q) as HE0.
  pose proof (ulp_exp_upper a q Ha Hq) as Hup.
  set (E := ulp_exp a q) in *.
  pose proof (pow2_pos E HE0) as HpE.
  rewrite (Z.add_comm E 53), pow2_add in Hup by hlia.
  pose proof (rhe_le a (q * 2 ^ E) (2 ^ 53) ltac:(hnia) ltac:(hnia)) as HM.
  pose proof (rhe_nonneg a (q * 2 ^ E) ltac:(hnia) ltac:(hlia)) as HM0.
  set (M := rhe a (q * 2 ^ E)) in *.
  assert (Habs : Z.abs (Z.sgn p * (M * 2 ^ E)) = M * 2 ^ E) by hnia.
  rewrite Habs.
  destruct (Z.lt_trichotomy E 2045) as [Hlt|[Heq|Hgt]].
  - pose proof (pow2_mono E 2044 ltac:(hlia)) as Hm.
    assert (H2 : 2 ^ 2045 = 2 * 2 ^ 2044)
      by (replace 2045 with (1 + 2044) by hlia; by rewrite pow2_add).
    assert (Hprod : M * 2 ^ E <= 2 ^ 53 * 2 ^ 2044) by (apply Z.mul_le_mono_nonneg; hlia).
    pose proof (pow2_pos 2044 ltac:(hlia)) as H44.
    generalize dependent (2 ^ 2044). generalize dependent (2 ^ 2045).
    generalize dependent (2 ^ 53). generalize dependent (2 ^ E). intros. hnia.
  - rewrite Heq in Hov |- *.
    assert (HM53 : M < 2 ^ 53) by (apply (Z.mul_lt_mono_pos_r (2 ^ 2045)); hlia).
    apply Z.mul_le_mono_nonneg_r; hlia.
  - pose proof (ulp_exp_lower a q Ha Hq ltac:(fold E; hlia)) as Hlow.
    fold E in Hlow. rewrite (Z.add_comm E 52), pow2_add in Hlow by hlia.
    pose proof (rhe_ge a (q * 2 ^ E) (2 ^ 52) ltac:(hnia) ltac:(hnia)) as HM52.
    fold M in HM52.
    pose proof (pow2_mono 2046 E ltac:(hlia)) as Hm.
    assert (H2 : 2 ^ 2046 = 2 * 2 ^ 2045)
      by (replace 2046 with (1 + 2045) by hlia; by rewrite pow2_add).
    assert (H3 : 2 ^ 53 = 2 * 2 ^ 52)
      by (replace 53 with (1 + 52) by hlia; by rewrite pow2_add).
    pose proof (pow2_pos 52 ltac:(hlia)) as H52.
    generalize dependent (2 ^ 2046). generalize dependent (2 ^ 2045).
    generalize dependent (2 ^ 53). generalize dependent (2 ^ 52).
    generalize dependent (2 ^ E). intros. hnia.
Qed.

(** A value that is at most the largest double rounds to a double. *)
Lemma rnd_no_overflow p q :
  0 < q -> Z.abs p * scale <= q * max_finite ->
  exists x, rnd p q = Some (Fin x).
Proof.
  intros Hq Hle. unfold rnd.
  destruct (Z.eqb_spec p 0) as [->|Hp]; [by eexists|]. cbv zeta.
  pose proof scale_pos as Hs.
  set (a := Z.abs p * scale) in *. assert (Ha : 0 < a) by hnia.
  pose proof (ulp_exp_nonneg a q) as HE0.
  pose proof (ulp_exp_upper a q Ha Hq) as Hup.
  set (E := ulp_exp a q) in *.
  pose proof (pow2_pos E HE0) as HpE.
  rewrite (Z.add_comm E 53), pow2_add in Hup by hlia.
  pose proof (rhe_le a (q * 2 ^ E) (2 ^ 53) ltac:(hnia) ltac:(hnia)) as HM.
  pose proof (rhe_nonneg a (q * 2 ^ E) ltac:(hnia) ltac:(hlia)) as HM0.
  set (M := rhe a (q * 2 ^ E)) in *.
  pose proof (pow2_mono 1 53 ltac:(hlia)) as H53. change (2 ^ 1) with 2 in H53.
  pose proof (pow2_pos 2045 ltac:(hlia)) as HT.
  assert (Hov : M * 2 ^ E < overflow_threshold).
  { rewrite overflow_threshold_eq. rewrite max_finite_eq in Hle.
    destruct (Z.lt_trichotomy E 2045) as [Hlt|[Heq|Hgt]].
    - pose proof (pow2_mono E 2044 ltac:(hlia)) as Hm.
      assert (H2 : 2 ^ 2045 = 2 * 2 ^ 2044)
        by (replace 2045 with (1 + 2044) by hlia; by rewrite pow2_add).
      assert (Hprod : M * 2 ^ E <= 2 ^ 53 * 2 ^ 2044)
        by (apply Z.mul_le_mono_nonneg; hlia).
      pose proof (pow2_pos 2044 ltac:(hlia)) as H44.
      generalize dependent (2 ^ 2044). generalize dependent (2 ^ 2045).
      generalize dependent (2 ^ 53). generalize dependent (2 ^ E). intros. hnia.
    - rewrite Heq in *.
      assert (HM1 : M <= 2 ^ 53 - 1).
      { apply rhe_le; [hnia|]. fold a. rewrite Heq. hlia. }
      apply Z.le_lt_trans with ((2 ^ 53 - 1) * 2 ^ 2045).
      + apply Z.mul_le_mono_nonneg_r; hlia.
      + hlia.
    - exfalso.
      pose proof (ulp_exp_lower a q Ha Hq ltac:(fold E; hlia)) as Hlow.
      fold E in Hlow.
      pose proof (pow2_mono (53 + 2045) (E + 52) ltac:(hlia)) as Hm.
      rewrite pow2_add in Hm by hlia.
      generalize dependent (2 ^ (E + 52)). generalize dependent (2 ^ 2045).
      generalize dependent (2 ^ 53). intros. hnia. }
  destruct (Z.leb_spec overflow_threshold (M * 2 ^ E)); [hlia|]. by eexists.
Qed.

Lemma max_finite_scale : max_finite = (2 ^ 53 - 1) * 2 ^ 971 * scale.
Proof.
  rewrite max_finite_eq. unfold scale, unit_exp.
  rewrite <- Z.mul_assoc, <- pow2_add by hlia. reflexivity.
Qed.

(** [round(x, 3)] of a finite double returns a finite double. *)
Lemma round3_finite x :
  Z.abs x <= max_finite ->
  exists y, round3 (Fin x) = Ok (Fin y) /\ Z.abs y <= max_finite
            /\ of_thousandths (thousandths x) = Some (Fin y).
Proof.
  intros Hx. unfold round3, of_thousandths.
  pose proof scale_pos as Hs.
  assert (Hn : Z.abs (thousandths x) * scale <= 1000 * max_finite).
  { rewrite max_finite_scale in *. unfold thousandths.
    set (K := (2 ^ 53 - 1) * 2 ^ 971) in *.
    assert (HK : 0 <= K).
    { unfold K. pose proof (pow2_mono 1 53 ltac:(hlia)) as H53.
      change (2 ^ 1) with 2 in H53. pose proof (pow2_pos 971 ltac:(hlia)). hnia. }
    pose proof (rhe_le (1000 * x) scale (1000 * K) Hs ltac:(hnia)).
    pose proof (rhe_ge (1000 * x) scale (- (1000 * K)) Hs ltac:(hnia)).
    hnia. }
  destruct (rnd_no_overflow (thousandths x) 1000 ltac:(hlia) Hn) as [y Hy].
  exists y. rewrite Hy. split; [done|]. split; [|done].
  by apply (rnd_in_range (thousandths x) 1000).
Qed.

(** A quotient of magnitude at most [2^1023] divides without overflow. *)
Lemma truediv_finite a b :
  b <> 0 -> Z.abs a <= 2 ^ 1023 * Z.abs b ->
  exists x, truediv a b = Ok (Fin x) /\ Z.abs x <= max_finite.
Proof.
  intros Hb Ha. unfold truediv.
  destruct (Z.eqb_spec b 0) as [|_]; [done|].
  pose proof scale_pos as Hs.
  assert (Hmax : 2 ^ 1023 * scale <= max_finite).
  { rewrite max_finite_scale.
    apply Z.mul_le_mono_nonneg_r; [hlia|].
    replace 1023 with (52 + 971) by hlia. rewrite pow2_add by hlia.
    apply Z.mul_le_mono_nonneg_r; [apply Z.lt_le_incl, pow2_pos; hlia|].
    assert (H53 : 2 ^ 53 = 2 * 2 ^ 52)
      by (replace 53 with (1 + 52) by hlia; by rewrite pow2_add).
    pose proof (pow2_pos 52 ltac:(hlia)). hlia. }
  destruct (Z.ltb_spec b 0) as [Hneg|Hpos].
  - destruct (rnd_no_overflow (- a) (- b) ltac:(hlia) ltac:(hnia)) as [x Hx].
    exists x. rewrite Hx. split; [done|].
    by apply (rnd_in_range (- a) (- b)); [hlia|].
  - destruct (rnd_no_overflow a b ltac:(hlia) ltac:(hnia)) as [x Hx].
    exists x. rewrite Hx. split; [done|].
    by apply (rnd_in_range a b); [hlia|].
Qed.

(** The error of a rounding and the size of its last place. *)
Lemma rnd_error_tight p q x :
  0 < q -> rnd p q = Some (Fin x) ->
  exists E, 0 <= E
    /\ Z.abs (2 * (x * q) - 2 * (p * scale)) <= q * 2 ^ E
    /\ (E = 0 \/ q * 2 ^ (E + 52) <= Z.abs p * scale).
Proof.
  intros Hq Hr. pose proof scale_pos as Hs.
  apply rnd_inv in Hr as [[-> [= ->]]|(Hp & [= ->] & _)].
  { exists 0. split; [done|]. split; [simpl; hlia|by left]. }
  set (a := Z.abs p * scale) in *. assert (Ha : 0 < a) by hnia.
  pose proof (ulp_exp_nonneg a q) as HE0.
  exists (ulp_exp a q). split; [done|]. split.
  - set (E := ulp_exp a q) in *.
    pose proof (pow2_pos E HE0) as HpE.
    pose proof (rhe_error a (q * 2 ^ E) ltac:(hnia)) as Herr.
    set (M := rhe a (q * 2 ^ E)) in *.
    assert (Hpa : p * scale = Z.sgn p * a) by (unfold a; hnia).
    rewrite Hpa.
    assert (Hsg : Z.sgn p = 1 \/ Z.sgn p = -1) by hlia.
    destruct Hsg as [-> | ->]; hnia.
  - destruct (Z.eq_dec (ulp_exp a q) 0) as [|Hne]; [by left|right].
    apply ulp_exp_lower; hlia.
Qed.

Lemma thousandths_error x :
  Z.abs (2 * (thousandths x * scale) - 2 * (1000 * x)) <= scale.
Proof. apply rhe_error, scale_pos. Qed.

(** Powers of two around the unit, in terms of [2^1058]. *)
Lemma scale_unit : scale = 65536 * 2 ^ 1058.
Proof.
  unfold scale, unit_exp. replace 1074 with (16 + 1058) by hlia.
  by rewrite pow2_add.
Qed.

Lemma pow2_unit k : 0 <= k -> 2 ^ (1058 + k) = 2 ^ k * 2 ^ 1058.
Proof. intros. rewrite pow2_add by hlia. hlia. Qed.
End PyFloatFacts.

(** ** The stat calculator *)

Section calculator.
Import PyFloat PyFloatFacts.

Lemma guarded_rate_is_rate a b v : guarded_rate a b = Ok v -> is_rate a b v.
Proof.
  unfold guarded_rate, is_rate. destruct (Z.ltb_spec 0 b) as [Hb|Hb].
  - unfold mbind, exc_bind. destruct (truediv a b) as [x|e] eqn:Hdiv; [|done].
    intros Hr. split; [|hlia]. intros _. by exists x.
  - intros [= <-]. split; [hlia|done].
Qed.

(** A rate is a finite double, or the division overflows. *)
Lemma guarded_rate_cases a b :
  (exists x, guarded_rate a b = Ok (Fin x) /\ Z.abs x <= max_finite)
  \/ (guarded_rate a b = Raise division_overflow
      /\ 0 < b /\ 2 ^ 1023 * b < Z.abs a).
Proof.
  unfold guarded_rate. destruct (Z.ltb_spec 0 b) as [Hb|Hb].
  - destruct (Z.le_gt_cases (Z.abs a) (2 ^ 1023 * b)) as [Hle|Hgt].
    + left. destruct (truediv_finite a b ltac:(hlia) ltac:(hlia)) as (x & Hx & Hxm).
      rewrite Hx. cbn [mbind exc_bind].
      destruct (round3_finite x Hxm) as (y & Hy & Hym & _). by exists y.
    + unfold truediv. destruct (Z.eqb_spec b 0); [hlia|].
      destruct (Z.ltb_spec b 0); [hlia|].
      destruct (rnd a b) as [y|] eqn:Hr.
      * left. destruct (rnd_finite _ _ _ Hr) as [x ->].
        pose proof (rnd_in_range a b x Hb Hr) as Hxm. cbn [mbind exc_bind].
        destruct (round3_finite x Hxm) as (y & Hy & Hym & _). by exists y.
      * right. done.
  - left. exists 0. split; [done|]. rewrite max_finite_eq.
    pose proof (pow2_mono 1 53 ltac:(hlia)) as H53. change (2 ^ 1) with 2 in H53.
    pose proof (pow2_pos 2045 ltac:(hlia)). simpl Z.abs. hnia.
Qed.

Lemma round3_add_returns x y :
  exists v, round3 (add (Fin x) (Fin y)) = Ok v.
Proof.
  unfold add. destruct (rnd (x + y) scale) as [z|] eqn:Hr; simpl.
  - destruct (rnd_finite _ _ _ Hr) as [w ->].
    pose proof (rnd_in_range _ _ _ scale_pos Hr) as Hw.
    destruct (round3_finite w Hw) as (v & Hv & _). by exists (Fin v).
  - by eexists.
Qed.

(** The unit is large. *)
Lemma scale_large : 2 ^ 46 <= scale.
Proof. unfold scale, unit_exp. apply pow2_mono. lia. Qed.

(** Arithmetic of a quotient rounded twice: [x] is [a / b] up to [w / 2]
    units, [n] is [1000 x] up to half a unit [S]. *)
Lemma twice_rounded_error n x a b S w :
  0 < b -> 0 < S ->
  Z.abs (2 * (n * S) - 2 * (1000 * x)) <= S ->
  Z.abs (2 * (x * b) - 2 * (a * S)) <= w ->
  1000 * w < S ->
  2 * Z.abs (n * b - 1000 * a) <= b.
Proof.
  intros Hb HS Hn Hx Hw.
  set (u := 2 * (n * S) - 2 * (1000 * x)) in *.
  set (v := 2 * (x * b) - 2 * (a * S)) in *.
  assert (Heq : 2 * (n * b - 1000 * a) * S = u * b + 1000 * v)
    by (unfold u, v; ring).
  assert (Hub1 : u * b <= S * b) by (apply Z.mul_le_mono_nonneg_r; lia).
  assert (Hub2 : - S * b <= u * b) by (apply Z.mul_le_mono_nonneg_r; lia).
  assert (H1 : 2 * (n * b - 1000 * a) * S < (b + 1) * S) by lia.
  assert (H2 : (- (b + 1)) * S < 2 * (n * b - 1000 * a) * S) by lia.
  apply Z.mul_lt_mono_pos_r in H1; [|done].
  apply Z.mul_lt_mono_pos_r in H2; [|done].
  lia.
Qed.

Lemma quotient_bound n a b M :
  0 < b -> 0 <= M -> Z.abs a <= M ->
  2 * Z.abs (n * b - 1000 * a) <= b -> Z.abs n <= 1000 * M + 1.
Proof.
  intros Hb HM Ha Hn.
  destruct (Z.le_gt_cases (Z.abs n) (1000 * M + 1)) as [|Hgt]; [done|exfalso].
  assert (Hnb : (1000 * M + 2) * b <= Z.abs n * b)
    by (apply Z.mul_le_mono_nonneg_r; lia).
  assert (Hb1 : 1000 * M * 1 <= 1000 * M * b)
    by (apply Z.mul_le_mono_nonneg_l; lia).
  assert (Habs : Z.abs (n * b) = Z.abs n * b)
    by (rewrite Z.abs_mul, (Z.abs_eq b); lia).
  lia.
Qed.

(** A rate of moderate size is the double nearest to a three-decimal
    number that is within half a thousandth of the exact quotient. *)
Lemma guarded_rate_decimal a b :
  Z.abs a <= 2 ^ 35 -> b <= 2 ^ 35 ->
  exists x n,
    guarded_rate a b = Ok (Fin x) /\ is_decimal n (Fin x)
    /\ Z.abs n <= 1000 * 2 ^ 36
    /\ (0 < b -> 2 * Z.abs (n * b - 1000 * a) <= b)
    /\ (b <= 0 -> n = 0).
Proof.
  change (2 ^ 35) with 34359738368. change (2 ^ 36) with 68719476736.
  intros Ha Hb. unfold guarded_rate, is_decimal.
  destruct (Z.ltb_spec 0 b) as [Hpos|Hneg].
  2:{ exists 0, 0. split; [done|]. split; [done|]. split; [simpl; lia|].
      split; [lia|done]. }
  pose proof scale_pos as Hs. pose proof scale_large as Hsl.
  change (2 ^ 46) with 70368744177664 in Hsl.
  assert (Hfit : Z.abs a * scale <= b * max_finite).
  { rewrite max_finite_scale.
    assert (HK : 34359738368 <= (2 ^ 53 - 1) * 2 ^ 971).
    { pose proof (pow2_pos 971 ltac:(lia)).
      change (2 ^ 53) with 9007199254740992. hnia. }
    rewrite (Z.mul_assoc b). apply Z.mul_le_mono_nonneg_r; [lia|].
    generalize dependent ((2 ^ 53 - 1) * 2 ^ 971). intros. nia. }
  destruct (rnd_no_overflow a b Hpos Hfit) as [x0 Hr].
  unfold truediv. destruct (Z.eqb_spec b 0) as [|_]; [lia|].
  destruct (Z.ltb_spec b 0) as [|_]; [lia|]. rewrite Hr. cbn [mbind exc_bind].
  destruct (round3_finite x0 (rnd_in_range a b x0 Hpos Hr)) as (y & Hy & _ & Hdec).
  exists y, (thousandths x0). split; [done|]. split; [done|].
  destruct (rnd_error_tight a b x0 Hpos Hr) as (E & HE0 & Herr & HE).
  pose proof (thousandths_error x0) as Hth.
  set (n := thousandths x0) in *.
  pose proof (pow2_pos E HE0) as HpE.
  assert (Hsmall : 1000 * (b * 2 ^ E) < scale).
  { destruct HE as [->|Hlow].
    - change (2 ^ 0) with 1. lia.
    - rewrite pow2_add, Z.mul_assoc in Hlow by lia.
      change (2 ^ 52) with 4503599627370496 in Hlow.
      assert (Hle : Z.abs a * scale <= 34359738368 * scale)
        by (apply Z.mul_le_mono_nonneg_r; lia).
      lia. }
  assert (Hmain : 2 * Z.abs (n * b - 1000 * a) <= b)
    by exact (twice_rounded_error n x0 a b scale (b * 2 ^ E)
                Hpos Hs Hth Herr Hsmall).
  split; [|split; [done|lia]].
  pose proof (quotient_bound n a b 34359738368 Hpos ltac:(lia) Ha Hmain). lia.
Qed.

Lemma abs_scaled_le a b S B :
  0 < S -> Z.abs (2 * (a * S) - 2 * (b * S)) <= S * B ->
  2 * Z.abs (a - b) <= B.
Proof.
  intros HS H.
  replace (2 * (a * S) - 2 * (b * S)) with (2 * (a - b) * S) in H by ring.
  rewrite Z.abs_mul, (Z.abs_eq S), (Z.mul_comm S B) in H by lia.
  apply Z.mul_le_mono_pos_r in H; lia.
Qed.

(** A three-decimal number of moderate size and its double, in terms of
    [U = 2^1058]. *)
Lemma decimal_error n y U :
  0 < U -> scale = 65536 * U -> 2 ^ 1059 = 2 * U -> 2 ^ (1059 + 52) = 2 ^ 53 * U ->
  Z.abs n <= 1000 * 2 ^ 36 -> rnd n 1000 = Some (Fin y) ->
  Z.abs (y * 1000 - n * scale) <= 1000 * U
  /\ Z.abs y <= 4503599627370497 * U.
Proof.
  change (2 ^ 36) with 68719476736. change (2 ^ 53) with 9007199254740992.
  intros HU Hsu H1059 H1111 Hn Hd.
  assert (HnU : Z.abs n * U <= 1000 * 68719476736 * U)
    by (apply Z.mul_le_mono_nonneg_r; lia).
  assert (Hlt : Z.abs n * scale < 1000 * 2 ^ (1059 + 52)).
  { rewrite H1111, Hsu. lia. }
  pose proof (rnd_error n 1000 y 1059 ltac:(lia) Hd ltac:(lia) Hlt) as He.
  rewrite H1059 in He. clear Hlt H1059 H1111.
  assert (Hns : Z.abs (n * scale) = 65536 * (Z.abs n * U)).
  { rewrite Z.abs_mul, (Z.abs_eq scale), Hsu by lia. ring. }
  split; lia.
Qed.

(** The sum of two three-decimal doubles of moderate size, rounded to three
    decimals, is the double of the sum of the decimals. *)
Lemma decimal_sum n1 n2 y1 y2 :
  Z.abs n1 <= 1000 * 2 ^ 36 -> Z.abs n2 <= 1000 * 2 ^ 36 ->
  is_decimal n1 (Fin y1) -> is_decimal n2 (Fin y2) ->
  exists w, round3 (add (Fin y1) (Fin y2)) = Ok (Fin w)
            /\ is_decimal (n1 + n2) (Fin w).
Proof.
  unfold is_decimal, of_thousandths. intros Hn1 Hn2 Hd1 Hd2.
  pose proof scale_pos as Hs. pose proof scale_unit as Hsu.
  pose proof (pow2_pos 1058 ltac:(lia)) as HU.
  pose proof (pow2_unit 1 ltac:(lia)) as H1059.
  pose proof (pow2_unit 53 ltac:(lia)) as H1111.
  pose proof (pow2_unit 54 ltac:(lia)) as H1112.
  pose proof (pow2_unit 2 ltac:(lia)) as H1060.
  pose proof (pow2_unit 987 ltac:(lia)) as H2045.
  pose proof (pow2_mono 1 987 ltac:(lia)) as H987.
  pose proof max_finite_eq as Hmax.
  change (1058 + 1) with 1059 in H1059. change (1058 + 53) with (1059 + 52) in H1111.
  change (1058 + 54) with (1060 + 52) in H1112. change (1058 + 2) with 1060 in H1060.
  change (1058 + 987) with 2045 in H2045. rewrite H2045 in Hmax.
  change (2 ^ 1) with 2 in *. change (2 ^ 2) with 4 in *.
  change (2 ^ 54) with 18014398509481984 in *.
  clear H2045.
  generalize dependent (2 ^ 987). intros T H987 Hmax.
  generalize dependent (2 ^ 1058). intros U Hsu HU H1059 H1111 H1112 H1060 Hmax.
  destruct (decimal_error n1 y1 U HU Hsu H1059 H1111 Hn1 Hd1) as [He1 Hy1].
  destruct (decimal_error n2 y2 U HU Hsu H1059 H1111 Hn2 Hd2) as [He2 Hy2].
  clear H1059 H1111.
  change (2 ^ 53) with 9007199254740992 in *.
  assert (Hy : Z.abs (y1 + y2) <= 9007199254740994 * U) by lia.
  assert (Hsum : Z.abs (y1 + y2) * scale < scale * 2 ^ (1060 + 52)).
  { rewrite H1112, (Z.mul_comm scale). apply Z.mul_lt_mono_pos_r; lia. }
  assert (Hfit : Z.abs (y1 + y2) * scale <= scale * max_finite).
  { rewrite Hmax, (Z.mul_comm scale). apply Z.mul_le_mono_nonneg_r; [lia|].
    apply Z.le_trans with (9007199254740994 * U); [done|].
    rewrite Z.mul_assoc. apply Z.mul_le_mono_nonneg_r; lia. }
  destruct (rnd_no_overflow (y1 + y2) scale Hs Hfit) as [z Hz].
  pose proof (rnd_error (y1 + y2) scale z 1060 Hs Hz ltac:(lia) Hsum) as He3.
  rewrite H1060 in He3. apply abs_scaled_le in He3; [|done].
  unfold add. rewrite Hz. cbn [default from_option].
  destruct (round3_finite z (rnd_in_range _ _ _ Hs Hz)) as (w & Hw & _ & Hdec).
  exists w. split; [done|].
  unfold of_thousandths in Hdec.
  assert (Hth : thousandths z = n1 + n2).
  { unfold thousandths. apply rhe_unique; [done|].
    clear Hsum Hfit Hmax Hdec Hw Hz Hd1 Hd2 H1112 H1060. lia. }
  by rewrite Hth in Hdec.
Qed.

(** C2 (amended): for all integer inputs, whenever the calculator returns,
    singles = H - doubles - triples - HR, PA = AB + BB + HBP + SF + SH,
    TB = singles + 2*doubles + 3*triples + 4*HR, AVG = round(H/AB, 3) if
    AB > 0 else 0.0, OBP = round((H+BB+HBP)/(AB+BB+HBP+SF), 3) if that
    denominator > 0 else 0.0, SLG = round(TB/AB, 3) if AB > 0 else 0.0; every
    division is guarded, so that no ZeroDivisionError is raised, and the only
    exception it can raise is the OverflowError of an int division whose
    quotient is too large for a float; it returns whenever H, H+BB+HBP and TB
    are at most 2^1023 in magnitude. *)
Theorem calculator_formulas ab h double triple hr bb hbp sf sh :
  let singles := h - double - triple - hr in
  let pa := ab + bb + hbp + sf + sh in
  let tb := singles + 2 * double + 3 * triple + 4 * hr in
  let obp_denom := ab + bb + hbp + sf in
  let result := compute_derived_stats_from_raw ab h double triple hr bb hbp sf sh in
  (forall d, result = Ok d ->
     d_singles d = singles /\ d_PA d = pa /\ d_TB d = tb
     /\ is_rate h ab (d_AVG d)
     /\ is_rate (h + bb + hbp) obp_denom (d_OBP d)
     /\ is_rate tb ab (d_SLG d))
  /\ (forall e, result = Raise e -> e = division_overflow)
  /\ (Z.abs h <= 2 ^ 1023 -> Z.abs (h + bb + hbp) <= 2 ^ 1023 ->
      Z.abs tb <= 2 ^ 1023 -> exists d, result = Ok d).
Proof.
  intros singles pa tb obp_denom result.
  unfold result, compute_derived_stats_from_raw. fold singles tb obp_denom.
  unfold mbind, exc_bind.
  pose proof (pow2_pos 1023 ltac:(hlia)) as H1023.
  split; [|split].
  - intros d.
    destruct (guarded_rate h ab) as [avg|] eqn:Havg; [|done].
    destruct (guarded_rate (h + bb + hbp) obp_denom) as [obp|] eqn:Hobp; [|done].
    destruct (guarded_rate tb ab) as [slg|] eqn:Hslg; [|done].
    destruct (round3 (add obp slg)) as [ops|]; [|done].
    intros [= <-]. simpl.
    split; [done|]. split; [done|]. split; [done|].
    split; [by apply guarded_rate_is_rate|].
    split; by apply guarded_rate_is_rate.
  - intros e.
    destruct (guarded_rate_cases h ab) as [(x1 & -> & H1)|[-> _]];
      [|by intros [= <-]].
    destruct (guarded_rate_cases (h + bb + hbp) obp_denom)
      as [(x2 & -> & H2)|[-> _]]; [|by intros [= <-]].
    destruct (guarded_rate_cases tb ab) as [(x3 & -> & H3)|[-> _]];
      [|by intros [= <-]].
    destruct (round3_add_returns x2 x3) as [v ->]. done.
  - intros Hh Hn Htb.
    destruct (guarded_rate_cases h ab) as [(x1 & -> & H1)|(_ & ? & ?)]; [|hnia].
    destruct (guarded_rate_cases (h + bb + hbp) obp_denom)
      as [(x2 & -> & H2)|(_ & ? & ?)]; [|hnia].
    destruct (guarded_rate_cases tb ab) as [(x3 & -> & H3)|(_ & ? & ?)]; [|hnia].
    destruct (round3_add_returns x2 x3) as [v ->]. by eexists.
Qed.

(** C2 (as stated, "it never raises for any input"): with one at-bat and
    2^1024 hits, the division H / AB raises OverflowError. *)
Lemma calculator_raises_on_huge_quotient :
  compute_derived_stats_from_raw 1 (2 ^ 1024) 0 0 0 0 0 0 0
  = Raise division_overflow.
Proof. vm_compute. reflexivity. Qed.

Lemma calculator_formulas_witness :
  exists d,
    compute_derived_stats_from_raw 10 3 1 0 1 2 1 1 0 = Ok d
    /\ d_singles d = 1 /\ d_PA d = 14 /\ d_TB d = 7
    /\ is_rate 3 10 (d_AVG d) /\ is_rate 6 14 (d_OBP d) /\ is_rate 7 10 (d_SLG d).
Proof.
  destruct (calculator_formulas 10 3 1 0 1 2 1 1 0) as (Hok & _ & Hret).
  destruct Hret as [d Hd].
  - vm_compute. discriminate.
  - vm_compute. discriminate.
  - vm_compute. discriminate.
  - exists d. split; [exact Hd|]. exact (Hok d Hd).
Defined.


(** C3 (as stated, OPS equals round(OBP,3) + round(SLG,3) exactly): with
    AB = 10, H = 1 and one double, OBP is 0.1 and SLG is 0.2, both unchanged
    by a further rounding to three decimals; their float sum is
    0.30000000000000004 while the returned OPS is 0.3. *)
Lemma ops_differs_from_float_sum_of_rounded_rates :
  exists d,
    compute_derived_stats_from_raw 10 1 1 0 0 0 0 0 0 = Ok d
    /\ is_decimal 100 (d_OBP d) /\ is_decimal 200 (d_SLG d)
    /\ is_decimal 300 (d_OPS d)
    /\ round3 (d_OBP d) = Ok (d_OBP d) /\ round3 (d_SLG d) = Ok (d_SLG d)
    /\ d_OPS d <> add (d_OBP d) (d_SLG d).
Proof.
  eexists. split; [vm_compute; reflexivity|].
  repeat split; try (vm_compute; reflexivity).
  vm_compute. discriminate.
Qed.

(** C3 (amended): the returned OPS is round(OBP + SLG, 3) computed from the
    returned, already rounded OBP and SLG; it need not be their float sum,
    but for inputs of magnitude at most 2^31 it is exact in decimals: OBP,
    SLG and OPS are the doubles nearest to three-decimal numbers, and the
    decimal of OPS is the sum of the decimals of OBP and SLG.  For such
    inputs with AB > 0, the decimal of SLG times AB differs from TB by at
    most half a thousandth per at-bat. *)
Theorem ops_is_decimal_sum_of_rounded_rates ab h double triple hr bb hbp sf sh :
  small_stat ab -> small_stat h -> small_stat double -> small_stat triple ->
  small_stat hr -> small_stat bb -> small_stat hbp -> small_stat sf ->
  small_stat sh ->
  let tb := h - double - triple - hr + 2 * double + 3 * triple + 4 * hr in
  exists d n_obp n_slg,
    compute_derived_stats_from_raw ab h double triple hr bb hbp sf sh = Ok d
    /\ d_TB d = tb
    /\ round3 (add (d_OBP d) (d_SLG d)) = Ok (d_OPS d)
    /\ is_decimal n_obp (d_OBP d) /\ is_decimal n_slg (d_SLG d)
    /\ is_decimal (n_obp + n_slg) (d_OPS d)
    /\ (0 < ab -> 2 * Z.abs (n_slg * ab - 1000 * tb) <= ab).
Proof.
  intros Hab Hh Hd Ht Hhr Hbb Hhbp Hsf Hsh tb.
  unfold small_stat in *. change (2 ^ 31) with 2147483648 in *.
  unfold compute_derived_stats_from_raw. fold tb.
  destruct (guarded_rate_decimal h ab) as (x1 & m1 & -> & _);
    [change (2 ^ 35) with 34359738368; hlia ..|].
  destruct (guarded_rate_decimal (h + bb + hbp) (ab + bb + hbp + sf))
    as (x2 & m2 & -> & Hd2 & Hm2 & _);
    [change (2 ^ 35) with 34359738368; hlia ..|].
  destruct (guarded_rate_decimal tb ab) as (x3 & m3 & -> & Hd3 & Hm3 & Hslg & _);
    [change (2 ^ 35) with 34359738368; unfold tb; hlia ..|].
  destruct (decimal_sum m2 m3 x2 x3 Hm2 Hm3 Hd2 Hd3) as (w & Hw & Hdw).
  cbn [mbind exc_bind]. rewrite Hw.
  exists (mk_derived (h - double - triple - hr) (ab + bb + hbp + sf + sh) tb
            (Fin x1) (Fin x2) (Fin x3) (Fin w)), m2, m3.
  split; [done|]. split; [done|]. split; [done|]. split; [done|].
  split; [done|]. split; [done|]. done.
Qed.

Lemma ops_is_decimal_sum_of_rounded_rates_witness :
  exists d n_obp n_slg,
    compute_derived_stats_from_raw 10 1 1 0 0 0 0 0 0 = Ok d
    /\ d_TB d = 1 - 1 - 0 - 0 + 2 * 1 + 3 * 0 + 4 * 0
    /\ round3 (add (d_OBP d) (d_SLG d)) = Ok (d_OPS d)
    /\ is_decimal n_obp (d_OBP d) /\ is_decimal n_slg (d_SLG d)
    /\ is_decimal (n_obp + n_slg) (d_OPS d)
    /\ (0 < 10 -> 2 * Z.abs (n_slg * 10
                              - 1000 * (1 - 1 - 0 - 0 + 2 * 1 + 3 * 0 + 4 * 0))
                  <= 10).
Proof.
  apply (ops_is_decimal_sum_of_rounded_rates 10 1 1 0 0 0 0 0 0);
    vm_compute; discriminate.
Defined.
End calculator.

(** ** The sectioned layout *)

Lemma slice_lookup {A} (start stop k : nat) (l : list A) (x : A) :
  slice start stop l !! k = Some x
  <-> (start + k < stop)%nat /\ l !! (start + k)%nat = Some x.
Proof.
  unfold slice. split.
  - intros Hk. destruct (decide (k < stop - start)%nat) as [Hlt|Hge].
    + rewrite lookup_take_lt, lookup_drop in Hk by done. split; [lia|done].
    + rewrite lookup_take_ge in Hk by lia. done.
  - intros [Hlt Hk]. rewrite lookup_take_lt by lia. by rewrite lookup_drop.
Qed.

Lemma hittrax_row_fields values team p :
  hittrax_row values team = Ok p ->
  ps_player_name p = PyStr.strip (default EmptyString (values !! 0%nat))
  /\ ps_team p = team
  /\ safe_int_field values 2 = Ok (c_AB (ps_stats p))
  /\ safe_int_field values 3 = Ok (c_R (ps_stats p))
  /\ safe_int_field values 4 = Ok (c_H (ps_stats p))
  /\ safe_int_field values 6 = Ok (c_double (ps_stats p))
  /\ safe_int_field values 7 = Ok (c_triple (ps_stats p))
  /\ safe_int_field values 8 = Ok (c_HR (ps_stats p))
  /\ safe_int_field values 9 = Ok (c_RBI (ps_stats p))
  /\ safe_int_field values 11 = Ok (c_K (ps_stats p))
  /\ safe_int_field values 13 = Ok (c_BB (ps_stats p))
  /\ c_HBP (ps_stats p) = 0 /\ c_SF (ps_stats p) = 0 /\ c_SH (ps_stats p) = 0
  /\ c_SB (ps_stats p) = 0 /\ c_CS (ps_stats p) = 0.
Proof.
  unfold hittrax_row, mbind, exc_bind.
  repeat match goal with
         | |- context [safe_int_field values ?i] =>
             destruct (safe_int_field values i); [|done]
         end.
  intros [= <-]. simpl. repeat split.
Qed.

Lemma row_is_kept_true p :
  row_is_kept p = true ->
  ps_player_name p <> EmptyString /\ ps_player_name p <> "Unknown"
  /\ (0 < c_AB (ps_stats p) \/ 0 < c_H (ps_stats p) \/ 0 < c_R (ps_stats p)).
Proof.
  unfold row_is_kept.
  rewrite !andb_true_iff, !orb_true_iff, !negb_true_iff, !bool_decide_eq_false,
    !Z.ltb_lt. tauto.
Qed.

Lemma parse_hittrax_line_kept team line p :
  parse_hittrax_line team line = Ok (Some p) -> row_of_line line team p.
Proof.
  unfold parse_hittrax_line, row_of_line.
  destruct (bool_decide _); [done|].
  destruct (has_batting_order line); [done|].
  destruct (looks_like_labels line); [done|].
  set (values := clean_value <$> PyStr.split "," line).
  destruct (Nat.ltb_spec (List.length values) 10) as [|Hlen]; [done|].
  destruct (_ || _); [done|].
  destruct (hittrax_row values team) as [p'|e] eqn:Hrow; [|by destruct e].
  destruct (row_is_kept p') eqn:Hkept; [|done].
  intros [= ->].
  apply hittrax_row_fields in Hrow. apply row_is_kept_true in Hkept.
  cbv zeta. tauto.
Qed.

Lemma parse_section_elem team lines : forall players,
  _parse_hittrax_team_section lines team = Ok players ->
  forall p, p ∈ players
    <-> exists line, line ∈ lines /\ parse_hittrax_line team line = Ok (Some p).
Proof.
  induction lines as [|line lines IH]; simpl; intros players.
  - intros [= <-] p. split; [by intros ?%elem_of_nil|].
    by intros (l & ?%elem_of_nil & _).
  - unfold mbind, exc_bind.
    destruct (parse_hittrax_line team line) as [o|] eqn:Hline; [|done].
    destruct (_parse_hittrax_team_section lines team) as [rest|]; [|done].
    intros [= <-] p. specialize (IH rest eq_refl p).
    destruct o as [p0|].
    + rewrite elem_of_cons, IH. split.
      * intros [->|(l & Hl & Hp)]; [exists line; split; [left|done]|].
        exists l. split; [by right|done].
      * intros (l & [->|Hl]%elem_of_cons & Hp); [left; congruence|].
        right. by exists l.
    + rewrite IH. split.
      * intros (l & Hl & Hp). exists l. split; [by right|done].
      * intros (l & [->|Hl]%elem_of_cons & Hp); [congruence|]. by exists l.
Qed.

Lemma detect_with_two_headers text name1 i1 name2 i2 :
  find_headers 0 (PyStr.splitlines text) = [(name1, i1); (name2, i2)] ->
  _detect_teams_from_hittrax_format text
  = (players1 ← _parse_hittrax_team_section
                   (slice (S i1) i2 (PyStr.splitlines text)) name1;
     players2 ← _parse_hittrax_team_section
                   (drop (S i2) (PyStr.splitlines text)) name2;
     hittrax_result name1 name2 players1 players2).
Proof.
  intros Hh. unfold _detect_teams_from_hittrax_format, settle_teams.
  rewrite Hh. reflexivity.
Qed.

(** C1: with exactly two detected team-header lines, at indices [i1] and
    [i2], team 1's roster is parsed from exactly the lines strictly between
    the two headers and team 2's from exactly the lines after the second
    header; a player record of a roster comes from a line of that roster
    with at least 10 comma-separated fields, its name (field 0) is not empty
    and not "Unknown", one of AB, H, R is positive, its numbers are read at
    the fixed positions 2 (AB), 3 (R), 4 (H), 6 (doubles), 7 (triples),
    8 (HR), 9 (RBI), 11 (K), 13 (BB), a position past the end of the line
    reading as 0, and HBP, SF, SH, SB and CS are 0. *)
Theorem sectioned_parsing_with_two_headers text name1 i1 name2 i2 :
  let lines := PyStr.splitlines text in
  let section1 := slice (S i1) i2 lines in
  let section2 := drop (S i2) lines in
  find_headers 0 lines = [(name1, i1); (name2, i2)] ->
  (forall k line, section1 !! k = Some line
     <-> (S i1 + k < i2)%nat /\ lines !! (S i1 + k)%nat = Some line)
  /\ (forall k line, section2 !! k = Some line
        <-> lines !! (S i2 + k)%nat = Some line)
  /\ _detect_teams_from_hittrax_format text
     = (players1 ← _parse_hittrax_team_section section1 name1;
        players2 ← _parse_hittrax_team_section section2 name2;
        hittrax_result name1 name2 players1 players2)
  /\ forall td, _detect_teams_from_hittrax_format text = Ok td ->
       team1_name td = name1 /\ team2_name td = name2
       /\ _parse_hittrax_team_section section1 name1 = Ok (team1_players td)
       /\ _parse_hittrax_team_section section2 name2 = Ok (team2_players td)
       /\ (forall p, p ∈ team1_players td ->
             exists line, line ∈ section1 /\ row_of_line line name1 p)
       /\ (forall p, p ∈ team2_players td ->
             exists line, line ∈ section2 /\ row_of_line line name2 p).
Proof.
  intros lines section1 section2 Hh.
  split; [intros k line; apply slice_lookup|].
  split; [intros k line; unfold section2; by rewrite lookup_drop|].
  pose proof (detect_with_two_headers _ _ _ _ _ Hh) as Heq.
  fold lines section1 section2 in Heq. split; [done|].
  intros td. rewrite Heq. unfold mbind, exc_bind.
  destruct (_parse_hittrax_team_section section1 name1) as [players1|] eqn:H1;
    [|done].
  destruct (_parse_hittrax_team_section section2 name2) as [players2|] eqn:H2;
    [|done].
  unfold hittrax_result. destruct (_ || _); [done|]. intros [= <-]. simpl.
  repeat split; try done.
  - intros p Hp. apply (parse_section_elem _ _ _ H1) in Hp as (line & Hl & Hp).
    exists line. split; [done|]. by apply parse_hittrax_line_kept.
  - intros p Hp. apply (parse_section_elem _ _ _ H2) in Hp as (line & Hl & Hp).
    exists line. split; [done|]. by apply parse_hittrax_line_kept.
Qed.

Lemma sectioned_parsing_with_two_headers_witness :
  exists td,
    _detect_teams_from_hittrax_format demo_hittrax_text = Ok td
    /\ team1_name td = "Hawks" /\ team2_name td = "Owls"
    /\ (ps_player_name <$> team1_players td) = ["Ann"; "Bob"]
    /\ (ps_player_name <$> team2_players td) = ["Cy"]
    /\ (forall p, p ∈ team1_players td ->
          exists line,
            line ∈ slice 1 4 (PyStr.splitlines demo_hittrax_text)
            /\ row_of_line line "Hawks" p)
    /\ (forall p, p ∈ team2_players td ->
          exists line,
            line ∈ drop 5 (PyStr.splitlines demo_hittrax_text)
            /\ row_of_line line "Owls" p).
Proof.
  assert (Hh : find_headers 0 (PyStr.splitlines demo_hittrax_text)
               = [("Hawks", 0%nat); ("Owls", 4%nat)])
    by (vm_compute; reflexivity).
  destruct (sectioned_parsing_with_two_headers demo_hittrax_text
              "Hawks" 0%nat "Owls" 4%nat Hh) as (_ & _ & _ & Htd).
  eexists. split; [vm_compute; reflexivity|].
  match goal with
  | |- team1_name ?td = _ /\ _ =>
      destruct (Htd td) as (Hn1 & Hn2 & _ & _ & Hp1 & Hp2);
      [vm_compute; reflexivity|]
  end.
  split; [exact Hn1|]. split; [exact Hn2|].
  split; [reflexivity|]. split; [reflexivity|]. split; [exact Hp1|exact Hp2].
Defined.

(** A file with known values: the rows of both rosters field by field, the
    runs and the winner. *)
Example sectioned_parsing_known_values :
  _detect_teams_from_hittrax_format demo_hittrax_text
  = Ok (mk_team_data "Hawks" "Owls"
          [mk_player_stats "Ann" "Hawks" (mk_counting 4 2 1 0 0 1 0 0 0 1 1 2 0 0);
           mk_player_stats "Bob" "Hawks" (mk_counting 3 0 0 0 0 0 0 0 0 2 0 0 0 0)]
          [mk_player_stats "Cy" "Owls" (mk_counting 4 3 0 0 1 0 0 0 0 0 2 3 0 0)]
          1 2 (Some "Owls")).
Proof. vm_compute. reflexivity. Qed.

(** ** Facts about insertion-ordered dictionaries *)

Section odict_facts.
Context {K V : Type} `{EqDecision K}.
Implicit Types (d : list (K * V)) (k : K) (v : V).

Lemma odict_get_set_eq k v d : odict.get k (odict.set k v d) = Some v.
Proof.
  induction d as [|[k' v'] d IH]; simpl.
  - by rewrite decide_True.
  - destruct (decide (k = k')) as [->|Hne]; simpl.
    + by rewrite decide_True.
    + by rewrite decide_False.
Qed.

Lemma odict_get_set_ne k k' v d :
  k <> k' -> odict.get k' (odict.set k v d) = odict.get k' d.
Proof.
  intros Hne. induction d as [|[k0 v0] d IH]; simpl.
  - by rewrite decide_False.
  - destruct (decide (k = k0)) as [->|Hne0]; simpl.
    + by rewrite !decide_False.
    + destruct (decide (k' = k0)); done.
Qed.

Lemma odict_set_id k v d : odict.get k d = Some v -> odict.set k v d = d.
Proof.
  induction d as [|[k0 v0] d IH]; simpl; [done|].
  destruct (decide (k = k0)) as [->|Hne]; intros Hg.
  - by simplify_eq.
  - by rewrite IH.
Qed.

Lemma odict_mem_get k d : odict.mem k d = true <-> is_Some (odict.get k d).
Proof.
  unfold odict.mem. destruct (odict.get k d); split; intros Hx; done.
Qed.

Lemma odict_keys_set k v d :
  NoDup (odict.keys d) -> NoDup (odict.keys (odict.set k v d)).
Proof.
  unfold odict.keys. induction d as [|[k0 v0] d IH]; simpl.
  - intros _. apply NoDup_singleton.
  - intros Hnd. apply NoDup_cons in Hnd as [Hin Hnd].
    destruct (decide (k = k0)) as [->|Hne]; simpl.
    + by apply NoDup_cons.
    + apply NoDup_cons. split; [|by apply IH].
      intros Hk. apply Hin. clear -Hk Hne.
      induction d as [|[k1 v1] d IH]; simpl in *.
      * apply list_elem_of_singleton in Hk. congruence.
      * destruct (decide (k = k1)) as [->|Hne1]; simpl in *; [done|].
        apply elem_of_cons in Hk as [->|Hk]; [left|right; by apply IH].
Qed.

Lemma odict_get_elem_of k v d :
  NoDup (odict.keys d) -> (k, v) ∈ d <-> odict.get k d = Some v.
Proof.
  unfold odict.keys. induction d as [|[k0 v0] d IH]; simpl.
  - intros _. split; [by intros ?%elem_of_nil|done].
  - intros Hnd. apply NoDup_cons in Hnd as [Hin Hnd].
    destruct (decide (k = k0)) as [->|Hne].
    + split.
      * intros [Heq|Hk]%elem_of_cons; [by simplify_eq|].
        exfalso. apply Hin. apply list_elem_of_fmap. by exists (k0, v).
      * intros ?; simplify_eq. left.
    + rewrite elem_of_cons, IH by done. split; [|by right].
      intros [?|?]; [simplify_eq|done].
Qed.
End odict_facts.

(** ** The derived fields of a row *)

Lemma compute_derived_stats_ok ht d :
  derived_of (ht_stats ht) = Ok d ->
  compute_derived_stats ht = (with_derived ht d, Ok tt).
Proof.
  destruct ht as [pid lg se gm c s0 p0 t0 a0 o0 l0 x0].
  unfold derived_of, compute_derived_stats_from_raw, compute_derived_stats,
    with_derived; simpl.
  destruct (guarded_rate (c_H c) (c_AB c)) as [avg|]; simpl; [|done].
  destruct (guarded_rate (c_H c + c_BB c + c_HBP c) _) as [obp|]; simpl; [|done].
  destruct (guarded_rate _ (c_AB c)) as [slg|]; simpl; [|done].
  destruct (PyFloat.round3 _) as [ops|]; simpl; [|done].
  by intros [= <-].
Qed.

Lemma compute_derived_stats_inv ht ht' :
  compute_derived_stats ht = (ht', Ok tt) ->
  exists d, derived_of (ht_stats ht) = Ok d /\ ht' = with_derived ht d.
Proof.
  destruct ht as [pid lg se gm c s0 p0 t0 a0 o0 l0 x0].
  unfold derived_of, compute_derived_stats_from_raw, compute_derived_stats,
    with_derived; simpl.
  destruct (guarded_rate (c_H c) (c_AB c)) as [avg|]; simpl; [|done].
  destruct (guarded_rate (c_H c + c_BB c + c_HBP c) _) as [obp|]; simpl; [|done].
  destruct (guarded_rate _ (c_AB c)) as [slg|]; simpl; [|done].
  destruct (PyFloat.round3 _) as [ops|]; simpl; [|done].
  intros [= <-]. eexists. split; [done|]. done.
Qed.

Lemma compute_derived_stats_key ht ht' r :
  compute_derived_stats ht = (ht', r) -> ht_key ht' = ht_key ht.
Proof.
  destruct ht as [pid lg se gm c s0 p0 t0 a0 o0 l0 x0].
  unfold compute_derived_stats.
  repeat (match goal with
          | |- context [match ?x with Ok _ => _ | Raise _ => _ end] => destruct x
          end);
    by intros [= <- _].
Qed.

(** ** The index invariant *)

Lemma ht_wf_empty : ht_wf empty_store.
Proof.
  unfold ht_wf; simpl. split; [done|]. split.
  - intros key id Hk. by rewrite lookup_empty in Hk.
  - done.
Qed.

Lemma ht_wf_index_None key s :
  ht_wf s -> existing_hitter_total_id key s = None ->
  _hitter_total_index s !! key = None.
Proof.
  intros (Hc & Hidx & Hrow). unfold existing_hitter_total_id.
  destruct (_ !! key) as [id|] eqn:Hk; [|done].
  destruct (Hidx _ _ Hk) as (Hpos & ht & Hget & _).
  assert (odict.mem id (_hitter_totals s) = true) as ->
    by (apply odict_mem_get; eauto).
  destruct (Z.eqb_spec id 0); [lia|done].
Qed.

Lemma ht_wf_existing key id s :
  ht_wf s -> existing_hitter_total_id key s = Some id ->
  _hitter_total_index s !! key = Some id.
Proof.
  intros _. unfold existing_hitter_total_id.
  destruct (_ !! key) as [id'|]; [|done].
  by destruct (negb _ && _); intros [= ->].
Qed.

(** Overwriting a row by one with the same key keeps the invariant. *)
Lemma ht_wf_overwrite id ht s :
  ht_wf s -> _hitter_total_index s !! ht_key ht = Some id ->
  ht_wf (set_hitter_totals (odict.set id ht (_hitter_totals s)) s).
Proof.
  intros (Hc & Hidx & Hrow) Hk. unfold ht_wf; simpl.
  split; [done|]. split.
  - intros key id' Hk'. destruct (Hidx _ _ Hk') as (Hpos & ht' & Hget & Hkey).
    split; [done|]. destruct (decide (id = id')) as [->|Hne].
    + exists ht. rewrite odict_get_set_eq. split; [done|].
      destruct (Hidx _ _ Hk) as (_ & ht0 & Hget0 & Hkey0).
      congruence.
    + exists ht'. by rewrite odict_get_set_ne.
  - intros id' ht' Hget. destruct (decide (id = id')) as [->|Hne].
    + rewrite odict_get_set_eq in Hget. simplify_eq.
      destruct (Hidx _ _ Hk) as (_ & ht0 & Hget0 & _).
      split; [|done]. by apply (Hrow _ _ Hget0).
    + rewrite odict_get_set_ne in Hget by done. by apply Hrow.
Qed.

Lemma create_or_update_hitter_total_wf ht s r s' :
  ht_wf s -> create_or_update_hitter_total ht s = (r, s') ->
  ht_wf s' /\ same_entities s s'
  /\ (exists id, get_hitter_total (ht_player_id ht) (ht_league ht) (ht_season ht) s'
                 = Some (id, ht))
  /\ (forall p l se, (p, l, se) <> ht_key ht ->
        get_hitter_total p l se s' = get_hitter_total p l se s).
Proof.
  intros Hwf. unfold create_or_update_hitter_total.
  destruct (existing_hitter_total_id _ s) as [id|] eqn:Hex; intros [= <- <-].
  - apply ht_wf_existing in Hex as Hk; [|done].
    split; [by apply ht_wf_overwrite|]. split; [done|].
    destruct Hwf as (Hc & Hidx & Hrow).
    destruct (Hidx _ _ Hk) as (Hpos & ht0 & Hget0 & Hkey0). split.
    + exists id. unfold get_hitter_total; simpl.
      change (ht_player_id ht, ht_league ht, ht_season ht) with (ht_key ht).
      rewrite Hk. destruct (Z.eqb_spec id 0); [lia|].
      by rewrite odict_get_set_eq.
    + intros p l se Hne. unfold get_hitter_total; simpl.
      destruct (_ !! (p, l, se)) as [id'|] eqn:Hk'; [|done].
      destruct (id' =? 0); [done|].
      destruct (decide (id = id')) as [->|Hne']; [|by rewrite odict_get_set_ne].
      destruct (Hidx _ _ Hk') as (_ & ht1 & Hget1 & Hkey1). congruence.
  - apply ht_wf_index_None in Hex as Hk; [|done].
    destruct Hwf as (Hc & Hidx & Hrow).
    set (id := _hitter_total_id_counter s + 1).
    assert (Hfresh : odict.get id (_hitter_totals s) = None).
    { destruct (odict.get id _) as [ht0|] eqn:Hget0; [|done].
      apply Hrow in Hget0 as [Hle _]. unfold id in Hle. lia. }
    split; [|split; [done|split]].
    + unfold ht_wf; simpl. split; [lia|]. split.
      * intros key id' Hk'. destruct (decide (ht_key ht = key)) as [<-|Hne].
        -- rewrite lookup_insert_eq in Hk'. simplify_eq. split; [lia|].
           exists ht. by rewrite odict_get_set_eq.
        -- rewrite lookup_insert_ne in Hk' by done.
           destruct (Hidx _ _ Hk') as (Hpos & ht' & Hget & Hkey).
           split; [done|]. exists ht'. split; [|done].
           rewrite odict_get_set_ne; [done|]. intros ->. congruence.
      * intros id' ht' Hget. destruct (decide (id = id')) as [<-|Hne].
        -- rewrite odict_get_set_eq in Hget. simplify_eq.
           split; [lia|]. by rewrite lookup_insert_eq.
        -- rewrite odict_get_set_ne in Hget by done.
           destruct (Hrow _ _ Hget) as [Hle Hk']. split; [lia|].
           rewrite lookup_insert_ne; [done|]. intros Heq. congruence.
    + exists id. unfold get_hitter_total; simpl.
      change (ht_player_id ht, ht_league ht, ht_season ht) with (ht_key ht).
      rewrite lookup_insert_eq. destruct (Z.eqb_spec id 0); [lia|].
      by rewrite odict_get_set_eq.
    + intros p l se Hne. unfold get_hitter_total; simpl.
      rewrite lookup_insert_ne by done.
      destruct (_ !! (p, l, se)) as [id'|] eqn:Hk'; [|done].
      destruct (id' =? 0); [done|].
      rewrite odict_get_set_ne; [done|]. intros <-.
      destruct (Hidx _ _ Hk') as (_ & ht1 & Hget1 & _). congruence.
Qed.

(** ** One turn of the recompute loop *)

Lemma get_hitter_total_wf p l se id ht s :
  ht_wf s -> get_hitter_total p l se s = Some (id, ht) ->
  _hitter_total_index s !! (p, l, se) = Some id
  /\ odict.get id (_hitter_totals s) = Some ht /\ ht_key ht = (p, l, se).
Proof.
  intros (Hc & Hidx & Hrow). unfold get_hitter_total.
  destruct (_ !! (p, l, se)) as [id'|] eqn:Hk; [|done].
  destruct (id' =? 0); [done|].
  destruct (odict.get id' _) as [ht'|] eqn:Hget; [|done].
  intros [= -> ->]. split; [done|]. split; [done|].
  destruct (Hidx _ _ Hk) as (_ & ht0 & Hget0 & Hkey0). congruence.
Qed.

Lemma get_hitter_total_None_wf p l se s :
  ht_wf s -> get_hitter_total p l se s = None ->
  _hitter_total_index s !! (p, l, se) = None.
Proof.
  intros (Hc & Hidx & Hrow). unfold get_hitter_total.
  destruct (_ !! (p, l, se)) as [id'|] eqn:Hk; [|done].
  destruct (Hidx _ _ Hk) as (Hpos & ht0 & Hget0 & _).
  destruct (Z.eqb_spec id' 0); [lia|]. by rewrite Hget0.
Qed.

Lemma get_hitter_total_overwrite id ht s p l se :
  ht_wf s -> _hitter_total_index s !! ht_key ht = Some id ->
  (p, l, se) <> ht_key ht ->
  get_hitter_total p l se
    (set_hitter_totals (odict.set id ht (_hitter_totals s)) s)
  = get_hitter_total p l se s.
Proof.
  intros (Hc & Hidx & Hrow) Hk Hne. unfold get_hitter_total; simpl.
  destruct (_ !! (p, l, se)) as [id'|] eqn:Hk'; [|done].
  destruct (id' =? 0); [done|].
  rewrite odict_get_set_ne; [done|]. intros <-.
  destruct (Hidx _ _ Hk) as (_ & ht0 & Hget0 & Hkey0).
  destruct (Hidx _ _ Hk') as (_ & ht1 & Hget1 & Hkey1). congruence.
Qed.

Lemma fresh_total_with_derived p l se a ht0 d :
  ht_key ht0 = (p, l, se) ->
  derived_of (acc_stats a) = Ok d ->
  fresh_total p l se a = Ok (with_derived (assign_stats a ht0) d).
Proof.
  intros Hkey Hd. unfold fresh_total. rewrite Hd. simpl.
  destruct ht0; unfold ht_key in Hkey; simpl in *. by simplify_eq.
Qed.

Lemma recompute_player_ok l se p a s s' :
  ht_wf s -> recompute_player l se (p, a) s = (Ok tt, s') ->
  ht_wf s' /\ same_entities s s'
  /\ (exists id ht, fresh_total p l se a = Ok ht
                    /\ get_hitter_total p l se s' = Some (id, ht))
  /\ (forall p' l' se', (p', l', se') <> (p, l, se) ->
        get_hitter_total p' l' se' s' = get_hitter_total p' l' se' s).
Proof.
  intros Hwf. unfold recompute_player.
  destruct (get_hitter_total p l se s) as [[id ht0]|] eqn:Hget.
  - destruct (get_hitter_total_wf _ _ _ _ _ _ Hwf Hget) as (Hk & Hrow & Hkey).
    destruct (compute_derived_stats _) as [ht2 r] eqn:Hcds.
    destruct r as [[]|e]; [|done].
    apply compute_derived_stats_inv in Hcds as (d & Hd & ->).
    set (ht2 := with_derived _ d).
    assert (Hkey2 : ht_key ht2 = (p, l, se)).
    { destruct ht0; unfold ht_key in *; simpl in *. done. }
    assert (Hwf2 : ht_wf (write_back (Some id) ht2 s)).
    { apply ht_wf_overwrite; [done|]. by rewrite Hkey2. }
    destruct (create_or_update_hitter_total ht2 _) as [r3 s3] eqn:Hup.
    destruct (create_or_update_hitter_total_wf _ _ _ _ Hwf2 Hup)
      as (Hwf3 & Hsame & [id3 Hget3] & Hother).
    destruct r3 as [x|e]; intros [= <-].
    split; [done|]. split; [done|]. split.
    + exists id3, ht2. split.
      * by apply fresh_total_with_derived.
      * assert (Heq : (ht_player_id ht2, ht_league ht2, ht_season ht2) = (p, l, se))
          by exact Hkey2.
        by simplify_eq.
    + intros p' l' se' Hne. rewrite Hother by (by rewrite Hkey2).
      apply get_hitter_total_overwrite; [done| by rewrite Hkey2 | by rewrite Hkey2].
  - destruct (compute_derived_stats _) as [ht2 r] eqn:Hcds.
    destruct r as [[]|e]; [|done].
    apply compute_derived_stats_inv in Hcds as (d & Hd & ->).
    set (ht2 := with_derived _ d).
    assert (Hkey2 : ht_key ht2 = (p, l, se)) by done.
    simpl write_back.
    destruct (create_or_update_hitter_total ht2 _) as [r3 s3] eqn:Hup.
    destruct (create_or_update_hitter_total_wf _ _ _ _ Hwf Hup)
      as (Hwf3 & Hsame & [id3 Hget3] & Hother).
    destruct r3 as [x|e]; intros [= <-].
    split; [done|]. split; [done|]. split.
    + exists id3, ht2. split; [by apply fresh_total_with_derived|done].
    + intros p' l' se' Hne. by apply Hother.
Qed.

(** ** The whole loop *)

Lemma same_entities_refl s : same_entities s s.
Proof. by repeat split. Qed.

Lemma same_entities_trans s1 s2 s3 :
  same_entities s1 s2 -> same_entities s2 s3 -> same_entities s1 s3.
Proof.
  unfold same_entities. intros (?&?&?&?&?&?&?) (?&?&?&?&?&?&?).
  repeat split; congruence.
Qed.

Lemma recompute_loop l se (entries : list (Z * accum)) : forall s s',
  ht_wf s -> NoDup entries.*1 ->
  se_for entries (recompute_player l se) s = (Ok tt, s') ->
  ht_wf s' /\ same_entities s s'
  /\ (forall p a, (p, a) ∈ entries ->
        exists id ht, fresh_total p l se a = Ok ht
                      /\ get_hitter_total p l se s' = Some (id, ht))
  /\ (forall p' l' se', (l' = l -> se' = se -> p' ∉ entries.*1) ->
        get_hitter_total p' l' se' s' = get_hitter_total p' l' se' s).
Proof.
  induction entries as [|[p a] entries IH]; intros s s' Hwf Hnd; simpl.
  - intros [= <-]. split; [done|]. split; [apply same_entities_refl|].
    split; [by intros ?? ?%elem_of_nil|done].
  - apply NoDup_cons in Hnd as [Hnotin Hnd].
    unfold mbind, se_bind.
    destruct (recompute_player l se (p, a) s) as [[[]|e] s1] eqn:Hstep; [|done].
    intros Hrest.
    destruct (recompute_player_ok _ _ _ _ _ _ Hwf Hstep)
      as (Hwf1 & Hsame1 & (id & ht & Hfresh & Hget) & Hother1).
    destruct (IH _ _ Hwf1 Hnd Hrest) as (Hwf' & Hsame' & Hrows & Hother).
    split; [done|]. split; [by eapply same_entities_trans|]. split.
    + intros p0 a0 [[= -> ->]|Hin]%elem_of_cons.
      * exists id, ht. split; [done|]. rewrite Hother; [done|]. by intros _ _.
      * by apply Hrows.
    + intros p' l' se' Hout. rewrite Hother.
      * apply Hother1. intros [= -> -> ->]. apply (Hout eq_refl eq_refl). left.
      * intros Hl Hse Hin. apply (Hout Hl Hse). by right.
Qed.

(** ** Grouping plate appearances by player *)

Lemma accumulate_keys ps pa :
  NoDup (odict.keys ps) -> NoDup (odict.keys (accumulate ps pa)).
Proof. apply odict_keys_set. Qed.

Lemma group_by_player_keys_from pas : forall ps,
  NoDup (odict.keys ps) -> NoDup (odict.keys (fold_left accumulate pas ps)).
Proof.
  induction pas as [|pa pas IH]; intros ps Hnd; simpl; [done|].
  apply IH. by apply accumulate_keys.
Qed.

Lemma group_by_player_keys pas : NoDup (group_by_player pas).*1.
Proof. apply (group_by_player_keys_from pas []). apply NoDup_nil_2. Qed.

Lemma group_by_player_get_from p pas : forall ps,
  odict.get p (fold_left accumulate pas ps)
  = match player_rows p pas with
    | [] => odict.get p ps
    | rows => Some (fold_left accum_add rows (default accum_zero (odict.get p ps)))
    end.
Proof.
  induction pas as [|pa pas IH]; intros ps; simpl; [done|].
  rewrite IH. unfold player_rows; simpl. unfold accumulate.
  destruct (decide (pa_player_id pa = p)) as [->|Hne].
  - rewrite bool_decide_eq_true_2 by done. rewrite odict_get_set_eq. simpl.
    by destruct (List.filter _ pas).
  - rewrite bool_decide_eq_false_2 by done.
    rewrite odict_get_set_ne by done. done.
Qed.

Lemma group_by_player_get p pas :
  odict.get p (group_by_player pas)
  = match player_rows p pas with
    | [] => None
    | _ => Some (fold_player p pas)
    end.
Proof.
  unfold group_by_player, fold_player. rewrite group_by_player_get_from.
  by destruct (player_rows p pas).
Qed.




(** ** Properties of the recompute *)

Lemma recompute_hitter_totals_ok l se s s' :
  ht_wf s -> recompute_hitter_totals l se s = (Ok tt, s') ->
  ht_wf s' /\ same_entities s s'
  /\ (forall p,
        match player_rows p (relevant_pas l se s) with
        | [] => get_hitter_total p l se s' = get_hitter_total p l se s
        | _ => exists id ht,
            fresh_total p l se (fold_player p (relevant_pas l se s)) = Ok ht
            /\ get_hitter_total p l se s' = Some (id, ht)
        end)
  /\ (forall p l' se', (l', se') <> (l, se) ->
        get_hitter_total p l' se' s' = get_hitter_total p l' se' s).
Proof.
  intros Hwf Hrun. unfold recompute_hitter_totals in Hrun.
  set (pas := relevant_pas l se s) in *.
  destruct (recompute_loop _ _ _ _ _ Hwf (group_by_player_keys pas) Hrun)
    as (Hwf' & Hsame & Hrows & Hother).
  split; [done|]. split; [done|]. split.
  - intros p. pose proof (group_by_player_get p pas) as Hget.
    destruct (player_rows p pas) as [|pa rows] eqn:Hp.
    + apply Hother. intros _ _ Hin.
      apply list_elem_of_fmap in Hin as [[p' a] [Hp' Hin]].
      apply odict_get_elem_of in Hin; [|apply group_by_player_keys].
      simpl in Hp'. subst p'. congruence.
    + apply Hrows. apply odict_get_elem_of; [apply group_by_player_keys|done].
  - intros p l' se' Hne. apply Hother. intros -> ->. done.
Qed.

Lemma fresh_total_fixed p l se a ht id s :
  ht_wf s -> fresh_total p l se a = Ok ht ->
  get_hitter_total p l se s = Some (id, ht) ->
  recompute_player l se (p, a) s = (Ok tt, s).
Proof.
  intros Hwf Hfresh Hget. unfold recompute_player. rewrite Hget.
  destruct (get_hitter_total_wf _ _ _ _ _ _ Hwf Hget) as (Hk & Hrow & Hkey).
  unfold fresh_total in Hfresh.
  destruct (derived_of (acc_stats a)) as [d|] eqn:Hd; [|done].
  simpl in Hfresh. injection Hfresh as <-.
  set (ht := mk_HT _ _ _ _ _ _ _ _ _ _ _ _) in *.
  assert (Hassign : assign_stats a ht = ht) by done.
  rewrite Hassign. rewrite (compute_derived_stats_ok ht d) by done.
  assert (Hwd : with_derived ht d = ht) by done. rewrite Hwd.
  assert (Hback : write_back (Some id) ht s = s).
  { unfold write_back. rewrite odict_set_id by done. by destruct s. }
  rewrite Hback. unfold create_or_update_hitter_total.
  assert (Hex : existing_hitter_total_id (ht_key ht) s = Some id).
  { unfold existing_hitter_total_id. rewrite Hkey, Hk.
    destruct Hwf as (_ & Hidx & _). destruct (Hidx _ _ Hk) as (Hpos & _).
    destruct (Z.eqb_spec id 0); [lia|]. simpl.
    assert (odict.mem id (_hitter_totals s) = true) as ->
      by (apply odict_mem_get; eauto). done. }
  rewrite Hex. rewrite odict_set_id by done. by destruct s.
Qed.

Lemma recompute_loop_fixed l se s (entries : list (Z * accum)) :
  ht_wf s ->
  (forall p a, (p, a) ∈ entries ->
     exists id ht, fresh_total p l se a = Ok ht
                   /\ get_hitter_total p l se s = Some (id, ht)) ->
  se_for entries (recompute_player l se) s = (Ok tt, s).
Proof.
  intros Hwf. induction entries as [|[p a] entries IH]; intros Hrows; simpl.
  - done.
  - unfold mbind, se_bind.
    destruct (Hrows p a) as (id & ht & Hfresh & Hget); [left|].
    rewrite (fresh_total_fixed _ _ _ _ _ _ _ Hwf Hfresh Hget).
    apply IH. intros p' a' Hin. apply Hrows. by right.
Qed.

Lemma relevant_pas_same l se s s' :
  same_entities s s' -> relevant_pas l se s' = relevant_pas l se s.
Proof.
  intros (_ & Hg & Hpa & _). unfold relevant_pas, get_all_plate_appearances.
  by rewrite Hg, Hpa.
Qed.

Lemma ht_wf_no_totals s :
  _hitter_totals s = [] -> _hitter_total_index s = ∅ ->
  0 <= _hitter_total_id_counter s -> ht_wf s.
Proof.
  intros Hrows Hidx Hc. unfold ht_wf. rewrite Hrows, Hidx.
  split; [done|]. split; [|done].
  intros key id Hk. by rewrite lookup_empty in Hk.
Qed.

Lemma ht_wf_stale_store : ht_wf stale_store.
Proof.
  unfold stale_store.
  destruct (create_or_update_hitter_total stale_row empty_store) as [r s'] eqn:Hup.
  by destruct (create_or_update_hitter_total_wf _ _ _ _ ht_wf_empty Hup).
Qed.



Lemma ht_wf_demo_store : ht_wf demo_store.
Proof. by apply ht_wf_no_totals. Qed.




(** Player 8 has two rows in one game, which counts once. *)
Example games_played_same_game_counts_once :
  (ht_games <$> (snd <$> get_hitter_total 8 "L" "2024"
     (recompute_hitter_totals "L" "2024" demo_store).2)) = Some 1.
Proof. vm_compute. reflexivity. Qed.

(** C7: a second recompute for the same league and season, with nothing
    ingested in between, returns and leaves the whole store, hence every
    hitter total, exactly as the first one left it. *)
Theorem recompute_hitter_totals_idempotent l se s s' :
  ht_wf s -> recompute_hitter_totals l se s = (Ok tt, s') ->
  recompute_hitter_totals l se s' = (Ok tt, s').
Proof.
  intros Hwf Hrun.
  destruct (recompute_hitter_totals_ok _ _ _ _ Hwf Hrun)
    as (Hwf' & Hsame & Hp & _).
  unfold recompute_hitter_totals. rewrite (relevant_pas_same _ _ _ _ Hsame).
  apply recompute_loop_fixed; [done|]. intros p a Hin.
  apply odict_get_elem_of in Hin; [|apply group_by_player_keys].
  rewrite group_by_player_get in Hin. specialize (Hp p).
  destruct (player_rows p (relevant_pas l se s)); [done|].
  by simplify_eq.
Qed.

Lemma recompute_hitter_totals_idempotent_witness :
  recompute_hitter_totals "L" "2024"
    (recompute_hitter_totals "L" "2024" demo_store).2
  = (Ok tt, (recompute_hitter_totals "L" "2024" demo_store).2).
Proof.
  apply (recompute_hitter_totals_idempotent "L" "2024" demo_store).
  - apply ht_wf_demo_store.
  - vm_compute. reflexivity.
Defined.

(** ** Invariants through the state monad *)

Section preserves.
Context (I : MemoryStore -> Prop).

Lemma preserves_ret {A} (a : A) : preserves I (mret a).
Proof. by intros s Hs. Qed.

Lemma preserves_bind {A B} (m : SE MemoryStore A) (f : A -> SE MemoryStore B) :
  preserves I m -> (forall a, preserves I (f a)) -> preserves I (m ≫= f).
Proof.
  intros Hm Hf s Hs. unfold mbind, se_bind.
  specialize (Hm s Hs). destruct (m s) as [[a|e] s1]; simpl in *; [|done].
  by apply Hf.
Qed.

Lemma preserves_lift {A} (x : Exc A) : preserves I (se_lift x).
Proof. by intros s Hs. Qed.

Lemma preserves_raise {A} (e : exn) : preserves I (se_raise (A := A) e).
Proof. by intros s Hs. Qed.

Lemma preserves_get : preserves I se_get.
Proof. by intros s Hs. Qed.

Lemma preserves_for {A} (l : list A) (f : A -> SE MemoryStore unit) :
  (forall a, preserves I (f a)) -> preserves I (se_for l f).
Proof.
  intros Hf. induction l as [|a l IH]; simpl.
  - apply preserves_ret.
  - apply preserves_bind; [apply Hf|]. by intros _.
Qed.
End preserves.

(** ** Operations that leave the players alone *)

Lemma same_players_refl s : same_players s s.
Proof. by repeat split. Qed.

Lemma same_players_trans s1 s2 s3 :
  same_players s1 s2 -> same_players s2 s3 -> same_players s1 s3.
Proof.
  unfold same_players. intros (?&?&?) (?&?&?). repeat split; congruence.
Qed.

Lemma player_wf_same s s' : same_players s s' -> player_wf s -> player_wf s'.
Proof.
  unfold same_players, player_wf. intros (-> & -> & ->). done.
Qed.

Lemma create_game_players g s0 :
  preserves (same_players s0) (create_game g).
Proof. intros s Hs. exact Hs. Qed.

Lemma create_plate_appearance_players pa s0 :
  preserves (same_players s0) (create_plate_appearance pa).
Proof. intros s Hs. exact Hs. Qed.

Lemma create_or_update_hitter_total_players ht s0 :
  preserves (same_players s0) (create_or_update_hitter_total ht).
Proof.
  intros s Hs. unfold create_or_update_hitter_total.
  by destruct (existing_hitter_total_id _ s).
Qed.

Lemma recompute_player_players l se entry s0 :
  preserves (same_players s0) (recompute_player l se entry).
Proof.
  intros s Hs. destruct entry as [p a]. unfold recompute_player.
  destruct (get_hitter_total p l se s) as [[id ht0]|];
    destruct (compute_derived_stats _) as [ht2 [[]|e]]; simpl; try done.
  - set (s2 := set_hitter_totals _ s).
    pose proof (create_or_update_hitter_total_players ht2 s0 s2 Hs) as H2.
    by destruct (create_or_update_hitter_total ht2 s2) as [[x|e] s3].
  - pose proof (create_or_update_hitter_total_players ht2 s0 s Hs) as H2.
    by destruct (create_or_update_hitter_total ht2 s) as [[x|e] s3].
Qed.

Lemma recompute_hitter_totals_players l se s0 :
  preserves (same_players s0) (recompute_hitter_totals l se).
Proof.
  intros s Hs. unfold recompute_hitter_totals.
  apply preserves_for; [|done]. intros entry. apply recompute_player_players.
Qed.

(** An operation that leaves the players alone keeps their invariant. *)
Lemma preserves_player_wf {A} (m : SE MemoryStore A) :
  (forall s0, preserves (same_players s0) m) -> preserves player_wf m.
Proof.
  intros Hm s Hs. apply (player_wf_same s); [|done].
  apply Hm. apply same_players_refl.
Qed.

(** ** Find-or-create keeps players unique *)

Section odict_more.
Context {K V : Type} `{EqDecision K}.
Implicit Types (d : list (K * V)) (k : K) (v : V).

Lemma odict_get_is_Some k v d : (k, v) ∈ d -> is_Some (odict.get k d).
Proof.
  induction d as [|[k0 v0] d IH]; simpl.
  - by intros ?%elem_of_nil.
  - intros Hin. destruct (decide (k = k0)); [by eexists|].
    apply elem_of_cons in Hin as [?|?]; [simplify_eq|by apply IH].
Qed.

Lemma odict_set_fresh k v d :
  (forall v', (k, v') ∉ d) -> odict.set k v d = d ++ [(k, v)].
Proof.
  induction d as [|[k0 v0] d IH]; simpl; [done|].
  intros Hfresh. destruct (decide (k = k0)) as [->|Hne].
  - exfalso. apply (Hfresh v0). left.
  - f_equal. apply IH. intros v' Hin. apply (Hfresh v'). by right.
Qed.
End odict_more.

Lemma get_player_by_name_team_None name team s :
  player_wf s -> get_player_by_name_team name team s = None ->
  forall id p, (id, p) ∈ _players s -> player_key_of p <> player_key name team.
Proof.
  intros (Hc & Hrows & Hnd) Hnone id p Hin Hkey.
  destruct (Hrows _ _ Hin) as [[Hpos Hle] Hidx].
  unfold get_player_by_name_team in Hnone. rewrite <- Hkey, Hidx in Hnone.
  destruct (Z.eqb_spec id 0); [lia|].
  destruct (odict_get_is_Some _ _ _ Hin) as [p' Hget]. by rewrite Hget in Hnone.
Qed.

Lemma create_player_wf player s :
  player_wf s ->
  get_player_by_name_team (p_name player) (p_team player) s = None ->
  player_wf (create_player player s).2.
Proof.
  intros Hwf Hnone.
  pose proof (get_player_by_name_team_None _ _ _ Hwf Hnone) as Hnew.
  destruct Hwf as (Hc & Hrows & Hnd).
  set (id := _player_id_counter s + 1).
  assert (Hfresh : forall p', (id, p') ∉ _players s).
  { intros p' Hin. destruct (Hrows _ _ Hin) as [[_ Hle] _]. unfold id in Hle. lia. }
  unfold player_wf, create_player; simpl. fold id.
  rewrite (odict_set_fresh _ _ _ Hfresh).
  split; [lia|]. split.
  - intros id' p' [Hin|Hin]%elem_of_app.
    + destruct (Hrows _ _ Hin) as [[Hpos Hle] Hidx]. split; [lia|].
      rewrite lookup_insert_ne; [done|]. intros Heq.
      by apply (Hnew _ _ Hin).
    + apply list_elem_of_singleton in Hin as [= -> ->]. split; [lia|].
      apply lookup_insert_eq.
  - unfold odict.values. rewrite fmap_app, fmap_app. simpl.
    apply NoDup_app. split; [done|]. split; [|apply NoDup_singleton].
    intros key Hin1 Hin2. apply list_elem_of_singleton in Hin2 as ->.
    apply list_elem_of_fmap in Hin1 as [p' [Hk Hin1]].
    apply list_elem_of_fmap in Hin1 as [[id' p''] [-> Hin1]]. simpl in Hk.
    by apply (Hnew _ _ Hin1).
Qed.

Section ingest_facts.
Variable read_csv : string -> Exc DataFrame.
Variable float_str : PyFloat.float -> string.
Variable column_total : list cell -> Exc Z.

Lemma ingest_player_wf game_id team league p :
  preserves player_wf (ingest_player game_id team league p).
Proof.
  intros s Hwf. unfold ingest_player.
  destruct (_ || _); [done|].
  unfold mbind, se_bind, se_get, mret, se_ret; simpl.
  destruct (get_player_by_name_team (ps_player_name p) team s)
    as [[id pl]|] eqn:Hget; simpl; [done|].
  by apply (create_player_wf (mk_Player (ps_player_name p) team (Some league))).
Qed.

Lemma ingest_players_wf game_id team league players :
  preserves player_wf (ingest_players game_id team league players).
Proof.
  induction players as [|p players IH]; simpl; [apply preserves_ret|].
  apply preserves_bind; [apply ingest_player_wf|]. intros n.
  apply preserves_bind; [apply IH|]. intros m. apply preserves_ret.
Qed.

Lemma ingest_rows_wf game_id team league df rows :
  preserves player_wf (ingest_rows float_str game_id team league df rows).
Proof.
  induction rows as [|row rows IH]; simpl; [apply preserves_ret|].
  apply preserves_bind; [apply preserves_lift|]. intros p.
  apply preserves_bind; [apply ingest_player_wf|]. intros n.
  apply preserves_bind; [apply IH|]. intros m. apply preserves_ret.
Qed.

Lemma ingest_roster_wf game_id team league r :
  preserves player_wf (ingest_roster float_str game_id team league r).
Proof.
  destruct r; [apply ingest_players_wf|apply ingest_rows_wf].
Qed.

Lemma ingest_game_csv_wf text league season game_date home_team away_team :
  preserves player_wf
    (ingest_game_csv read_csv float_str column_total text league season
       game_date home_team away_team).
Proof.
  unfold ingest_game_csv.
  apply preserves_bind; [apply preserves_lift|]. intros l.
  apply preserves_bind.
  { apply preserves_player_wf. intros s0. apply create_game_players. }
  intros game.
  apply preserves_bind; [apply ingest_roster_wf|]. intros n1.
  apply preserves_bind; [apply ingest_roster_wf|]. intros n2.
  apply preserves_ret.
Qed.

Lemma upload_csv_body_wf text league season game_date home_team away_team :
  preserves player_wf
    (upload_csv_body read_csv float_str column_total text league season
       game_date home_team away_team).
Proof.
  unfold upload_csv_body.
  apply preserves_bind; [apply preserves_lift|]. intros detected.
  intros s Hwf. unfold mbind, se_bind, se_get. simpl.
  destruct (check_duplicate_game _ _ _ _ _ s) as [existing|]; [done|].
  revert s Hwf. apply preserves_bind; [apply ingest_game_csv_wf|].
  intros ingested. apply preserves_bind; [|intros; apply preserves_ret].
  apply preserves_player_wf. intros s0. apply recompute_hitter_totals_players.
Qed.

Lemma upload_csv_wf text league season game_date home_team away_team :
  preserves player_wf
    (upload_csv read_csv float_str column_total text league season
       game_date home_team away_team).
Proof.
  intros s Hwf. unfold upload_csv.
  pose proof (upload_csv_body_wf text league season game_date home_team
                away_team s Hwf) as Hb.
  destruct (upload_csv_body _ _ _ _ _ _ _ _ _ s) as [[r|e] s'];
    [done|]. by destruct e.
Qed.

Lemma player_wf_empty : player_wf empty_store.
Proof.
  unfold player_wf; simpl. split; [done|]. split.
  - by intros id p ?%elem_of_nil.
  - apply NoDup_nil_2.
Qed.

Lemma reachable_player_wf s :
  reachable read_csv float_str column_total s -> player_wf s.
Proof.
  induction 1 as [|s text league season game_date home_team away_team _ IH
                  |s text league season game_date home_team away_team _ IH
                  |s league season _ IH].
  - apply player_wf_empty.
  - by apply upload_csv_wf.
  - by apply ingest_game_csv_wf.
  - apply (preserves_player_wf (recompute_hitter_totals league season)); [|done].
    intros s0. apply recompute_hitter_totals_players.
Qed.

(** C9: in every store that uploads, ingestions and recomputes lead to, no
    two Player records have the same normalized (name, team) pair, where
    normalizing lowercases and trims both fields. *)
Theorem players_unique_by_normalized_name_and_team s :
  reachable read_csv float_str column_total s ->
  NoDup ((fun p => (PyStr.strip (PyStr.lower (p_name p)),
                    PyStr.strip (PyStr.lower (p_team p))))
           <$> odict.values (_players s)).
Proof.
  intros Hr. by destruct (reachable_player_wf s Hr) as (_ & _ & Hnd).
Qed.

(** ** Duplicate games *)



End ingest_facts.

Lemma players_unique_by_normalized_name_and_team_witness :
  NoDup ((fun p => (PyStr.strip (PyStr.lower (p_name p)),
                    PyStr.strip (PyStr.lower (p_team p))))
           <$> odict.values (_players demo_uploaded_twice)).
Proof.
  apply (players_unique_by_normalized_name_and_team
           demo_read_csv demo_float_str demo_column_total).
  apply reachable_upload, reachable_upload, reachable_empty.
Defined.

(** The first upload creates players 1, 2 and 3; the second names Ann and Cy
    in other letter cases and with spaces around: no new player is created
    for them, and their plate appearances refer to players 1 and 3. *)
Example second_upload_creates_no_player :
  let s := demo_uploaded_twice in
  (odict.keys (_players s),
   pa_player_id <$> odict.values (_plate_appearances s))
  = ([1; 2; 3], [1; 2; 3; 1; 3]).
Proof. vm_compute. reflexivity. Qed.


(** ** Facts about strings *)

Section strip_facts.
Variable P : ascii -> bool.

Lemma lstrip_by_head s : head_kept P (PyStr.lstrip_by P s).
Proof.
  induction s as [|c s IH]; simpl; [done|].
  destruct (P c) eqn:Hc; [done|]. simpl. done.
Qed.

Lemma lstrip_by_id s : head_kept P s -> PyStr.lstrip_by P s = s.
Proof. destruct s as [|c s]; simpl; [done|]. by intros ->. Qed.

Lemma rstrip_by_head s : head_kept P s -> head_kept P (PyStr.rstrip_by P s).
Proof.
  destruct s as [|c s]; simpl; [done|]. intros Hc.
  destruct (PyStr.rstrip_by P s); simpl; [by rewrite Hc|done].
Qed.

Lemma rstrip_by_idem s :
  PyStr.rstrip_by P (PyStr.rstrip_by P s) = PyStr.rstrip_by P s.
Proof.
  induction s as [|c s IH]; simpl; [done|].
  destruct (PyStr.rstrip_by P s) as [|c1 r1] eqn:Hr.
  - destruct (P c) eqn:Hc; simpl; [done|]. by rewrite Hc.
  - simpl in IH. simpl. by rewrite IH.
Qed.

Lemma strip_by_idem s :
  PyStr.strip_by P (PyStr.strip_by P s) = PyStr.strip_by P s.
Proof.
  unfold PyStr.strip_by.
  rewrite (lstrip_by_id (PyStr.rstrip_by P (PyStr.lstrip_by P s))).
  - apply rstrip_by_idem.
  - apply rstrip_by_head, lstrip_by_head.
Qed.
End strip_facts.

Lemma strip_idem s : PyStr.strip (PyStr.strip s) = PyStr.strip s.
Proof. apply strip_by_idem. Qed.

Lemma prefix_app n b : String.prefix n (n +:+ b) = true.
Proof.
  induction n as [|c n IH]; simpl.
  - by destruct b.
  - destruct (Ascii.ascii_dec c c); [done|congruence].
Qed.

Lemma contains_unfold n s :
  PyStr.contains n s
  = String.prefix n s
    || match s with
       | EmptyString => false
       | String _ s' => PyStr.contains n s'
       end.
Proof. by destruct s. Qed.

Lemma contains_here n b : PyStr.contains n (n +:+ b) = true.
Proof.
  rewrite contains_unfold, prefix_app. done.
Qed.

Lemma contains_app_r n a x :
  PyStr.contains n x = true -> PyStr.contains n (a +:+ x) = true.
Proof.
  intros Hx. induction a as [|c a IH]; simpl; [done|].
  rewrite IH. apply orb_true_r.
Qed.

Lemma contains_middle n a b : PyStr.contains n (a +:+ n +:+ b) = true.
Proof. apply contains_app_r, contains_here. Qed.

(** ** Distinct values *)



Section flat_facts.
Variable float_str : PyFloat.float -> string.
Variable column_total : list cell -> Exc Z.







End flat_facts.



(** Three distinct teams: the error shows all three. *)
Example flat_detection_three_teams :
  _detect_teams_from_csv demo_float_str demo_column_total
    (mk_df ["team"] [[CStr "A"]; [CStr "B"]; [CStr " C"]; [CStr "A "]])
  = Raise (ValueError
      ("CSV must contain exactly 2 teams. Found 3 teams: ['A', 'B', 'C']. "
       +:+ "Please split the CSV or ensure only 2 teams are present.")).
Proof. vm_compute. reflexivity. Qed.

(** ** Ingestion with both team names supplied *)

Section odict_set_elem.
Context {K V : Type} `{EqDecision K}.

End odict_set_elem.

Section manual_facts.
Variable read_csv : string -> Exc DataFrame.
Variable float_str : PyFloat.float -> string.
Variable column_total : list cell -> Exc Z.






End manual_facts.



(** ** More on the calculators *)

Section calculator_more.
Import PyFloat PyFloatFacts.

Lemma get_game_avg_guarded h ab : get_game_avg h ab = guarded_rate h ab.
Proof. reflexivity. Qed.

(** A decimal within half a thousandth of a quotient between 0 and [k]. *)
Lemma decimal_range n a b k :
  0 < b -> 0 <= a -> a <= k * b -> 0 <= k ->
  2 * Z.abs (n * b - 1000 * a) <= b -> 0 <= n <= 1000 * k.
Proof.
  intros Hb Ha Hak Hk Hn. split.
  - destruct (Z.le_gt_cases 0 n) as [|Hneg]; [done|exfalso].
    assert (n * b <= -1 * b) by (apply Z.mul_le_mono_nonneg_r; lia). lia.
  - destruct (Z.le_gt_cases n (1000 * k)) as [|Hbig]; [done|exfalso].
    assert ((1000 * k + 1) * b <= n * b) by (apply Z.mul_le_mono_nonneg_r; lia).
    lia.
Qed.

(** X1: for 0 <= H <= AB <= 2^35, get_game_avg returns the double nearest to
    a three-decimal number n/1000 with 0 <= n <= 1000 that is within half a
    thousandth of H/AB (n = 0 when AB = 0); it does not raise. *)
Theorem get_game_avg_in_unit_interval h ab :
  0 <= h -> h <= ab -> ab <= 2 ^ 35 ->
  exists x n,
    get_game_avg h ab = Ok (Fin x) /\ is_decimal n (Fin x)
    /\ 0 <= n <= 1000
    /\ (0 < ab -> 2 * Z.abs (n * ab - 1000 * h) <= ab)
    /\ (ab = 0 -> n = 0).
Proof.
  intros Hh Hle Hab.
  destruct (guarded_rate_decimal h ab) as (x & n & Hr & Hd & _ & Herr & Hz);
    [lia|done|].
  exists x, n. split; [done|]. split; [done|]. split; [|split; [done|]].
  - destruct (Z.lt_ge_cases 0 ab) as [Hpos|Hneg].
    + pose proof (decimal_range n h ab 1 Hpos Hh ltac:(lia) ltac:(lia) (Herr Hpos)).
      lia.
    + rewrite Hz by lia. lia.
  - intros ->. by apply Hz.
Qed.

Lemma get_game_avg_in_unit_interval_witness :
  exists x n,
    get_game_avg 1 3 = Ok (Fin x) /\ is_decimal n (Fin x)
    /\ 0 <= n <= 1000
    /\ (0 < 3 -> 2 * Z.abs (n * 3 - 1000 * 1) <= 3)
    /\ (3 = 0 -> n = 0).
Proof.
  apply (get_game_avg_in_unit_interval 1 3); [lia|lia|].
  vm_compute. discriminate.
Defined.

(** A rate that is a decimal is left unchanged by [round(., 3)]. *)
Lemma round3_decimal n y :
  Z.abs n <= 1000 * 2 ^ 36 -> is_decimal n (Fin y) -> round3 (Fin y) = Ok (Fin y).
Proof.
  unfold is_decimal, of_thousandths. intros Hn Hd.
  pose proof scale_pos as Hs. pose proof scale_unit as Hsu.
  pose proof (pow2_pos 1058 ltac:(lia)) as HU.
  pose proof (pow2_unit 1 ltac:(lia)) as H1059.
  pose proof (pow2_unit 53 ltac:(lia)) as H1111.
  change (1058 + 1) with 1059 in H1059.
  change (1058 + 53) with (1059 + 52) in H1111.
  change (2 ^ 1) with 2 in *.
  generalize dependent (2 ^ 1058). intros U Hsu HU H1059 H1111.
  destruct (decimal_error n y U HU Hsu H1059 H1111 Hn Hd) as [He _].
  assert (Hth : thousandths y = n).
  { unfold thousandths. apply rhe_unique; [done|]. clear H1059 H1111 Hd. lia. }
  unfold round3, of_thousandths. by rewrite Hth, Hd.
Qed.

(** Rounding to three decimals is idempotent on values of magnitude at
    most 2^36. *)
Lemma round3_idempotent x y :
  Z.abs x <= 2 ^ 36 * scale ->
  round3 (Fin x) = Ok y -> round3 y = Ok y.
Proof.
  intros Hx. unfold round3 at 1.
  destruct (of_thousandths (thousandths x)) as [v|] eqn:Hd; [|done].
  intros [= <-]. pose proof Hd as Hd'. unfold of_thousandths in Hd'.
  destruct (rnd_finite _ _ _ Hd') as [w ->].
  apply (round3_decimal (thousandths x)); [|done].
  pose proof scale_pos as Hs. unfold thousandths.
  change (2 ^ 36) with 68719476736 in *.
  pose proof (rhe_le (1000 * x) scale (1000 * 68719476736) Hs ltac:(lia)).
  pose proof (rhe_ge (1000 * x) scale (- (1000 * 68719476736)) Hs ltac:(lia)).
  lia.
Qed.

(** X2: what [get_game_avg] returns is already rounded: for |H| <= 2^35
    and AB <= 2^35 it returns a value v with round(v, 3) = v, so rounding
    an average again for display changes nothing. *)
Theorem game_avg_is_rounded h ab :
  Z.abs h <= 2 ^ 35 -> ab <= 2 ^ 35 ->
  exists v, get_game_avg h ab = Ok v /\ round3 v = Ok v.
Proof.
  intros Hh Hab.
  destruct (guarded_rate_decimal h ab Hh Hab) as (x & n & Hr & Hd & Hn & _).
  exists (Fin x). split; [done|]. by apply (round3_decimal n).
Qed.

Lemma game_avg_is_rounded_witness :
  exists v, get_game_avg 2 3 = Ok v /\ round3 v = Ok v.
Proof.
  apply (game_avg_is_rounded 2 3); vm_compute; discriminate.
Defined.

(** X3: the calculator on the fields of a row and the calculator on raw
    counts agree: when the raw one returns, the row gets exactly its values
    and keeps its identity, games and counts; when the raw one raises, the
    row version raises the same exception, after singles, PA and TB have
    been assigned. *)
Theorem calculators_agree ht :
  let c := ht_stats ht in
  match derived_of c with
  | Ok d => compute_derived_stats ht = (with_derived ht d, Ok tt)
  | Raise e =>
      exists ht', compute_derived_stats ht = (ht', Raise e)
        /\ ht_key ht' = ht_key ht /\ ht_games ht' = ht_games ht
        /\ ht_stats ht' = c
        /\ ht_singles ht' = c_H c - c_double c - c_triple c - c_HR c
        /\ ht_PA ht' = c_AB c + c_BB c + c_HBP c + c_SF c + c_SH c
        /\ ht_TB ht' = ht_singles ht' + 2 * c_double c + 3 * c_triple c
                       + 4 * c_HR c
  end.
Proof.
  destruct ht as [pid lg se gm c s0 p0 t0 a0 o0 l0 x0]. cbn [ht_stats].
  unfold derived_of, compute_derived_stats_from_raw, compute_derived_stats,
    with_derived. cbn [mbind exc_bind].
  destruct (guarded_rate (c_H c) (c_AB c)) as [avg|]; cbn; [|by eexists].
  destruct (guarded_rate (c_H c + c_BB c + c_HBP c) _) as [obp|]; cbn;
    [|by eexists].
  destruct (guarded_rate _ (c_AB c)) as [slg|]; cbn; [|by eexists].
  destruct (PyFloat.round3 _) as [ops|]; cbn; [done|by eexists].
Qed.

(** X4: for a consistent batting line with counts of at most 2^31 the
    calculator returns, singles is not negative, TB is between H and 4 H,
    and AVG, OBP, SLG and OPS are the doubles nearest to three-decimal
    numbers in [0, 1], [0, 1], [0, 4] and [0, 5]. *)
Theorem derived_stats_in_range ab h double triple hr bb hbp sf sh :
  valid_line ab h double triple hr bb hbp sf ->
  ab <= 2 ^ 31 -> bb <= 2 ^ 31 -> hbp <= 2 ^ 31 -> sf <= 2 ^ 31 ->
  exists d n_avg n_obp n_slg,
    compute_derived_stats_from_raw ab h double triple hr bb hbp sf sh = Ok d
    /\ 0 <= d_singles d /\ h <= d_TB d <= 4 * h
    /\ is_decimal n_avg (d_AVG d) /\ 0 <= n_avg <= 1000
    /\ is_decimal n_obp (d_OBP d) /\ 0 <= n_obp <= 1000
    /\ is_decimal n_slg (d_SLG d) /\ 0 <= n_slg <= 4000
    /\ is_decimal (n_obp + n_slg) (d_OPS d).
Proof.
  intros (Hd & Ht & Hhr & Hx & Hh & Hbb & Hhbp & Hsf).
  change (2 ^ 31) with 2147483648. intros Hab Hbb' Hhbp' Hsf'.
  unfold compute_derived_stats_from_raw.
  set (tb := h - double - triple - hr + 2 * double + 3 * triple + 4 * hr).
  destruct (guarded_rate_decimal h ab) as (x1 & m1 & -> & Hd1 & _ & He1 & Hz1);
    [change (2 ^ 35) with 34359738368; lia ..|].
  destruct (guarded_rate_decimal (h + bb + hbp) (ab + bb + hbp + sf))
    as (x2 & m2 & -> & Hd2 & Hm2 & He2 & Hz2);
    [change (2 ^ 35) with 34359738368; lia ..|].
  destruct (guarded_rate_decimal tb ab) as (x3 & m3 & -> & Hd3 & Hm3 & He3 & Hz3);
    [change (2 ^ 35) with 34359738368; unfold tb; lia ..|].
  destruct (decimal_sum m2 m3 x2 x3 Hm2 Hm3 Hd2 Hd3) as (w & Hw & Hdw).
  cbn [mbind exc_bind]. rewrite Hw.
  eexists _, m1, m2, m3. split; [reflexivity|]. cbn.
  split; [lia|]. split; [unfold tb; lia|].
  split; [done|]. split.
  { destruct (Z.lt_ge_cases 0 ab) as [Hpos|Hneg]; [|rewrite Hz1 by lia; lia].
    pose proof (decimal_range m1 h ab 1 Hpos ltac:(lia) ltac:(lia) ltac:(lia)
                  (He1 Hpos)). lia. }
  split; [done|]. split.
  { destruct (Z.lt_ge_cases 0 (ab + bb + hbp + sf)) as [Hpos|Hneg];
      [|rewrite Hz2 by lia; lia].
    pose proof (decimal_range m2 (h + bb + hbp) _ 1 Hpos ltac:(lia) ltac:(lia)
                  ltac:(lia) (He2 Hpos)). lia. }
  split; [done|]. split; [|done].
  destruct (Z.lt_ge_cases 0 ab) as [Hpos|Hneg]; [|rewrite Hz3 by lia; lia].
  pose proof (decimal_range m3 tb ab 4 Hpos ltac:(unfold tb; lia)
                ltac:(unfold tb; lia) ltac:(lia) (He3 Hpos)). lia.
Qed.

Lemma derived_stats_in_range_witness :
  exists d n_avg n_obp n_slg,
    compute_derived_stats_from_raw 10 3 1 0 1 2 1 1 0 = Ok d
    /\ 0 <= d_singles d /\ 3 <= d_TB d <= 4 * 3
    /\ is_decimal n_avg (d_AVG d) /\ 0 <= n_avg <= 1000
    /\ is_decimal n_obp (d_OBP d) /\ 0 <= n_obp <= 1000
    /\ is_decimal n_slg (d_SLG d) /\ 0 <= n_slg <= 4000
    /\ is_decimal (n_obp + n_slg) (d_OPS d).
Proof.
  apply (derived_stats_in_range 10 3 1 0 1 2 1 1 0).
  - unfold valid_line. lia.
  - vm_compute. discriminate.
  - vm_compute. discriminate.
  - vm_compute. discriminate.
  - vm_compute. discriminate.
Defined.
End calculator_more.

(** ** Lenient integer coercion *)

(** X5: [_safe_int] raises for no value but a string, and then only the
    OverflowError of converting an infinite float: the cleaned string, or
    the first number found in it, reads as an infinity. *)
Theorem safe_int_raises_only_on_infinity value e :
  safe_int_cell value = Raise e ->
  e = OverflowError "cannot convert float infinity to integer"
  /\ exists s number neg,
       value = CStr s
       /\ (number = clean_value s
           \/ PyParse.first_number (clean_value s) = Some number)
       /\ PyParse.float_of_string number = Some (PyFloat.Inf neg).
Proof.
  destruct value as [|s|n|x]; simpl; [done| |done|by destruct (PyFloat.to_int x)].
  unfold safe_int_str. fold (clean_value s).
  destruct (_ || _); [done|].
  unfold PyParse.int_of_float_string.
  destruct (PyParse.float_of_string (clean_value s)) as [[x|neg|]|] eqn:Hf;
    simpl; [done| | |].
  - intros [= <-]. split; [done|]. exists s, (clean_value s), neg. by auto.
  - destruct (PyParse.first_number (clean_value s)) as [number|] eqn:Hn; [|done].
    destruct (PyParse.float_of_string number) as [[x|neg|]|] eqn:Hf2;
      simpl; [done| |done|done].
    intros [= <-]. split; [done|]. exists s, number, neg. by auto.
  - destruct (PyParse.first_number (clean_value s)) as [number|] eqn:Hn; [|done].
    destruct (PyParse.float_of_string number) as [[x|neg|]|] eqn:Hf2;
      simpl; [done| |done|done].
    intros [= <-]. split; [done|]. exists s, number, neg. by auto.
Qed.

Lemma safe_int_raises_only_on_infinity_witness :
  OverflowError "cannot convert float infinity to integer"
  = OverflowError "cannot convert float infinity to integer"
  /\ exists s number neg,
       CStr " inf " = CStr s
       /\ (number = clean_value s
           \/ PyParse.first_number (clean_value s) = Some number)
       /\ PyParse.float_of_string number = Some (PyFloat.Inf neg).
Proof.
  apply (safe_int_raises_only_on_infinity (CStr " inf ")).
  vm_compute. reflexivity.
Defined.

(** *** Reading back a printed integer *)

Section strip_more.
Variable P : ascii -> bool.

Lemma rstrip_by_none s :
  PyStr.any_char P s = false -> PyStr.rstrip_by P s = s.
Proof.
  induction s as [|c s IH]; simpl; [done|].
  intros [Hc Hs]%orb_false_iff. rewrite (IH Hs), Hc. by destruct s.
Qed.

Lemma strip_by_none s :
  PyStr.any_char P s = false -> PyStr.strip_by P s = s.
Proof.
  intros Hs. unfold PyStr.strip_by.
  assert (PyStr.lstrip_by P s = s) as ->.
  { destruct s as [|c s]; simpl in *; [done|].
    by apply orb_false_iff in Hs as [-> _]. }
  by apply rstrip_by_none.
Qed.
End strip_more.

Lemma any_char_impl (P Q : ascii -> bool) s :
  (forall c, Q c = true -> P c = true) ->
  PyStr.any_char P s = false -> PyStr.any_char Q s = false.
Proof.
  intros HPQ. induction s as [|c s IH]; simpl; [done|].
  intros [Hc Hs]%orb_false_iff. rewrite (IH Hs), orb_false_r.
  destruct (Q c) eqn:HQ; [|done]. by rewrite (HPQ c HQ) in Hc.
Qed.

Lemma pretty_N_char_decimal r :
  (r < 10)%N ->
  PyStr.isdecimal (pretty_N_char r) = true
  /\ PyParse.digit_value (pretty_N_char r) = Z.of_N r.
Proof.
  intros Hr.
  assert (r = 0 \/ r = 1 \/ r = 2 \/ r = 3 \/ r = 4 \/ r = 5 \/ r = 6
          \/ r = 7 \/ r = 8 \/ r = 9)%N as Hcases by lia.
  repeat (destruct Hcases as [->|Hcases]; [by vm_compute|]).
  subst. by vm_compute.
Qed.

Lemma pretty_N_go_decimal x : forall s,
  all_decimal s -> all_decimal (pretty_N_go x s).
Proof.
  induction (N.lt_wf_0 x) as [x _ IH]. intros s Hs.
  destruct (N.eq_dec x 0) as [->|Hx]; [by rewrite pretty_N_go_0|].
  rewrite pretty_N_go_step by lia. apply IH; [apply N.div_lt; lia|].
  unfold all_decimal in *. simpl. rewrite Hs, orb_false_r.
  destruct (pretty_N_char_decimal (x `mod` 10)) as [-> _]; [|done].
  apply N.mod_lt. lia.
Qed.

Lemma pretty_N_go_head x s :
  (0 < x)%N ->
  exists c s', pretty_N_go x s = String c s' /\ PyStr.isdecimal c = true.
Proof.
  revert s. induction (N.lt_wf_0 x) as [x _ IH]. intros s Hx.
  rewrite pretty_N_go_step by done.
  destruct (N.eq_dec (x `div` 10) 0) as [->|Hd].
  - rewrite pretty_N_go_0. eexists _, _. split; [done|].
    apply pretty_N_char_decimal, N.mod_lt. lia.
  - apply IH; [apply N.div_lt; lia|by apply N.neq_0_lt_0].
Qed.

(** Reading the digits that [pretty] wrote. *)
Lemma digits_tail_pretty x :
  exists m, 0 <= m /\ forall acc k s,
    PyParse.digits_tail acc k (pretty_N_go x s)
    = PyParse.digits_tail (acc * 10 ^ m + Z.of_N x) (k + m) s.
Proof.
  induction (N.lt_wf_0 x) as [x _ IH].
  destruct (N.eq_dec x 0) as [->|Hx].
  - exists 0. split; [done|]. intros acc k s. rewrite pretty_N_go_0.
    change (10 ^ 0) with 1. change (Z.of_N 0) with 0. f_equal; lia.
  - destruct (IH (x `div` 10)%N) as (m & Hm & Hread); [apply N.div_lt; lia|].
    exists (m + 1). split; [lia|]. intros acc k s.
    rewrite pretty_N_go_step, Hread by lia. simpl.
    destruct (pretty_N_char_decimal (x `mod` 10)) as [-> ->];
      [apply N.mod_lt; lia|].
    f_equal; [|lia].
    rewrite Z.pow_add_r by lia. change (10 ^ 1) with 10.
    rewrite (N.div_mod x 10) at 3 by done.
    rewrite N2Z.inj_add, N2Z.inj_mul. change (Z.of_N 10) with 10. ring.
Qed.

Lemma digitpart_pretty x :
  (0 < x)%N ->
  exists m, PyParse.digitpart 0 (pretty_N_go x EmptyString)
            = Some (Z.of_N x, m, EmptyString).
Proof.
  intros Hx. destruct (digits_tail_pretty x) as (m & _ & Hread).
  exists (0 + m).
  destruct (pretty_N_go_head x EmptyString Hx) as (c & s' & Hs & Hc).
  assert (Hdp : PyParse.digitpart 0 (pretty_N_go x EmptyString)
                = Some (PyParse.digits_tail 0 0 (pretty_N_go x EmptyString))).
  { rewrite Hs. simpl. by rewrite Hc. }
  rewrite Hdp, Hread. simpl. done.
Qed.

Section read_back.
Import PyFloat PyFloatFacts.

(** The exponent of the last place, tightly. *)
Lemma ulp_exp_lt a q B :
  0 < a -> 0 < q -> 0 <= B -> a < q * 2 ^ (B + 53) -> ulp_exp a q <= B.
Proof.
  intros Ha Hq HB Hlt.
  destruct (Z.le_gt_cases (ulp_exp a q) B) as [|Hgt]; [done|exfalso].
  pose proof (ulp_exp_lower a q Ha Hq ltac:(lia)) as Hl.
  pose proof (pow2_mono (B + 53) (ulp_exp a q + 52) ltac:(lia)) as Hm.
  assert (q * 2 ^ (B + 53) <= q * 2 ^ (ulp_exp a q + 52))
    by (apply Z.mul_le_mono_nonneg_l; lia).
  lia.
Qed.

Lemma rhe_exact K d : 0 < d -> rhe (K * d) d = K.
Proof. intros Hd. apply rhe_unique; [done|]. lia. Qed.

(** An integer below [2^53] in magnitude is a double. *)
Lemma rnd_int_exact n :
  Z.abs n < 2 ^ 53 -> rnd n 1 = Some (Fin (n * scale)).
Proof.
  intros Hn. unfold rnd.
  destruct (Z.eqb_spec n 0) as [->|Hn0]; [done|]. cbv zeta.
  pose proof scale_pos as Hs.
  set (a := Z.abs n * scale).
  assert (Ha : 0 < a) by (apply Z.mul_pos_pos; lia).
  pose proof (ulp_exp_nonneg a 1) as HE0.
  assert (HE : ulp_exp a 1 <= unit_exp).
  { apply ulp_exp_lt; [done|lia|unfold unit_exp; lia|].
    unfold unit_exp. rewrite Z.mul_1_l, (Z.add_comm 1074 53), pow2_add by lia.
    unfold a. fold unit_exp. fold scale. apply Z.mul_lt_mono_pos_r; lia. }
  set (E := ulp_exp a 1) in *.
  pose proof (pow2_pos E HE0) as HpE.
  assert (Hsplit : scale = 2 ^ (unit_exp - E) * 2 ^ E).
  { unfold scale. rewrite <- pow2_add by lia. f_equal. lia. }
  assert (Hdiv : a = Z.abs n * 2 ^ (unit_exp - E) * 2 ^ E).
  { unfold a. rewrite Hsplit at 1. ring. }
  assert (Hrhe : rhe a (1 * 2 ^ E) * 2 ^ E = a).
  { rewrite Z.mul_1_l. rewrite Hdiv at 1. rewrite rhe_exact by done.
    by rewrite <- Hdiv. }
  assert (Hov : a < overflow_threshold).
  { unfold overflow_threshold. rewrite pow2_add by (unfold unit_exp; lia).
    fold scale. unfold a. apply Z.mul_lt_mono_pos_r; [done|].
    apply Z.lt_le_trans with (2 ^ 53); [done|]. apply pow2_mono. lia. }
  rewrite !Hrhe.
  destruct (Z.leb_spec overflow_threshold a) as [Hge|_]; [exfalso; lia|].
  do 2 f_equal. unfold a. rewrite Z.mul_assoc. f_equal.
  rewrite Z.mul_comm. apply Z.abs_sgn.
Qed.

Lemma to_int_exact n : to_int (Fin (n * scale)) = Ok n.
Proof.
  simpl. f_equal. apply Z.quot_mul. pose proof scale_pos. lia.
Qed.

Lemma lower_decimal_head c s :
  PyStr.isdecimal c = true ->
  PyStr.lower (String c s) = String c (PyStr.lower s).
Proof.
  intros Hc. simpl. f_equal. unfold PyStr.lower_char.
  unfold PyStr.isdecimal in Hc. set (k := PyStr.code c) in *.
  destruct (Z.leb_spec 48 k); [|done]. destruct (Z.leb_spec k 57); [|done].
  destruct (Z.leb_spec 65 k); [lia|]. destruct (Z.leb_spec 192 k); [lia|]. done.
Qed.

Lemma decimal_not_special c :
  PyStr.isdecimal c = true ->
  c <> "-"%char /\ c <> "+"%char /\ c <> "."%char /\ c <> "i"%char
  /\ c <> "n"%char.
Proof. intros Hc. repeat split; intros ->; by vm_compute in Hc. Qed.

(** [float(s)] for the digits of a positive number. *)
Lemma read_digits x neg :
  (0 < x)%N -> Z.of_N x < 2 ^ 53 ->
  let s1 := pretty_N_go x EmptyString in
  (let l := PyStr.lower s1 in
   if bool_decide (l = "inf") || bool_decide (l = "infinity") then
     Some (PyFloat.Inf neg)
   else if bool_decide (l = "nan") then Some PyFloat.NaN
   else
     '(digits, nfrac, r) ← PyParse.read_number s1;
     '(x, r') ← PyParse.read_exponent r;
     if bool_decide (r' = EmptyString) then
       let n := if neg then - digits else digits in
       let e := x - nfrac in
       Some (default (PyFloat.Inf neg)
               (if 0 <=? e then PyFloat.rnd (n * 10 ^ e) 1
                else PyFloat.rnd n (10 ^ (- e))))
     else None)
  = Some (Fin ((if neg then - Z.of_N x else Z.of_N x) * scale)).
Proof.
  intros Hx Hlt s1.
  destruct (pretty_N_go_head x EmptyString Hx) as (c & s' & Hs & Hc).
  destruct (digitpart_pretty x Hx) as (m & Hdp).
  destruct (decimal_not_special c Hc) as (Hm & Hp & Hdot & Hi & Hn).
  cbv zeta. unfold s1. clear s1. rewrite Hs in Hdp |- *.
  rewrite lower_decimal_head by done.
  rewrite !bool_decide_eq_false_2 by (intros [= ? _]; done). cbn [orb].
  unfold PyParse.read_number.
  rewrite (bool_decide_eq_false_2 (c = "."%char)) by done.
  rewrite Hdp. cbn.
  rewrite Z.mul_1_r, rnd_int_exact; [done|]. destruct neg; lia.
Qed.

Lemma float_of_pretty_pos x neg :
  (0 < x)%N -> Z.of_N x < 2 ^ 53 ->
  PyParse.float_of_string
    ((if neg : bool then "-" else "") +:+ pretty_N_go x EmptyString)
  = Some (Fin ((if neg then - Z.of_N x else Z.of_N x) * scale)).
Proof.
  intros Hx Hlt.
  destruct (pretty_N_go_head x EmptyString Hx) as (c & s' & Hs & Hc).
  destruct (decimal_not_special c Hc) as (Hm & Hp & _).
  pose proof (pretty_N_go_decimal x EmptyString eq_refl) as Hdec.
  unfold PyParse.float_of_string.
  assert (Hstrip : PyStr.strip ((if neg : bool then "-" else "")
                                +:+ pretty_N_go x EmptyString)
                   = (if neg : bool then "-" else "") +:+ pretty_N_go x EmptyString).
  { apply strip_by_none.
    assert (Hsp : PyStr.any_char PyStr.isspace (pretty_N_go x EmptyString) = false).
    { revert Hdec. apply any_char_impl. intros ch Hch.
      destruct (PyStr.isdecimal ch) eqn:Hd; [|done]. exfalso.
      unfold PyStr.isdecimal, PyStr.isspace in *. lia. }
    destruct neg; simpl; [|done]. first [done | by rewrite Hsp]. }
  rewrite Hstrip.
  assert (Hsign : PyParse.read_sign ((if neg : bool then "-" else "")
                                     +:+ pretty_N_go x EmptyString)
                  = (neg, pretty_N_go x EmptyString)).
  { destruct neg; simpl; [done|]. rewrite Hs. simpl.
    by rewrite !bool_decide_eq_false_2, <- Hs. }
  rewrite Hsign. by apply read_digits.
Qed.

Lemma pretty_Z_sign (n : Z) :
  n <> 0 ->
  pretty n = (if n <? 0 then "-" else "")
             +:+ pretty_N_go (Z.to_N (Z.abs n)) EmptyString.
Proof.
  destruct n as [|p|p]; [done| |]; intros _; simpl.
  - unfold pretty, pretty_Z, pretty, pretty_positive, pretty, pretty_N.
    by rewrite decide_False.
  - unfold pretty, pretty_Z, pretty, pretty_positive, pretty, pretty_N.
    by rewrite decide_False.
Qed.

Lemma float_of_pretty (n : Z) :
  Z.abs n < 2 ^ 53 ->
  PyParse.float_of_string (pretty n) = Some (Fin (n * scale)).
Proof.
  intros Hn. destruct (Z.eq_dec n 0) as [->|Hn0]; [by vm_compute|].
  rewrite pretty_Z_sign by done.
  rewrite (float_of_pretty_pos (Z.to_N (Z.abs n)) (n <? 0)) by lia.
  do 2 f_equal. rewrite Z2N.id by lia. destruct (Z.ltb_spec n 0); lia.
Qed.

Lemma pretty_clean (n : Z) : clean_value (pretty n) = pretty n.
Proof.
  assert (Hall : PyStr.any_char
            (fun c => negb (PyStr.isdecimal c || bool_decide (c = "-"%char)))
            (pretty n) = false).
  { destruct (Z.eq_dec n 0) as [->|Hn0]; [done|].
    rewrite pretty_Z_sign by done.
    pose proof (pretty_N_go_decimal (Z.to_N (Z.abs n)) EmptyString eq_refl) as Hd.
    assert (Hd' : PyStr.any_char
              (fun c => negb (PyStr.isdecimal c || bool_decide (c = "-"%char)))
              (pretty_N_go (Z.to_N (Z.abs n)) EmptyString) = false).
    { revert Hd. apply any_char_impl. intros c.
      destruct (PyStr.isdecimal c); [done|]. by destruct (bool_decide _). }
    destruct (n <? 0); simpl; by rewrite ?Hd'. }
  unfold clean_value, PyStr.strip_char, PyStr.strip.
  rewrite (strip_by_none PyStr.isspace (pretty n)).
  2:{ revert Hall. apply any_char_impl. intros c Hc.
      destruct (PyStr.isdecimal c) eqn:Hd.
      - exfalso. unfold PyStr.isdecimal, PyStr.isspace in *. lia.
      - destruct (bool_decide_reflect (c = "-"%char)) as [->|]; [|done].
        by vm_compute in Hc. }
  rewrite (strip_by_none _ (pretty n)).
  2:{ revert Hall. apply any_char_impl. intros c Hc.
      apply bool_decide_eq_true in Hc as ->. done. }
  rewrite (strip_by_none _ (pretty n)); [done|].
  revert Hall. apply any_char_impl. intros c Hc.
  apply bool_decide_eq_true in Hc as ->. done.
Qed.

Lemma pretty_not_blank (n : Z) :
  pretty n <> EmptyString /\ PyStr.lower (pretty n) <> "nan".
Proof.
  destruct (Z.eq_dec n 0) as [->|Hn0]; [done|].
  rewrite pretty_Z_sign by done.
  destruct (pretty_N_go_head (Z.to_N (Z.abs n)) EmptyString ltac:(lia))
    as (c & s' & -> & Hc).
  destruct (decimal_not_special c Hc) as (_ & _ & _ & _ & Hnn).
  destruct (n <? 0); simpl; split; try done.
  intros [= Hl _]. revert Hl. fold (PyStr.lower (String c EmptyString)).
  pose proof (lower_decimal_head c EmptyString Hc) as Hlow. simpl in Hlow.
  injection Hlow as ->. done.
Qed.

(** X6: [_safe_int] reads back the decimal text of an integer: for
    |n| <= 2^53, _safe_int(str(n)) = n.  (Beyond that the detour through
    float loses digits.) *)
Theorem safe_int_reads_printed_integer n :
  Z.abs n <= 2 ^ 53 -> safe_int_str (PyRepr.str_int n) = Ok n.
Proof.
  intros Hn. unfold PyRepr.str_int.
  destruct (Z.eq_dec (Z.abs n) (2 ^ 53)) as [Heq|Hne].
  { assert (n = 9007199254740992 \/ n = - 9007199254740992) as [-> | ->]
      by (change (2 ^ 53) with 9007199254740992 in Heq; lia);
      by vm_compute. }
  unfold safe_int_str. fold (clean_value (pretty n)). rewrite pretty_clean.
  destruct (pretty_not_blank n) as [Hne1 Hne2].
  rewrite !bool_decide_eq_false_2 by done. cbn [orb].
  unfold PyParse.int_of_float_string.
  rewrite float_of_pretty by lia. by rewrite to_int_exact.
Qed.

Lemma safe_int_reads_printed_integer_witness :
  safe_int_str (PyRepr.str_int (-4503599627370497)) = Ok (-4503599627370497).
Proof.
  apply (safe_int_reads_printed_integer (-4503599627370497)).
  vm_compute. discriminate.
Defined.

(** Beyond [2^53] digits are lost. *)
Example safe_int_loses_digits :
  safe_int_str (PyRepr.str_int 9007199254740993) = Ok 9007199254740992.
Proof. vm_compute. reflexivity. Qed.
End read_back.

(** *** Column names *)

Lemma lower_char_idem c :
  PyStr.lower_char (PyStr.lower_char c) = PyStr.lower_char c.
Proof. destruct c as [[] [] [] [] [] [] [] []]; reflexivity. Qed.

Lemma isspace_lower_char c :
  PyStr.isspace (PyStr.lower_char c) = PyStr.isspace c.
Proof. destruct c as [[] [] [] [] [] [] [] []]; reflexivity. Qed.

Lemma lower_idem s : PyStr.lower (PyStr.lower s) = PyStr.lower s.
Proof. induction s as [|c s IH]; simpl; [done|]. by rewrite lower_char_idem, IH. Qed.

Lemma lstrip_lower s :
  PyStr.lstrip_by PyStr.isspace (PyStr.lower s)
  = PyStr.lower (PyStr.lstrip_by PyStr.isspace s).
Proof.
  induction s as [|c s IH]; simpl; [done|]. rewrite isspace_lower_char.
  by destruct (PyStr.isspace c).
Qed.

Lemma rstrip_lower s :
  PyStr.rstrip_by PyStr.isspace (PyStr.lower s)
  = PyStr.lower (PyStr.rstrip_by PyStr.isspace s).
Proof.
  induction s as [|c s IH]; simpl; [done|]. rewrite IH, isspace_lower_char.
  destruct (PyStr.rstrip_by PyStr.isspace s); simpl; [|done].
  by destruct (PyStr.isspace c).
Qed.

(** Lowering and stripping commute. *)
Lemma strip_lower s : PyStr.strip (PyStr.lower s) = PyStr.lower (PyStr.strip s).
Proof. unfold PyStr.strip, PyStr.strip_by. by rewrite lstrip_lower, rstrip_lower. Qed.

Lemma strip_lower_fixed s :
  PyStr.strip (PyStr.lower (PyStr.strip (PyStr.lower s)))
  = PyStr.strip (PyStr.lower s).
Proof. by rewrite <- strip_lower, lower_idem, strip_idem. Qed.

(** X7: normalizing a column name is idempotent: a normalized name is
    mapped to itself, so renaming the columns of a table twice is the same
    as renaming them once. *)
Theorem normalize_column_name_idempotent col :
  _normalize_column_name (_normalize_column_name col)
  = _normalize_column_name col.
Proof.
  unfold _normalize_column_name at 2 3.
  pose proof (strip_lower_fixed col) as Hfix.
  set (t := PyStr.strip (PyStr.lower col)) in *.
  repeat (case_bool_decide; [by vm_compute|]).
  unfold _normalize_column_name. rewrite Hfix.
  by rewrite !bool_decide_eq_false_2 by done.
Qed.

(** ** More on the entity store *)

Section odict_even_more.
Context {K V : Type} `{EqDecision K}.
Implicit Types (d : list (K * V)) (k : K) (v : V).

Lemma odict_get_elem k v d : odict.get k d = Some v -> (k, v) ∈ d.
Proof.
  induction d as [|[k0 v0] d IH]; simpl; [done|].
  destruct (decide (k = k0)) as [->|Hne].
  - intros [= ->]. left.
  - intros Hg. right. by apply IH.
Qed.

Lemma odict_get_set_is_Some k k' v d :
  is_Some (odict.get k d) -> is_Some (odict.get k (odict.set k' v d)).
Proof.
  intros Hk. destruct (decide (k' = k)) as [->|Hne].
  - rewrite odict_get_set_eq. by eexists.
  - by rewrite odict_get_set_ne.
Qed.

Lemma odict_get_None_fresh k d :
  odict.get k d = None -> forall v, (k, v) ∉ d.
Proof.
  intros Hg v Hin. apply odict_get_is_Some in Hin as [v' Hv]. congruence.
Qed.

Lemma odict_not_key_get k d : k ∉ odict.keys d -> odict.get k d = None.
Proof.
  intros Hk. destruct (odict.get k d) as [v|] eqn:Hg; [|done].
  exfalso. apply Hk. apply odict_get_elem in Hg.
  unfold odict.keys. apply list_elem_of_fmap. by exists (k, v).
Qed.

Lemma odict_set_length k v d :
  List.length (odict.set k v d)
  = (if odict.mem k d then List.length d else S (List.length d)).
Proof.
  unfold odict.mem. induction d as [|[k0 v0] d IH]; simpl; [done|].
  destruct (decide (k = k0)) as [->|Hne]; simpl; [done|].
  rewrite IH. by destruct (odict.get k d).
Qed.
End odict_even_more.

Lemma create_player_lookup p s name team :
  _player_id_counter s <> -1 ->
  player_key name team = player_key (p_name p) (p_team p) ->
  let id := _player_id_counter s + 1 in
  let s' := (create_player p s).2 in
  (create_player p s).1 = Ok (id, p)
  /\ get_player id s' = Some p
  /\ get_player_by_name_team name team s' = Some (id, p)
  /\ (forall id', id' <> id -> get_player id' s' = get_player id' s).
Proof.
  intros Hc Hkey id s'. split; [done|].
  assert (Hget : get_player id s' = Some p).
  { unfold get_player, s', create_player; simpl. apply odict_get_set_eq. }
  split; [done|]. split.
  - unfold get_player_by_name_team. unfold get_player in Hget.
    assert (Hidx : _player_index s' !! player_key name team = Some id).
    { unfold s', create_player; simpl. rewrite Hkey. apply lookup_insert_eq. }
    rewrite Hidx, Hget. destruct (Z.eqb_spec id 0) as [H0|_]; [|done].
    unfold id in H0. lia.
  - intros id' Hne. unfold get_player, s', create_player; simpl.
    by rewrite odict_get_set_ne.
Qed.

(** X8: a player just created is found under the id it was given and, by
    name and team, under any spelling of them that differs only in letter
    case and surrounding white space; the players stored under other ids
    are as before.  (With the counter at -1 the new id would be 0, which
    the lookup by name treats as absent.) *)
Theorem create_player_then_lookup p s name team :
  _player_id_counter s <> -1 ->
  player_key name team = player_key (p_name p) (p_team p) ->
  let id := _player_id_counter s + 1 in
  let s' := (create_player p s).2 in
  (create_player p s).1 = Ok (id, p)
  /\ get_player id s' = Some p
  /\ get_player_by_name_team name team s' = Some (id, p)
  /\ (forall id', id' <> id -> get_player id' s' = get_player id' s).
Proof. apply create_player_lookup. Qed.

Lemma create_player_then_lookup_witness :
  let p := mk_Player "Ann Lee" "Hawks" None in
  let id := _player_id_counter empty_store + 1 in
  let s' := (create_player p empty_store).2 in
  (create_player p empty_store).1 = Ok (id, p)
  /\ get_player id s' = Some p
  /\ get_player_by_name_team "  ANN lee" "hawks " s' = Some (id, p)
  /\ (forall id', id' <> id -> get_player id' s' = get_player id' empty_store).
Proof.
  apply (create_player_then_lookup (mk_Player "Ann Lee" "Hawks" None)
           empty_store "  ANN lee" "hawks ").
  - vm_compute. discriminate.
  - vm_compute. reflexivity.
Defined.

(** X9: [create_player] does not look for an existing player: when the
    name and team are taken, the earlier player stays stored under its id,
    the new one is stored under a new id, and the lookup by that name and
    team now gives the new one. *)
Theorem create_player_shadows_existing p s id q :
  player_wf s ->
  get_player_by_name_team (p_name p) (p_team p) s = Some (id, q) ->
  let id' := _player_id_counter s + 1 in
  let s' := (create_player p s).2 in
  id' <> id
  /\ get_player id s' = Some q
  /\ get_player id' s' = Some p
  /\ get_player_by_name_team (p_name p) (p_team p) s' = Some (id', p).
Proof.
  intros (Hc & Hrows & _) Hfound id' s'.
  assert (Hq : odict.get id (_players s) = Some q).
  { unfold get_player_by_name_team in Hfound.
    destruct (_ !! _) as [i|]; [|done]. destruct (i =? 0); [done|].
    destruct (odict.get i (_players s)) eqn:Hg; [|done]. by simplify_eq. }
  destruct (Hrows id q (odict_get_elem _ _ _ Hq)) as [[_ Hle] _].
  assert (Hne : id' <> id) by (unfold id'; lia).
  destruct (create_player_lookup p s (p_name p) (p_team p)
              ltac:(lia) eq_refl) as (_ & Hnew & Hlook & Hframe).
  split; [done|]. split; [|done].
  unfold s'. rewrite Hframe by done. exact Hq.
Qed.

Lemma create_player_shadows_existing_witness :
  let p := mk_Player "ann lee " "HAWKS" None in
  let s := (create_player (mk_Player "Ann Lee" "Hawks" None) empty_store).2 in
  let s' := (create_player p s).2 in
  2 <> 1
  /\ get_player 1 s' = Some (mk_Player "Ann Lee" "Hawks" None)
  /\ get_player 2 s' = Some p
  /\ get_player_by_name_team (p_name p) (p_team p) s' = Some (2, p).
Proof.
  apply (create_player_shadows_existing (mk_Player "ann lee " "HAWKS" None)
           (create_player (mk_Player "Ann Lee" "Hawks" None) empty_store).2
           1 (mk_Player "Ann Lee" "Hawks" None)).
  - apply create_player_wf; [apply player_wf_empty|reflexivity].
  - vm_compute. reflexivity.
Defined.

(** ** Invariants along ingestion *)

Lemma se_bind_unfold {S A B : Type} (m : SE S A) (f : A -> SE S B) s :
  (m ≫= f) s
  = match m s with
    | (Ok a, s') => f a s'
    | (Raise e, s') => (Raise e, s')
    end.
Proof. reflexivity. Qed.

Section ingest_invariant.
Variable read_csv : string -> Exc DataFrame.
Variable float_str : PyFloat.float -> string.
Variable column_total : list cell -> Exc Z.

(** [I] holds between operations and [J game_id] while the rows of a game
    are ingested. *)
Variable I : MemoryStore -> Prop.
Variable J : Z -> MemoryStore -> Prop.
Hypothesis I_empty : I empty_store.
Hypothesis J_game :
  forall g s, I s -> J (_game_id_counter s + 1) (create_game g s).2.
Hypothesis J_player :
  forall gid team league p,
    preserves (J gid) (ingest_player gid team league p).
Hypothesis J_I : forall gid s, J gid s -> I s.
Hypothesis I_recompute :
  forall l se, preserves I (recompute_hitter_totals l se).

Lemma ingest_players_inv gid team league players :
  preserves (J gid) (ingest_players gid team league players).
Proof.
  induction players as [|p players IH]; simpl; [apply preserves_ret|].
  apply preserves_bind; [apply J_player|]. intros n.
  apply preserves_bind; [apply IH|]. intros m. apply preserves_ret.
Qed.

Lemma ingest_rows_inv gid team league df rows :
  preserves (J gid) (ingest_rows float_str gid team league df rows).
Proof.
  induction rows as [|row rows IH]; simpl; [apply preserves_ret|].
  apply preserves_bind; [apply preserves_lift|]. intros p.
  apply preserves_bind; [apply J_player|]. intros n.
  apply preserves_bind; [apply IH|]. intros m. apply preserves_ret.
Qed.

Lemma ingest_roster_inv gid team league r :
  preserves (J gid) (ingest_roster float_str gid team league r).
Proof. destruct r; [apply ingest_players_inv|apply ingest_rows_inv]. Qed.

Lemma ingest_game_csv_inv text league season game_date home_team away_team :
  preserves I
    (ingest_game_csv read_csv float_str column_total text league season
       game_date home_team away_team).
Proof.
  intros s HI. unfold ingest_game_csv. rewrite se_bind_unfold.
  unfold se_lift at 1.
  destruct (settle_lineup _ _ _ _ _ _) as [l|e]; [|done].
  rewrite se_bind_unfold.
  set (g := mk_Game _ _ _ _ _ _ _ _).
  pose proof (J_game g s HI) as HJ.
  change (create_game g s)
    with (Ok (_game_id_counter s + 1, g), (create_game g s).2).
  cbn [fst]. revert HJ. generalize (create_game g s).2.
  generalize (_game_id_counter s + 1). intros gid s1 HJ.
  apply (J_I gid). revert s1 HJ.
  apply preserves_bind; [apply ingest_roster_inv|]. intros n1.
  apply preserves_bind; [apply ingest_roster_inv|]. intros n2.
  apply preserves_ret.
Qed.

Lemma upload_csv_inv text league season game_date home_team away_team :
  preserves I
    (upload_csv read_csv float_str column_total text league season
       game_date home_team away_team).
Proof.
  assert (Hbody : preserves I
            (upload_csv_body read_csv float_str column_total text league
               season game_date home_team away_team)).
  { unfold upload_csv_body.
    apply preserves_bind; [apply preserves_lift|]. intros detected.
    intros s HI. unfold mbind, se_bind, se_get. simpl.
    destruct (check_duplicate_game _ _ _ _ _ s) as [existing|]; [done|].
    revert s HI. apply preserves_bind; [apply ingest_game_csv_inv|].
    intros ingested. apply preserves_bind; [|intros; apply preserves_ret].
    apply I_recompute. }
  intros s HI. unfold upload_csv. specialize (Hbody s HI).
  destruct (upload_csv_body _ _ _ _ _ _ _ _ _ s) as [[r|e] s']; [done|].
  by destruct e.
Qed.

Lemma reachable_inv s :
  reachable read_csv float_str column_total s -> I s.
Proof.
  induction 1 as [|s text league season game_date home_team away_team _ IH
                  |s text league season game_date home_team away_team _ IH
                  |s league season _ IH].
  - apply I_empty.
  - by apply upload_csv_inv.
  - by apply ingest_game_csv_inv.
  - by apply I_recompute.
Qed.
End ingest_invariant.

(** *** Recomputing touches the totals only *)

Lemma create_or_update_hitter_total_entities ht s :
  same_entities s (create_or_update_hitter_total ht s).2.
Proof.
  unfold create_or_update_hitter_total.
  destruct (existing_hitter_total_id _ s); simpl; by repeat split.
Qed.

Lemma recompute_player_entities l se entry s :
  same_entities s (recompute_player l se entry s).2.
Proof.
  destruct entry as [p a]. unfold recompute_player.
  destruct (get_hitter_total p l se s) as [[id ht0]|];
    destruct (compute_derived_stats _) as [ht2 [[]|e]]; simpl;
    try (by repeat split).
  - set (s2 := set_hitter_totals _ s).
    pose proof (create_or_update_hitter_total_entities ht2 s2) as H2.
    destruct (create_or_update_hitter_total ht2 s2) as [[x|e] s3]; exact H2.
  - pose proof (create_or_update_hitter_total_entities ht2 s) as H2.
    destruct (create_or_update_hitter_total ht2 s) as [[x|e] s3]; exact H2.
Qed.

Lemma recompute_hitter_totals_entities l se s :
  same_entities s (recompute_hitter_totals l se s).2.
Proof.
  unfold recompute_hitter_totals.
  generalize (group_by_player (relevant_pas l se s)). intros entries.
  revert s. induction entries as [|entry entries IH]; intros s; simpl.
  - apply same_entities_refl.
  - rewrite se_bind_unfold.
    pose proof (recompute_player_entities l se entry s) as H1.
    destruct (recompute_player l se entry s) as [[[]|e] s1]; simpl in *;
      [|done].
    eapply same_entities_trans; [exact H1|apply IH].
Qed.

(** *** Referential integrity *)

Lemma refs_wf_empty : refs_wf empty_store.
Proof.
  unfold refs_wf; simpl. split; [done|]. split; [by intros ?? ?%elem_of_nil|].
  split; [apply NoDup_nil_2|]. split; [done|].
  split; [by intros ?? ?%elem_of_nil|apply NoDup_nil_2].
Qed.

Lemma refs_wf_entities s s' : same_entities s s' -> refs_wf s -> refs_wf s'.
Proof.
  intros (Hp & Hg & Hpa & _ & Hgc & Hpc & _).
  unfold refs_wf, get_game, get_player. by rewrite Hp, Hg, Hpa, Hgc, Hpc.
Qed.

Lemma fresh_key_keys {V : Type} (id : Z) (v : V) (d : list (Z * V)) c :
  (forall id' v', (id', v') ∈ d -> 0 < id' <= c) ->
  NoDup (odict.keys d) ->
  odict.set (c + 1) v d = d ++ [(c + 1, v)]
  /\ NoDup (odict.keys (d ++ [(c + 1, v)])).
Proof.
  intros Hb Hnd.
  assert (Hfresh : forall v', (c + 1, v') ∉ d).
  { intros v' Hin. apply Hb in Hin. lia. }
  split; [by apply odict_set_fresh|].
  unfold odict.keys. rewrite fmap_app. apply NoDup_app.
  split; [done|]. split; [|apply NoDup_singleton].
  intros k Hk ->%list_elem_of_singleton.
  apply list_elem_of_fmap in Hk as ([k v'] & Hk & Hin). simpl in Hk. subst.
  by apply (Hfresh v').
Qed.

Lemma create_game_refs g s :
  refs_wf s -> ingesting (_game_id_counter s + 1) (create_game g s).2.
Proof.
  intros (Hgc & Hg & Hgn & Hpc & Hpa & Hpn).
  destruct (fresh_key_keys 0 g (_games s) _ Hg Hgn) as [Hset Hnd].
  unfold ingesting, refs_wf, get_game, get_player, create_game; simpl.
  split; [|rewrite odict_get_set_eq; by eexists].
  rewrite Hset. split; [lia|]. split.
  { intros id g' [Hin|Hin]%elem_of_app.
    - apply Hg in Hin. lia.
    - apply list_elem_of_singleton in Hin as [= -> ->]. lia. }
  split; [done|]. split; [done|]. split; [|done].
  intros id pa Hin. destruct (Hpa id pa Hin) as (Hb & Hgame & Hplayer).
  split; [done|]. split; [|done]. rewrite <- Hset.
  by apply odict_get_set_is_Some.
Qed.

Lemma create_player_refs gid p :
  preserves (ingesting gid) (create_player p).
Proof.
  intros s [(Hgc & Hg & Hgn & Hpc & Hpa & Hpn) Hgid].
  unfold ingesting, refs_wf, get_game, get_player, create_player; simpl.
  split; [|done]. repeat (split; [done|]). split; [|done].
  intros id pa Hin. destruct (Hpa id pa Hin) as (Hb & Hgame & Hplayer).
  split; [done|]. split; [done|]. by apply odict_get_set_is_Some.
Qed.

Lemma create_plate_appearance_refs gid pa :
  preserves (fun s => ingesting gid s
                      /\ is_Some (get_game (pa_game_id pa) s)
                      /\ is_Some (get_player (pa_player_id pa) s))
            (create_plate_appearance pa).
Proof.
  intros s ([(Hgc & Hg & Hgn & Hpc & Hpa & Hpn) Hgid] & Hgame & Hplayer).
  destruct (fresh_key_keys 0 pa (_plate_appearances s) _
              (fun id v Hin => proj1 (Hpa id v Hin)) Hpn) as [Hset Hnd].
  unfold ingesting, refs_wf, get_game, get_player, create_plate_appearance;
    simpl.
  split; [|done]. split; [|done]. rewrite Hset.
  repeat (split; [done|]). split; [lia|]. split; [|done].
  intros id pa' [Hin|Hin]%elem_of_app.
  - destruct (Hpa id pa' Hin) as (Hb & ? & ?). split; [lia|done].
  - apply list_elem_of_singleton in Hin as [= -> ->]. split; [lia|done].
Qed.

Lemma ingest_player_refs gid team league p :
  preserves (ingesting gid) (ingest_player gid team league p).
Proof.
  intros s HJ. unfold ingest_player.
  destruct (_ || _); [done|].
  unfold mbind, se_bind, se_get, mret, se_ret; simpl.
  destruct (get_player_by_name_team (ps_player_name p) team s)
    as [[id pl]|] eqn:Hget; simpl.
  - assert (Hpl : is_Some (get_player id s)).
    { unfold get_player_by_name_team in Hget. unfold get_player.
      destruct (_ !! _) as [i|]; [|done]. destruct (i =? 0); [done|].
      destruct (odict.get i (_players s)) eqn:Hg; [|done].
      simplify_eq. by eexists. }
    destruct (create_plate_appearance_refs gid
                (mk_PA gid id team (ps_stats p)) s) as [HJ' _]; [|exact HJ'].
    split; [done|]. split; [by destruct HJ|done].
  - set (pl := mk_Player (ps_player_name p) team (Some league)).
    pose proof (create_player_refs gid pl s HJ) as HJ1.
    destruct (create_plate_appearance_refs gid
                (mk_PA gid (_player_id_counter s + 1) team (ps_stats p))
                (create_player pl s).2) as [HJ' _]; [|exact HJ'].
    split; [done|]. split; [by destruct HJ1|].
    unfold get_player, create_player; simpl. rewrite odict_get_set_eq.
    by eexists.
Qed.

Lemma recompute_hitter_totals_refs l se :
  preserves refs_wf (recompute_hitter_totals l se).
Proof.
  intros s Hwf. apply (refs_wf_entities s); [|done].
  apply recompute_hitter_totals_entities.
Qed.

Section refs_facts.
Variable read_csv : string -> Exc DataFrame.
Variable float_str : PyFloat.float -> string.
Variable column_total : list cell -> Exc Z.

Lemma reachable_refs_wf s :
  reachable read_csv float_str column_total s -> refs_wf s.
Proof.
  apply (reachable_inv read_csv float_str column_total refs_wf ingesting).
  - apply refs_wf_empty.
  - apply create_game_refs.
  - apply ingest_player_refs.
  - by intros gid s0 [H _].
  - apply recompute_hitter_totals_refs.
Qed.

(** X10: in every store that uploads, ingestions and recomputes lead to,
    a plate appearance refers to a stored game and to a stored player,
    and plate appearances and games have positive ids that are not
    repeated. *)
Theorem reachable_referential_integrity s :
  reachable read_csv float_str column_total s ->
  (forall id pa, (id, pa) ∈ _plate_appearances s ->
     0 < id
     /\ (exists g, get_game (pa_game_id pa) s = Some g)
     /\ (exists p, get_player (pa_player_id pa) s = Some p))
  /\ (forall id g, (id, g) ∈ _games s -> 0 < id)
  /\ NoDup (odict.keys (_plate_appearances s))
  /\ NoDup (odict.keys (_games s)).
Proof.
  intros Hr.
  destruct (reachable_refs_wf s Hr) as (Hgc & Hg & Hgn & Hpc & Hpa & Hpn).
  split; [|split; [|done]].
  - intros id pa Hin. destruct (Hpa id pa Hin) as (Hb & Hgame & Hplayer).
    split; [lia|]. split; [by destruct Hgame; eexists|by destruct Hplayer; eexists].
  - intros id g Hin. apply Hg in Hin. lia.
Qed.
End refs_facts.

Lemma reachable_referential_integrity_witness :
  (forall id pa, (id, pa) ∈ _plate_appearances demo_flat_ingested ->
     0 < id
     /\ (exists g, get_game (pa_game_id pa) demo_flat_ingested = Some g)
     /\ (exists p, get_player (pa_player_id pa) demo_flat_ingested = Some p))
  /\ (forall id g, (id, g) ∈ _games demo_flat_ingested -> 0 < id)
  /\ NoDup (odict.keys (_plate_appearances demo_flat_ingested))
  /\ NoDup (odict.keys (_games demo_flat_ingested)).
Proof.
  apply (reachable_referential_integrity
           demo_read_csv demo_float_str demo_column_total).
  apply reachable_ingest, reachable_empty.
Defined.

(** The plate appearances of the example. *)
Example demo_flat_ingested_rows :
  (fun pa => (pa.1, pa_game_id pa.2, pa_player_id pa.2, pa_team pa.2))
    <$> _plate_appearances demo_flat_ingested
  = [(1, 1, 1, "Hawks"); (2, 1, 2, "Owls")].
Proof. vm_compute. reflexivity. Qed.

(** *** Hitter totals: one row per player, league and season *)

Lemma totals_wf_same s s' : same_totals s s' -> totals_wf s -> totals_wf s'.
Proof.
  intros (Ht & Hc & Hi). unfold totals_wf, ht_wf. by rewrite Ht, Hc, Hi.
Qed.

Lemma totals_wf_empty : totals_wf empty_store.
Proof. split; [apply ht_wf_empty|apply NoDup_nil_2]. Qed.

Lemma ingest_player_totals gid team league p :
  preserves totals_wf (ingest_player gid team league p).
Proof.
  intros s Hwf. unfold ingest_player.
  destruct (_ || _); [done|].
  unfold mbind, se_bind, se_get, mret, se_ret; simpl.
  destruct (get_player_by_name_team (ps_player_name p) team s)
    as [[id pl]|]; simpl; exact Hwf.
Qed.

Lemma create_or_update_totals_wf ht :
  preserves totals_wf (create_or_update_hitter_total ht).
Proof.
  intros s [Hwf Hnd].
  destruct (create_or_update_hitter_total ht s) as [r s'] eqn:Hup.
  destruct (create_or_update_hitter_total_wf _ _ _ _ Hwf Hup) as (Hwf' & _).
  split; [done|]. simpl. unfold create_or_update_hitter_total in Hup.
  destruct (existing_hitter_total_id _ s); simplify_eq; simpl;
    by apply odict_keys_set.
Qed.

Lemma assign_stats_key a ht : ht_key (assign_stats a ht) = ht_key ht.
Proof. done. Qed.

Lemma recompute_player_totals l se entry :
  preserves totals_wf (recompute_player l se entry).
Proof.
  intros s [Hwf Hnd]. destruct entry as [p a]. unfold recompute_player.
  destruct (get_hitter_total p l se s) as [[id ht0]|] eqn:Hget.
  - destruct (get_hitter_total_wf _ _ _ _ _ _ Hwf Hget) as (Hk & Hrow & Hkey).
    destruct (compute_derived_stats _) as [ht2 r] eqn:Hcds.
    apply compute_derived_stats_key in Hcds as Hkey2.
    rewrite assign_stats_key, Hkey in Hkey2.
    assert (Hwf2 : totals_wf (write_back (Some id) ht2 s)).
    { split.
      - apply ht_wf_overwrite; [done|]. by rewrite Hkey2.
      - simpl. by apply odict_keys_set. }
    destruct r as [[]|e]; [|done].
    pose proof (create_or_update_totals_wf ht2 _ Hwf2) as H3.
    by destruct (create_or_update_hitter_total ht2 _) as [[x|e] s3].
  - destruct (compute_derived_stats _) as [ht2 r] eqn:Hcds.
    destruct r as [[]|e]; [|done]. simpl write_back.
    pose proof (create_or_update_totals_wf ht2 s (conj Hwf Hnd)) as H3.
    by destruct (create_or_update_hitter_total ht2 s) as [[x|e] s3].
Qed.

Lemma recompute_hitter_totals_totals l se :
  preserves totals_wf (recompute_hitter_totals l se).
Proof.
  intros s Hwf. unfold recompute_hitter_totals.
  apply preserves_for; [|done]. intros entry. apply recompute_player_totals.
Qed.

Lemma totals_wf_indexed s id ht :
  totals_wf s -> (id, ht) ∈ _hitter_totals s ->
  get_hitter_total (ht_player_id ht) (ht_league ht) (ht_season ht) s
  = Some (id, ht).
Proof.
  intros [(Hc & Hidx & Hrow) Hnd] Hin.
  apply (odict_get_elem_of _ _ _ Hnd) in Hin.
  destruct (Hrow id ht Hin) as [_ Hk]. unfold ht_key in Hk.
  unfold get_hitter_total. rewrite Hk, Hin.
  destruct (Hidx _ _ Hk) as [Hpos _]. destruct (Z.eqb_spec id 0); [lia|done].
Qed.

Lemma totals_wf_unique s :
  totals_wf s -> NoDup (ht_key <$> odict.values (_hitter_totals s)).
Proof.
  intros Hwf. pose proof Hwf as [_ Hnd].
  assert (Hall : forall id ht, (id, ht) ∈ _hitter_totals s ->
            get_hitter_total (ht_player_id ht) (ht_league ht) (ht_season ht) s
            = Some (id, ht)) by (intros; by apply totals_wf_indexed).
  revert Hnd Hall. generalize (_hitter_totals s) at 1 2 3.
  intros d. induction d as [|[id ht] d IH]; intros Hnd Hall; simpl.
  - apply NoDup_nil_2.
  - unfold odict.keys in Hnd. simpl in Hnd. apply NoDup_cons in Hnd as [Hni Hnd].
    apply NoDup_cons. split.
    + intros Hin. apply list_elem_of_fmap in Hin as (ht' & Hk & Hin).
      apply list_elem_of_fmap in Hin as ([id' ht''] & -> & Hin). simpl in Hk.
      pose proof (Hall id ht ltac:(left)) as H1.
      pose proof (Hall id' ht'' ltac:(by right)) as H2.
      unfold ht_key in Hk. injection Hk as E1 E2 E3.
      rewrite E1, E2, E3, H2 in H1. injection H1 as -> ->.
      apply Hni. apply list_elem_of_fmap. by exists (id, ht).
    + apply IH; [done|]. intros id' ht' Hin. apply Hall. by right.
Qed.

Section totals_facts.
Variable read_csv : string -> Exc DataFrame.
Variable float_str : PyFloat.float -> string.
Variable column_total : list cell -> Exc Z.

Lemma reachable_totals_wf s :
  reachable read_csv float_str column_total s -> totals_wf s.
Proof.
  apply (reachable_inv read_csv float_str column_total totals_wf
           (fun _ => totals_wf)).
  - apply totals_wf_empty.
  - by intros g s0 H.
  - apply ingest_player_totals.
  - by intros _ s0 H.
  - apply recompute_hitter_totals_totals.
Qed.

(** X11: in every store that uploads, ingestions and recomputes lead to,
    there is at most one hitter total per player, league and season, and
    every stored hitter total is the one that [get_hitter_total] returns
    for its player, league and season. *)
Theorem reachable_hitter_totals_unique s :
  reachable read_csv float_str column_total s ->
  NoDup (ht_key <$> odict.values (_hitter_totals s))
  /\ (forall id ht, (id, ht) ∈ _hitter_totals s ->
        get_hitter_total (ht_player_id ht) (ht_league ht) (ht_season ht) s
        = Some (id, ht)).
Proof.
  intros Hr. pose proof (reachable_totals_wf s Hr) as Hwf.
  split; [by apply totals_wf_unique|].
  intros id ht. by apply totals_wf_indexed.
Qed.
End totals_facts.

Lemma reachable_hitter_totals_unique_witness :
  NoDup (ht_key <$> odict.values (_hitter_totals demo_flat_recomputed))
  /\ (forall id ht, (id, ht) ∈ _hitter_totals demo_flat_recomputed ->
        get_hitter_total (ht_player_id ht) (ht_league ht) (ht_season ht)
          demo_flat_recomputed
        = Some (id, ht)).
Proof.
  apply (reachable_hitter_totals_unique
           demo_read_csv demo_float_str demo_column_total).
  apply reachable_recompute, reachable_ingest, reachable_empty.
Defined.

(** The hitter totals of the example. *)
Example demo_flat_recomputed_rows :
  (fun ht => (ht.1, ht_player_id ht.2, c_AB (ht_stats ht.2), c_H (ht_stats ht.2)))
    <$> _hitter_totals demo_flat_recomputed
  = [(1, 1, 4, 2); (2, 2, 3, 1)].
Proof. vm_compute. reflexivity. Qed.

(** X12: storing a hitter total in a consistent store is an upsert: the
    row is afterwards what [get_hitter_total] returns for its player,
    league and season, under the id the key had before when it had one; the
    rows of other keys are as before; the number of rows grows by one when
    the key was new and not at all otherwise. *)
Theorem upsert_hitter_total_round_trip ht s :
  totals_wf s ->
  let before := get_hitter_total (ht_player_id ht) (ht_league ht)
                  (ht_season ht) s in
  let s' := (create_or_update_hitter_total ht s).2 in
  exists id,
    (create_or_update_hitter_total ht s).1 = Ok (id, ht)
    /\ get_hitter_total (ht_player_id ht) (ht_league ht) (ht_season ht) s'
       = Some (id, ht)
    /\ (forall id0 ht0, before = Some (id0, ht0) -> id = id0)
    /\ (forall p l se, (p, l, se) <> ht_key ht ->
          get_hitter_total p l se s' = get_hitter_total p l se s)
    /\ List.length (_hitter_totals s')
       = match before with
         | Some _ => List.length (_hitter_totals s)
         | None => S (List.length (_hitter_totals s))
         end
    /\ totals_wf s'.
Proof.
  intros Hwf before s'. pose proof Hwf as [Hht Hnd].
  pose proof (create_or_update_totals_wf ht s Hwf) as Hwf'. fold s' in Hwf'.
  destruct (create_or_update_hitter_total ht s) as [r s1] eqn:Hup.
  destruct (create_or_update_hitter_total_wf _ _ _ _ Hht Hup)
    as (_ & _ & [id Hget] & Hother).
  simpl in s'. subst s'. exists id.
  unfold create_or_update_hitter_total in Hup.
  destruct (existing_hitter_total_id (ht_key ht) s) as [id1|] eqn:Hex.
  - injection Hup as <- <-.
    apply ht_wf_existing in Hex as Hk; [|done].
    destruct Hht as (Hc & Hidx & Hrow).
    destruct (Hidx _ _ Hk) as (Hpos & ht0 & Hget0 & Hkey0).
    assert (Hbefore : before = Some (id1, ht0)).
    { unfold before, get_hitter_total.
      change (ht_player_id ht, ht_league ht, ht_season ht) with (ht_key ht).
      rewrite Hk, Hget0. destruct (Z.eqb_spec id1 0); [lia|done]. }
    assert (Hid : id = id1).
    { unfold get_hitter_total in Hget. simpl in Hget.
      change (ht_player_id ht, ht_league ht, ht_season ht) with (ht_key ht)
        in Hget.
      rewrite Hk in Hget. destruct (id1 =? 0); [done|].
      destruct (odict.get id1 _); by simplify_eq. }
    subst id. split; [done|]. split; [done|]. split.
    { intros id0 ht1. rewrite Hbefore. by intros [= -> _]. }
    split; [done|]. split; [|done].
    rewrite Hbefore. simpl. rewrite odict_set_length.
    assert (odict.mem id1 (_hitter_totals s) = true) as ->
      by (apply odict_mem_get; by eexists). done.
  - injection Hup as <- <-.
    apply ht_wf_index_None in Hex as Hk; [|done].
    assert (Hbefore : before = None).
    { unfold before, get_hitter_total.
      change (ht_player_id ht, ht_league ht, ht_season ht) with (ht_key ht).
      by rewrite Hk. }
    assert (Hid : id = _hitter_total_id_counter s + 1).
    { unfold get_hitter_total in Hget. simpl in Hget.
      change (ht_player_id ht, ht_league ht, ht_season ht) with (ht_key ht)
        in Hget.
      rewrite lookup_insert_eq in Hget.
      destruct (_ =? 0); [done|]. destruct (odict.get _ _); by simplify_eq. }
    subst id. split; [done|]. split; [done|]. split.
    { intros id0 ht1. by rewrite Hbefore. }
    split; [done|]. split; [|done].
    rewrite Hbefore. simpl. rewrite odict_set_length.
    destruct Hht as (Hc & Hidx & Hrow).
    assert (odict.mem (_hitter_total_id_counter s + 1) (_hitter_totals s)
            = false) as ->; [|done].
    unfold odict.mem.
    destruct (odict.get _ (_hitter_totals s)) as [ht0|] eqn:Hg; [|done].
    apply Hrow in Hg as [Hle _]. lia.
Qed.

Lemma upsert_hitter_total_round_trip_witness :
  let ht := mk_HT 7 "L" "2024" 4 counting_zero 0 0 0 PyFloat.zero PyFloat.zero
              PyFloat.zero PyFloat.zero in
  let before := get_hitter_total 7 "L" "2024" stale_store in
  let s' := (create_or_update_hitter_total ht stale_store).2 in
  exists id,
    (create_or_update_hitter_total ht stale_store).1 = Ok (id, ht)
    /\ get_hitter_total 7 "L" "2024" s' = Some (id, ht)
    /\ (forall id0 ht0, before = Some (id0, ht0) -> id = id0)
    /\ (forall p l se, (p, l, se) <> ht_key ht ->
          get_hitter_total p l se s' = get_hitter_total p l se stale_store)
    /\ List.length (_hitter_totals s')
       = match before with
         | Some _ => List.length (_hitter_totals stale_store)
         | None => S (List.length (_hitter_totals stale_store))
         end
    /\ totals_wf s'.
Proof.
  apply (upsert_hitter_total_round_trip
           (mk_HT 7 "L" "2024" 4 counting_zero 0 0 0 PyFloat.zero PyFloat.zero
              PyFloat.zero PyFloat.zero) stale_store).
  split; [apply ht_wf_stale_store|].
  vm_compute. apply NoDup_singleton.
Defined.

(** ** Sorting *)

Section sort_facts.
Context {A : Type} (lt : A -> A -> bool).

Lemma insert_desc_perm x l : insert_desc lt x l ≡ₚ x :: l.
Proof.
  induction l as [|y l IH]; simpl; [done|].
  destruct (lt x y); [|done]. rewrite IH. apply Permutation_swap.
Qed.

Lemma sort_desc_perm l : sort_desc lt l ≡ₚ l.
Proof.
  induction l as [|x l IH]; simpl; [done|].
  by rewrite insert_desc_perm, IH.
Qed.

Lemma insert_asc_perm x l : insert_asc lt x l ≡ₚ x :: l.
Proof.
  induction l as [|y l IH]; simpl; [done|].
  destruct (lt y x); [|done]. rewrite IH. apply Permutation_swap.
Qed.

Lemma sort_asc_perm l : sort_asc lt l ≡ₚ l.
Proof.
  induction l as [|x l IH]; simpl; [done|].
  by rewrite insert_asc_perm, IH.
Qed.

(** [lt] is the strict part of a total preorder. *)
Hypothesis lt_asym : forall x y, lt x y = true -> lt y x = false.
Hypothesis ge_trans :
  forall x y z, lt x y = false -> lt y z = false -> lt x z = false.

Lemma insert_desc_ordered x l :
  ordered (fun a b => lt a b = false) l ->
  ordered (fun a b => lt a b = false) (insert_desc lt x l).
Proof.
  induction l as [|y l IH]; simpl; [done|]. intros [Hy Hl].
  destruct (lt x y) eqn:Hxy; simpl.
  - split; [|by apply IH].
    rewrite insert_desc_perm. apply Forall_cons. split; [by apply lt_asym|done].
  - split; [|done]. apply Forall_cons. split; [done|].
    eapply Forall_impl; [exact Hy|]. intros z Hz. by apply (ge_trans x y z).
Qed.

Lemma sort_desc_ordered l :
  ordered (fun a b => lt a b = false) (sort_desc lt l).
Proof.
  induction l as [|x l IH]; simpl; [done|]. by apply insert_desc_ordered.
Qed.

Lemma insert_asc_ordered x l :
  ordered (fun a b => lt b a = false) l ->
  ordered (fun a b => lt b a = false) (insert_asc lt x l).
Proof.
  induction l as [|y l IH]; simpl; [done|]. intros [Hy Hl].
  destruct (lt y x) eqn:Hyx; simpl.
  - split; [|by apply IH].
    rewrite insert_asc_perm. apply Forall_cons. split; [by apply lt_asym|done].
  - split; [|done]. apply Forall_cons. split; [done|].
    eapply Forall_impl; [exact Hy|]. intros z Hz. by apply (ge_trans z y x).
Qed.

Lemma sort_asc_ordered l :
  ordered (fun a b => lt b a = false) (sort_asc lt l).
Proof.
  induction l as [|x l IH]; simpl; [done|]. by apply insert_asc_ordered.
Qed.
End sort_facts.

Lemma ordered_impl {A : Type} (R Q : A -> A -> Prop) l :
  (forall a b, a ∈ l -> b ∈ l -> R a b -> Q a b) -> ordered R l -> ordered Q l.
Proof.
  induction l as [|x l IH]; simpl; [done|]. intros HRQ [Hx Hl]. split.
  - apply Forall_forall. intros b Hb. apply HRQ; [left|by right|].
    by apply (proj1 (Forall_forall _ _) Hx).
  - apply IH; [|done]. intros a b Ha Hb. apply HRQ; by right.
Qed.

Lemma py_slice_page {A : Type} (offset limit : Z) (l : list A) :
  0 <= offset -> 0 <= limit ->
  py_slice offset (offset + limit) l
  = take (Z.to_nat limit) (drop (Z.to_nat offset) l).
Proof.
  intros Ho Hl. unfold py_slice.
  destruct (Z.ltb_spec offset 0); [lia|].
  destruct (Z.ltb_spec (offset + limit) 0); [lia|].
  set (n := List.length l).
  destruct (Z.le_gt_cases (Z.of_nat n) offset) as [Hbig|Hsmall].
  - rewrite !drop_ge by (fold n; lia). by rewrite !take_nil.
  - rewrite (Z.min_l offset) by lia.
    destruct (Z.le_gt_cases (offset + limit) (Z.of_nat n)) as [Hfit|Hover].
    + rewrite Z.min_l by lia. f_equal. lia.
    + rewrite Z.min_r by lia.
      rewrite !take_ge; [done| |]; rewrite length_drop; fold n; lia.
Qed.

(** ** Listing games *)

Lemma date_eq_fields d1 d2 :
  d1 = d2 <-> year d1 = year d2 /\ month d1 = month d2 /\ day d1 = day d2.
Proof.
  destruct d1, d2; simpl. split; [by intros [= -> -> ->]|].
  by intros (-> & -> & ->).
Qed.

Section games_facts.
Variable created_at : Z -> Z.

Lemma game_key_lt_spec g1 g2 :
  game_key_lt created_at g1 g2 = true <->
  let d1 := g_date g1.2 in
  let d2 := g_date g2.2 in
  year d1 < year d2
  \/ (year d1 = year d2
      /\ (month d1 < month d2
          \/ (month d1 = month d2
              /\ (day d1 < day d2
                  \/ (day d1 = day d2
                      /\ created_at g1.1 < created_at g2.1))))).
Proof.
  unfold game_key_lt, date_lt. cbv zeta.
  case_bool_decide as Hd.
  - apply date_eq_fields in Hd as (Hy & Hm & Hdd).
    rewrite Z.ltb_lt. lia.
  - rewrite date_eq_fields in Hd.
    rewrite orb_true_iff, !andb_true_iff, orb_true_iff, !andb_true_iff,
      !Z.ltb_lt, !Z.eqb_eq. lia.
Qed.

Lemma game_key_lt_false g1 g2 :
  game_key_lt created_at g1 g2 = false <->
  ~ (game_key_lt created_at g1 g2 = true).
Proof. by destruct (game_key_lt created_at g1 g2). Qed.

Lemma game_key_lt_asym g1 g2 :
  game_key_lt created_at g1 g2 = true -> game_key_lt created_at g2 g1 = false.
Proof.
  rewrite game_key_lt_false, !game_key_lt_spec. cbv zeta. lia.
Qed.

Lemma game_key_ge_trans g1 g2 g3 :
  game_key_lt created_at g1 g2 = false ->
  game_key_lt created_at g2 g3 = false ->
  game_key_lt created_at g1 g3 = false.
Proof.
  rewrite !game_key_lt_false, !game_key_lt_spec. cbv zeta. lia.
Qed.

(** X13: with a limit of 10000 or more, [get_games] returns every stored
    game that passes the filters, once each; the list is ordered latest
    first: no game is followed by one of a later date, nor by one of the
    same date that was created later; the offset is ignored. *)
Theorem get_games_latest_first limit offset league season s :
  10000 <= limit ->
  let all := get_games created_at limit offset league season s in
  all ≡ₚ filter_season season (filter_league league (_games s))
  /\ ordered (fun g1 g2 =>
                date_lt (g_date g1.2) (g_date g2.2) = false
                /\ (g_date g1.2 = g_date g2.2 ->
                    created_at g2.1 <= created_at g1.1)) all
  /\ all = get_games created_at limit 0 league season s.
Proof.
  intros Hlimit all. unfold all, get_games.
  destruct (Z.leb_spec 10000 limit) as [_|]; [|lia].
  split; [apply sort_desc_perm|]. split; [|done].
  eapply ordered_impl;
    [|apply sort_desc_ordered;
      [apply game_key_lt_asym|apply game_key_ge_trans]].
  intros g1 g2 _ _ Hge. cbv beta in Hge.
  apply game_key_lt_false in Hge. rewrite game_key_lt_spec in Hge.
  cbv zeta in Hge. split.
  - destruct (date_lt _ _) eqn:Hlt; [|done]. exfalso. apply Hge.
    unfold date_lt in Hlt.
    rewrite orb_true_iff, !andb_true_iff, orb_true_iff, !andb_true_iff,
      !Z.ltb_lt, !Z.eqb_eq in Hlt. lia.
  - intros Hd. apply date_eq_fields in Hd. lia.
Qed.

(** X14: for an offset that is not negative and a limit from 0 to 9999,
    [get_games] returns the page of at most [limit] games that follows
    the first [offset] games of the full listing. *)
Theorem get_games_page limit offset league season s :
  0 <= offset -> 0 <= limit < 10000 ->
  get_games created_at limit offset league season s
  = take (Z.to_nat limit)
      (drop (Z.to_nat offset)
         (get_games created_at 10000 0 league season s)).
Proof.
  intros Ho Hl. unfold get_games.
  destruct (Z.leb_spec 10000 limit); [lia|].
  destruct (Z.leb_spec 10000 10000); [|lia].
  apply py_slice_page; lia.
Qed.
End games_facts.

Lemma get_games_latest_first_witness :
  let all := get_games (fun id => id) 10000 5 (Some "L") None demo_store in
  all ≡ₚ filter_season None (filter_league (Some "L") (_games demo_store))
  /\ ordered (fun g1 g2 =>
                date_lt (g_date g1.2) (g_date g2.2) = false
                /\ (g_date g1.2 = g_date g2.2 -> g2.1 <= g1.1)) all
  /\ all = get_games (fun id => id) 10000 0 (Some "L") None demo_store.
Proof.
  apply (get_games_latest_first (fun id => id) 10000 5 (Some "L") None
           demo_store).
  lia.
Defined.

Lemma get_games_page_witness :
  get_games (fun id => id) 1 1 None None demo_store
  = take (Z.to_nat 1)
      (drop (Z.to_nat 1) (get_games (fun id => id) 10000 0 None None demo_store)).
Proof.
  apply (get_games_page (fun id => id) 1 1 None None demo_store); lia.
Defined.

(** The second game of the example is the later one and comes first. *)
Example get_games_demo :
  (get_games (fun id => id) 10000 0 None None demo_store).*1 = [2; 1]
  /\ (get_games (fun id => id) 1 1 None None demo_store).*1 = [1].
Proof. split; vm_compute; reflexivity. Qed.

(** ** Plate appearances of a team *)

Lemma elem_of_keys {K V : Type} (k : K) (d : list (K * V)) :
  k ∈ d.*1 <-> exists v, (k, v) ∈ d.
Proof.
  rewrite list_elem_of_fmap. split.
  - intros ([k' v] & -> & Hin). by exists v.
  - intros [v Hin]. by exists (k, v).
Qed.

Lemma elem_of_filter_league league id g games :
  (id, g) ∈ filter_league league games <->
  (id, g) ∈ games /\ (truthy league = true -> Some (g_league g) = league).
Proof.
  unfold filter_league. destruct (truthy league).
  - rewrite !list_elem_of_In, filter_In, bool_decide_eq_true. simpl. tauto.
  - split; [by intros ?|by intros [? _]].
Qed.

Lemma elem_of_filter_season season id g games :
  (id, g) ∈ filter_season season games <->
  (id, g) ∈ games /\ (truthy season = true -> Some (g_season g) = season).
Proof.
  unfold filter_season. destruct (truthy season).
  - rewrite !list_elem_of_In, filter_In, bool_decide_eq_true. simpl. tauto.
  - split; [by intros ?|by intros [? _]].
Qed.

Section team_rows_facts.
Variable created_at : Z -> Z.

(** X15: [get_plate_appearances_by_team] returns exactly the stored
    plate appearances whose team is not empty and equals the given name
    up to letter case and surrounding white space; when a league or a
    season is given, only those of a stored game of that league and
    season, so that rows of games that are not stored are dropped then
    and kept otherwise.  Creation times play no role. *)
Theorem team_plate_appearances_spec team league season s id pa :
  (id, pa) ∈ get_plate_appearances_by_team created_at team league season s
  <->
  (id, pa) ∈ _plate_appearances s
  /\ pa_team pa <> EmptyString
  /\ PyStr.lower (PyStr.strip (pa_team pa)) = normalize_team team
  /\ (truthy league || truthy season = true ->
      exists g, (pa_game_id pa, g) ∈ _games s
                /\ (truthy league = true -> Some (g_league g) = league)
                /\ (truthy season = true -> Some (g_season g) = season)).
Proof.
  unfold get_plate_appearances_by_team, team_matches.
  destruct (truthy league || truthy season) eqn:Hf.
  - rewrite !list_elem_of_In, filter_In, <- !list_elem_of_In. simpl.
    rewrite !andb_true_iff, negb_true_iff, bool_decide_eq_false,
      !bool_decide_eq_true.
    assert (Hids : pa_game_id pa
                   ∈ (get_games created_at 10000 0 league season s).*1
              <-> exists g, (pa_game_id pa, g) ∈ _games s
                    /\ (truthy league = true -> Some (g_league g) = league)
                    /\ (truthy season = true -> Some (g_season g) = season)).
    { rewrite elem_of_keys. unfold get_games. simpl.
      split; intros [g Hg]; exists g.
      - rewrite sort_desc_perm in Hg.
        apply elem_of_filter_season in Hg as [Hg Hs].
        by apply elem_of_filter_league in Hg as [Hg Hl].
      - rewrite sort_desc_perm. destruct Hg as (Hg & Hl & Hs).
        apply elem_of_filter_season. split; [|done].
        by apply elem_of_filter_league. }
    rewrite Hids. tauto.
  - rewrite !list_elem_of_In, filter_In, <- !list_elem_of_In. simpl.
    rewrite !andb_true_iff, negb_true_iff, bool_decide_eq_false,
      !bool_decide_eq_true.
    split; [intros (? & ? & ?)|intros (? & ? & ? & _)]; repeat split; done.
Qed.
End team_rows_facts.

(** ** The teams of the store *)

Lemma ascii_compare_lt_trans a b c :
  Ascii.compare a b = Lt -> Ascii.compare b c = Lt -> Ascii.compare a c = Lt.
Proof. unfold Ascii.compare. rewrite !N.compare_lt_iff. lia. Qed.

Lemma string_compare_lt_trans s1 : forall s2 s3,
  String.compare s1 s2 = Lt -> String.compare s2 s3 = Lt ->
  String.compare s1 s3 = Lt.
Proof.
  induction s1 as [|a s1 IH]; intros [|b s2] [|c s3]; simpl; try done.
  destruct (Ascii.compare a b) eqn:Hab; [|
    |done].
  - apply Ascii.compare_eq_iff in Hab as ->.
    destruct (Ascii.compare b c); [apply IH|done|done].
  - intros _. destruct (Ascii.compare b c) eqn:Hbc; [| |done].
    + apply Ascii.compare_eq_iff in Hbc as <-. by rewrite Hab.
    + intros _. by rewrite (ascii_compare_lt_trans a b c).
Qed.

Lemma string_ltb_asym a b : String.ltb a b = true -> String.ltb b a = false.
Proof.
  unfold String.ltb. rewrite (String.compare_antisym b a).
  by destruct (String.compare a b).
Qed.

Lemma string_ltb_total a b :
  a <> b -> String.ltb b a = false -> String.ltb a b = true.
Proof.
  unfold String.ltb. rewrite (String.compare_antisym b a).
  destruct (String.compare a b) eqn:Hc; simpl; try done.
  intros Hne. by apply String.compare_eq_iff in Hc.
Qed.

Lemma string_ge_trans x y z :
  String.ltb x y = false -> String.ltb y z = false -> String.ltb x z = false.
Proof.
  intros Hxy Hyz.
  destruct (decide (x = y)) as [->|Hne1]; [done|].
  destruct (decide (y = z)) as [->|Hne2]; [done|].
  destruct (String.ltb x z) eqn:Hxz; [|done]. exfalso.
  assert (Hyx : String.ltb y x = true) by (apply string_ltb_total; done).
  assert (Hzy : String.ltb z y = true) by (apply string_ltb_total; done).
  unfold String.ltb in *.
  destruct (String.compare z y) eqn:H1; try done.
  destruct (String.compare y x) eqn:H2; try done.
  pose proof (string_compare_lt_trans z y x H1 H2) as H3.
  rewrite (String.compare_antisym x z), H3 in Hxz. done.
Qed.

Lemma ordered_NoDup {A : Type} (R : A -> A -> Prop) l :
  NoDup l -> ordered R l -> ordered (fun a b => R a b /\ a <> b) l.
Proof.
  induction l as [|x l IH]; simpl; [done|].
  intros [Hx Hnd]%NoDup_cons [HR Hl]. split; [|by apply IH].
  apply Forall_forall. intros b Hb. split.
  - by apply (proj1 (Forall_forall _ _) HR).
  - by intros ->.
Qed.

(** X16: [get_unique_teams] returns, in strictly ascending order of code
    points and so without repetition, the team names, stripped of white
    space, of the plate appearances that have a team, belong to a stored
    game and, when a league is given, to a game of that league. *)
Theorem get_unique_teams_sorted league s :
  let teams := get_unique_teams league s in
  ordered (fun a b => String.ltb a b = true) teams
  /\ forall t, t ∈ teams <->
       exists id pa g,
         (id, pa) ∈ _plate_appearances s
         /\ get_game (pa_game_id pa) s = Some g
         /\ (truthy league = true -> Some (g_league g) = league)
         /\ pa_team pa <> EmptyString
         /\ t = PyStr.strip (pa_team pa).
Proof.
  intros teams. unfold teams, get_unique_teams.
  set (raw := omap _ _). split.
  - eapply ordered_impl; [|apply ordered_NoDup;
      [|apply (sort_asc_ordered String.ltb string_ltb_asym string_ge_trans)]].
    + intros a b _ _ [Hge Hne]. by apply string_ltb_total.
    + rewrite sort_asc_perm. apply NoDup_remove_dups.
  - intros t. rewrite sort_asc_perm, elem_of_remove_dups. unfold raw.
    rewrite list_elem_of_omap. unfold unique_team_of, get_game. split.
    + intros ([id pa] & Hin & Hf). simpl in Hf. exists id, pa.
      destruct (odict.get (pa_game_id pa) (_games s)) as [g|]; [|done].
      exists g. split; [done|]. split; [done|].
      destruct (truthy league) eqn:Ht; simpl in Hf.
      * case_bool_decide as Hl; simpl in Hf; [|done].
        case_bool_decide; [done|]. by simplify_eq.
      * case_bool_decide; [done|]. by simplify_eq.
    + intros (id & pa & g & Hin & Hg & Hl & Hne & ->).
      exists (id, pa). split; [done|]. simpl. rewrite Hg.
      destruct (truthy league) eqn:Ht; simpl.
      * rewrite bool_decide_eq_true_2 by (by apply Hl). simpl.
        by rewrite bool_decide_eq_false_2.
      * by rewrite bool_decide_eq_false_2.
Qed.

(** The teams of the example, with one more row of a team written with
    white space around and a row of a game that is not stored. *)
Example get_unique_teams_demo :
  let s := (_ ← create_plate_appearance (mk_PA 1 9 " Owls " counting_zero);
            create_plate_appearance (mk_PA 5 9 "Zed" counting_zero)) demo_store in
  get_unique_teams None s.2 = ["Hawks"; "Owls"].
Proof. vm_compute. reflexivity. Qed.

(** ** One row of a player in a game *)

Lemma find_head_filter {A : Type} (f g : A -> bool) l :
  List.find (fun x => f x && g x) l = head (List.filter g (List.filter f l)).
Proof.
  induction l as [|x l IH]; simpl; [done|].
  destruct (f x); simpl; [|done]. by destruct (g x).
Qed.

(** X17: for a game id other than -1, the row that
    [get_plate_appearances_by_game_and_player] returns is the first row of
    the player among those that [get_plate_appearances_by_game] returns,
    and none when there is no such row; a player with several rows in the
    game gets the earliest. *)
Theorem plate_appearance_by_game_and_player_first game_id player_id s :
  game_id <> -1 ->
  get_plate_appearances_by_game_and_player game_id player_id s
  = head (List.filter (fun pa => bool_decide (pa_player_id pa.2 = player_id))
            (get_plate_appearances_by_game game_id s)).
Proof.
  intros Hne.
  unfold get_plate_appearances_by_game_and_player, get_plate_appearances_by_game.
  destruct (Z.eqb_spec game_id (-1)); [done|]. apply find_head_filter.
Qed.

Lemma plate_appearance_by_game_and_player_first_witness :
  get_plate_appearances_by_game_and_player 2 8 demo_store
  = head (List.filter (fun pa => bool_decide (pa_player_id pa.2 = 8))
            (get_plate_appearances_by_game 2 demo_store)).
Proof.
  apply (plate_appearance_by_game_and_player_first 2 8 demo_store). lia.
Defined.

(** Player 8 has two rows in game 2 of the example; the first is found. *)
Example plate_appearance_by_game_and_player_demo :
  fst <$> get_plate_appearances_by_game_and_player 2 8 demo_store = Some 3
  /\ (get_plate_appearances_by_game 2 demo_store).*1 = [2; 3; 4]
  /\ (get_plate_appearances_by_game (-1) demo_store).*1 = [1; 2; 3; 4].
Proof. repeat split. Qed.
